(** * Speech to Indian Sign Language: gloss reduction, asset resolution,
      timeline assembly, emotion annotation and the stage cache

    A shallow embedding of [modules/stage2_nlp.py], [modules/stage3_map.py],
    [modules/stage2_emotion.py], [utils/helpers.py] and
    [utils/cache_manager.py], followed by the properties proved about them.

    Conventions of the embedding:
    - Python [str] values are Rocq strings (byte strings); the [str] methods
      the code calls are defined in [PyStr] on the ASCII range, and bytes
      above 127 are left alone by them.
    - Python exceptions are the [Raise] results of the [result] type; a
      function that touches the disk threads a [world] through.
    - Open-shaped dictionaries (segments, cached payloads) are [gmap]s from
      string keys to [pyval]; dictionary literals with a fixed set of keys
      (asset descriptors, timeline entries) are records and variants.
    - Console output ([print]) is not part of the model, but the expressions
      a [print] evaluates are, since they can raise. *)

From Stdlib Require Import Ascii String QArith.
From stdpp Require Import base option list gmap strings.

Local Open Scope stdpp_scope.

#[local] Set Warnings "-clear-no-such-hyp".

(** ** Python string methods *)

Module PyStr.

Definition is_lower_char (c : ascii) : bool :=
  (97 <=? nat_of_ascii c) && (nat_of_ascii c <=? 122).

Definition is_upper_char (c : ascii) : bool :=
  (65 <=? nat_of_ascii c) && (nat_of_ascii c <=? 90).

Definition is_digit_char (c : ascii) : bool :=
  (48 <=? nat_of_ascii c) && (nat_of_ascii c <=? 57).

(** The ASCII characters [str.strip] removes: tab, line feed, vertical tab,
    form feed, carriage return, the four separators 28..31 and the space. *)
Definition is_space_char (c : ascii) : bool :=
  let n := nat_of_ascii c in
  ((9 <=? n) && (n <=? 13)) || ((28 <=? n) && (n <=? 32)).

Definition upper_char (c : ascii) : ascii :=
  if is_lower_char c then ascii_of_nat (nat_of_ascii c - 32) else c.

Definition lower_char (c : ascii) : ascii :=
  if is_upper_char c then ascii_of_nat (nat_of_ascii c + 32) else c.

Fixpoint upper (s : string) : string :=
  match s with
  | EmptyString => EmptyString
  | String c s' => String (upper_char c) (upper s')
  end.

Fixpoint lower (s : string) : string :=
  match s with
  | EmptyString => EmptyString
  | String c s' => String (lower_char c) (lower s')
  end.

Fixpoint lstrip (s : string) : string :=
  match s with
  | EmptyString => EmptyString
  | String c s' => if is_space_char c then lstrip s' else s
  end.

Definition rstrip (s : string) : string :=
  String.rev (lstrip (String.rev s)).

Definition strip (s : string) : string := rstrip (lstrip s).

Fixpoint all_chars (p : ascii → bool) (s : string) : bool :=
  match s with
  | EmptyString => true
  | String c s' => p c && all_chars p s'
  end.

(** [str.isnumeric]: at least one character, all of them numeric. *)
Definition isnumeric (s : string) : bool :=
  match s with
  | EmptyString => false
  | _ => all_chars is_digit_char s
  end.

(** Iterating over a [str] yields its characters as one-character strings. *)
Fixpoint chars (s : string) : list string :=
  match s with
  | EmptyString => []
  | String c s' => String c EmptyString :: chars s'
  end.

Fixpoint endswith_rev (suffix_rev s_rev : string) : bool :=
  match suffix_rev, s_rev with
  | EmptyString, _ => true
  | String a x, String b y => bool_decide (a = b) && endswith_rev x y
  | String _ _, EmptyString => false
  end.

Definition endswith (s suffix : string) : bool :=
  endswith_rev (String.rev suffix) (String.rev s).

(** [s[:n]] *)
Fixpoint slice_to (n : nat) (s : string) : string :=
  match n, s with
  | S n', String c s' => String c (slice_to n' s')
  | _, _ => EmptyString
  end.

End PyStr.

(** ** Exceptions *)

(** The exceptions the modelled code can meet, all of them caught by
    [except Exception]. *)
Inductive exn : Type :=
  | KeyError (key : string)
  | IndexError
  | TypeError
  | AttributeError
  | OSError
  | JSONDecodeError.

Inductive result (A : Type) : Type :=
  | Ok (a : A)
  | Raise (e : exn).

Arguments Ok {A} a.
Arguments Raise {A} e.

#[global] Instance result_ret : MRet result := λ A a, Ok a.

#[global] Instance result_bind : MBind result := λ A B k r,
  match r with
  | Ok a => k a
  | Raise e => Raise e
  end.

(** [for x in xs: acc = body(acc, x)], stopping at the first exception. *)
Fixpoint for_each {A S : Type} (body : S → A → result S) (xs : list A) (acc : S)
  : result S :=
  match xs with
  | [] => Ok acc
  | x :: xs' => acc' ← body acc x; for_each body xs' acc'
  end.

(** ** Python values *)

(** The values that travel through the pipeline as JSON-like data. *)
#[warnings="-register-all"]
Inductive pyval : Type :=
  | PNone
  | PBool (b : bool)
  | PInt (n : Z)
  | PFloat (q : Q)
  | PStr (s : string)
  | PList (l : list pyval)
  | PDict (d : gmap string pyval).

(** [d[k]] *)
Definition getitem {V : Type} (d : gmap string V) (k : string) : result V :=
  match d !! k with
  | Some v => Ok v
  | None => Raise (KeyError k)
  end.

(** [d.get(k, dflt)] *)
Definition dict_get {V : Type} (d : gmap string V) (k : string) (dflt : V) : V :=
  default dflt (d !! k).

(** [k in d] *)
Definition contains {V : Type} (d : gmap string V) (k : string) : bool :=
  bool_decide (is_Some (d !! k)).

(** Evaluating [v.get]: only a dictionary has that attribute. *)
Definition as_dict (v : pyval) : result (gmap string pyval) :=
  match v with
  | PDict d => Ok d
  | _ => Raise AttributeError
  end.

(** Evaluating a [str] method such as [v.upper] or [v.strip]. *)
Definition as_str (v : pyval) : result string :=
  match v with
  | PStr s => Ok s
  | _ => Raise AttributeError
  end.

(** [for x in v]: lists yield their items, strings their characters,
    dictionaries their keys; nothing else here is iterable. *)
Definition iterate (v : pyval) : result (list pyval) :=
  match v with
  | PList l => Ok l
  | PStr s => Ok (PStr <$> PyStr.chars s)
  | PDict d => Ok ((λ kv, PStr kv.1) <$> map_to_list d)
  | _ => Raise TypeError
  end.

(** [v[:n]] *)
Definition slice_prefix (n : nat) (v : pyval) : result pyval :=
  match v with
  | PStr s => Ok (PStr (PyStr.slice_to n s))
  | PList l => Ok (PList (take n l))
  | _ => Raise TypeError
  end.

(** ** The disk *)

(** A [world] maps the path of a directory to what sits there: a directory
    with its entries, or a regular file (so that the path cannot be listed
    or created as a directory).  A file inside a directory is addressed by
    the directory's path and the file's name; a sub-directory appears as a
    [Dir] entry of its parent and, under its own path, with its entries.
    Listing order is the order of [map_to_list]: Python promises none. *)
Inductive node : Type :=
  | Dir
  | File (readable writable : bool) (content : string).

Record directory : Type := {
  entries : gmap string node;
  dir_writable : bool
}.

Inductive place : Type :=
  | IsDir (d : directory)
  | IsFile.

Abbreviation world := (gmap string place).

Record path : Type := { parent : string; name : string }.

(** [dir / name] and [str(path)] *)
Definition path_join (dir name : string) : string := dir +:+ "/" +:+ name.

Definition path_in (dir name : string) : path :=
  {| parent := dir; name := name |}.

Definition str_of_path (p : path) : string := path_join (parent p) (name p).

(** Code that touches the disk: a result and the world it leaves behind,
    also when it raises. *)
Definition io (A : Type) : Type := world → result A * world.

#[global] Instance io_ret : MRet io := λ A a w, (Ok a, w).

#[global] Instance io_bind : MBind io := λ A B k m w,
  match m w with
  | (Ok a, w') => k a w'
  | (Raise e, w') => (Raise e, w')
  end.

Definition raise {A : Type} (e : exn) : io A := λ w, (Raise e, w).

Definition lift {A : Type} (r : result A) : io A := λ w, (r, w).

(** [try: body / except Exception as e: handler(e)] *)
Definition try_except {A : Type} (body : io A) (handler : exn → io A) : io A :=
  λ w, match body w with
       | (Ok a, w') => (Ok a, w')
       | (Raise e, w') => handler e w'
       end.

Fixpoint io_for_each {A : Type} (body : A → io unit) (xs : list A) : io unit :=
  match xs with
  | [] => mret tt
  | x :: xs' => _ ← body x; io_for_each body xs'
  end.

Module Disk.

Definition lookup_file (w : world) (p : path) : option node :=
  match w !! parent p with
  | Some (IsDir d) => entries d !! name p
  | _ => None
  end.

Definition set_file (p : path) (n : node) (w : world) : world :=
  match w !! parent p with
  | Some (IsDir d) =>
      <[parent p := IsDir {| entries := <[name p := n]> (entries d);
                             dir_writable := dir_writable d |}]> w
  | _ => w
  end.

Definition remove_file (p : path) (w : world) : world :=
  match w !! parent p with
  | Some (IsDir d) =>
      <[parent p := IsDir {| entries := delete (name p) (entries d);
                             dir_writable := dir_writable d |}]> w
  | _ => w
  end.

(** [Path.exists] of a directory path and of a file in a directory. *)
Definition dir_exists (w : world) (dir : string) : bool :=
  bool_decide (is_Some (w !! dir)).

Definition exists_ (p : path) : io bool :=
  λ w, (Ok (bool_decide (is_Some (lookup_file w p))), w).

(** The longest name a directory entry can have. *)
Definition NAME_MAX : nat := 255.

(** [Path.exists] where no handler stands around the call: the answer comes
    from [stat], and an error of [stat] other than "no such entry" is raised
    again.  A name of more than [NAME_MAX] characters, which no directory
    holds, makes [stat] fail so (ENAMETOOLONG). *)
Definition stat_exists (p : path) : io bool :=
  λ w, match lookup_file w p with
       | Some _ => (Ok true, w)
       | None =>
           if NAME_MAX <? String.length (name p)
           then (Raise OSError, w)
           else (Ok false, w)
       end.

(** [Path.iterdir] *)
Definition iterdir (w : world) (dir : string) : result (list (string * node)) :=
  match w !! dir with
  | Some (IsDir d) => Ok (map_to_list (entries d))
  | _ => Raise OSError
  end.

(** [Path.mkdir(parents=True, exist_ok=True)] *)
Definition mkdir_p (dir : string) : io unit :=
  λ w, match w !! dir with
       | Some (IsDir _) => (Ok tt, w)
       | Some IsFile => (Raise OSError, w)
       | None =>
           (Ok tt, <[dir := IsDir {| entries := ∅; dir_writable := true |}]> w)
       end.

(** [open(p, "r")] followed by reading the whole file. *)
Definition read_text (p : path) : io string :=
  λ w, match lookup_file w p with
       | Some (File true _ content) => (Ok content, w)
       | _ => (Raise OSError, w)
       end.

(** [open(p, "w")]: truncates an existing writable file, creates a missing
    one when the directory allows it. *)
Definition open_w (p : path) : io unit :=
  λ w, match w !! parent p with
       | Some (IsDir d) =>
           match entries d !! name p with
           | Some (File r true _) => (Ok tt, set_file p (File r true "") w)
           | Some _ => (Raise OSError, w)
           | None =>
               if dir_writable d
               then (Ok tt, set_file p (File true true "") w)
               else (Raise OSError, w)
           end
       | _ => (Raise OSError, w)
       end.

(** Writing to the handle of an opened file. *)
Definition write_text (p : path) (s : string) : io unit :=
  λ w, match lookup_file w p with
       | Some (File r wr content) => (Ok tt, set_file p (File r wr (content +:+ s)) w)
       | _ => (Raise OSError, w)
       end.

(** [Path.unlink] *)
Definition unlink (p : path) : io unit :=
  λ w, match w !! parent p with
       | Some (IsDir d) =>
           match entries d !! name p with
           | Some (File _ _ _) =>
               if dir_writable d then (Ok tt, remove_file p w)
               else (Raise OSError, w)
           | _ => (Raise OSError, w)
           end
       | _ => (Raise OSError, w)
       end.

(** [dir.glob("*" + suffix)]: the entries of [dir] whose name ends with
    [suffix]; nothing when [dir] is not a directory. *)
Definition glob_suffix (dir suffix : string) : io (list path) :=
  λ w, match w !! dir with
       | Some (IsDir d) =>
           (Ok (path_in dir <$>
                  filter (λ n, Is_true (PyStr.endswith n suffix))
                         ((map_to_list (entries d)).*1)), w)
       | _ => (Ok [], w)
       end.

End Disk.

(** ** modules/stage2_nlp.py *)

Module stage2_nlp.

(** What the code reads of a spaCy token. *)
Record Token : Type := {
  text : string;
  lemma_ : string;
  pos_ : string;
  is_punct : bool;
  is_space : bool
}.

Definition BASE_STOP : gset string :=
  {[ "um"; "uh"; "like"; "you_know"; "i_mean"; "basically"; "literally" ]}.

Section Analyzer.

(** The loaded spaCy pipeline and its default stop-word table. *)
Variable _NLP : string → list Token.
Variable stop_words : gset string.

Definition SPACY_STOP : gset string :=
  foldl (λ s keep, s ∖ {[ keep ]}) stop_words ["no"; "not"; "never"].

(** One turn of the loop over the document. *)
Definition gloss_step (keep_negation : bool) (toks : list string) (t : Token)
  : list string :=
  if is_space t then toks
  else
    let lower := PyStr.lower (text t) in
    if bool_decide (lower ∈ BASE_STOP) then toks
    else if is_punct t then
      if bool_decide (text t ∈ ({[ "."; "!"; "?"; ";" ]} : gset string))
      then toks ++ ["|"]
      else toks
    else
      let lemma := PyStr.strip (PyStr.lower (lemma_ t)) in
      if bool_decide (lemma = "") then toks
      else if bool_decide (lemma ∈ SPACY_STOP) then toks
      else if PyStr.isnumeric lemma then toks ++ [PyStr.upper lemma]
      else if keep_negation
              && bool_decide (lemma ∈ ({[ "no"; "not"; "never" ]} : gset string))
      then toks ++ [PyStr.upper lemma]
      else if bool_decide (pos_ t ∈ ({[ "PROPN"; "NOUN"; "VERB"; "ADJ"; "ADV";
                                         "AUX"; "PRON" ]} : gset string))
      then toks ++ [PyStr.upper lemma]
      else toks.

(** One turn of the loop that cleans redundant pauses. *)
Definition clean_step (cleaned : list string) (tok : string) : list string :=
  if bool_decide (tok = "|")
     && (bool_decide (cleaned = []) || bool_decide (last cleaned = Some "|"))
  then cleaned
  else cleaned ++ [tok].

Definition text_to_gloss_tokens (text : string) (keep_negation : bool)
  : list string :=
  let doc := _NLP text in
  let toks := foldl (gloss_step keep_negation) [] doc in
  foldl clean_step [] toks.

End Analyzer.

End stage2_nlp.

(** ** utils/config.py and utils/helpers.py *)

Module config.

Record Config : Type := {
  whisper_model : string;
  language : option string;
  root : string;
  assets_dir : string;
  signs_dir : string;
  sign_dict_csv : string;
  output_dir : string;
  tmp_dir : string;
  sample_rate : Z;
  mono : bool;
  keep_negation : bool
}.

(** [Config()], for the directory [root] the package sits in. *)
Definition Config_default (root : string) : Config :=
  let assets_dir := path_join root "assets" in
  let output_dir := path_join root "output" in
  {| whisper_model := "base";
     language := None;
     root := root;
     assets_dir := assets_dir;
     signs_dir := path_join assets_dir "signs";
     sign_dict_csv := path_join assets_dir "sign_dictionary.csv";
     output_dir := output_dir;
     tmp_dir := path_join output_dir "tmp";
     sample_rate := 16000;
     mono := true;
     keep_negation := true |}.

Definition ensure_dirs (self : Config) : io unit :=
  _ ← Disk.mkdir_p (output_dir self);
  _ ← Disk.mkdir_p (tmp_dir self);
  Disk.mkdir_p (signs_dir self).

End config.

Module helpers.

Section Json.

(** [json.dump(data, f, ensure_ascii=..., indent=2)]: the text it writes to
    [f] and the exception it raises on the way, if any. *)
Variable json_dump : bool → pyval → string * option exn.

Definition dump_into (ensure_ascii : bool) (p : path) (data : pyval) : io unit :=
  let '(written, err) := json_dump ensure_ascii data in
  _ ← Disk.write_text p written;
  match err with
  | None => mret tt
  | Some e => raise e
  end.

Definition write_json (p : path) (data : pyval) : io unit :=
  _ ← Disk.mkdir_p (parent p);
  _ ← Disk.open_w p;
  dump_into false p data.

End Json.

End helpers.

(** ** modules/stage3_map.py *)

Module stage3_map.

(** The dictionary literals of asset descriptors, by their ["type"]:
    [{"type": "pause", "dur": _}], [{"type": "image", "path": _, "label": _}],
    [{"type": "fingerspell", "label": _, "char": _}] and
    [{"type": "text", "label": _}]. *)
Inductive asset : Type :=
  | Pause (dur : Q)
  | Image (path label : string)
  | Fingerspell (label char : string)
  | Text (label : string).

(** The dictionary literal appended to the timeline. *)
Record entry : Type := {
  e_id : pyval;
  e_start : pyval;
  e_end : pyval;
  e_text : pyval;
  e_gloss : pyval;
  e_emotion : pyval;
  e_items : list asset
}.

(** [{"timeline": timeline}] *)
Record timeline_doc : Type := { timeline : list entry }.

(** [Path.suffix] of a file name. *)
Fixpoint rfind_dot (s : string) (i : nat) (found : option nat) : option nat :=
  match s with
  | EmptyString => found
  | String c s' =>
      rfind_dot s' (S i) (if bool_decide (c = "."%char) then Some i else found)
  end.

Fixpoint drop_chars (n : nat) (s : string) : string :=
  match n, s with
  | S n', String _ s' => drop_chars n' s'
  | _, _ => s
  end.

Definition suffix (file_name : string) : string :=
  match rfind_dot file_name 0 None with
  | Some i =>
      if bool_decide (0 < i < String.length file_name - 1)
      then drop_chars i file_name
      else ""
  | None => ""
  end.

Definition ALPHABET : gmap string string :=
  list_to_map ((λ c, (c, "FINGERSPELL_" +:+ c)) <$>
               PyStr.chars "ABCDEFGHIJKLMNOPQRSTUVWXYZ").

Section Resolver.

(** [str(Path(s))]: pathlib's rendering of a path given as a string. *)
Variable path_str : string → string.

(** One turn of the loop over the dataset's folders: the first media file
    of a folder stands for the sign the folder is named after. *)
Definition index_step (w : world) (dataset_path : string)
    (mapping : gmap string string) (folder : string * node)
  : result (gmap string string) :=
  match folder.2 with
  | Dir =>
      files ← Disk.iterdir w (path_join dataset_path folder.1);
      match
        head (filter
                (λ file : string * node,
                   PyStr.lower (suffix file.1)
                     ∈ [".jpg"; ".png"; ".mp4"; ".gif"])
                files)
      with
      | Some file =>
          Ok (<[PyStr.upper folder.1 :=
                  path_join (path_join dataset_path folder.1) file.1]>
                mapping)
      | None => Ok mapping
      end
  | File _ _ _ => Ok mapping
  end.

Definition load_sign_dict (w : world) (dataset_path : string)
  : result (gmap string string) :=
  if negb (Disk.dir_exists w dataset_path) then Ok ∅
  else
    folders ← Disk.iterdir w dataset_path;
    for_each (index_step w dataset_path) folders ∅.

(** One turn of the fingerspelling loop. *)
Definition spell_step (assets : list asset) (ch : string)
  : result (list asset) :=
  if contains ALPHABET ch
  then label ← getitem ALPHABET ch; Ok (assets ++ [Fingerspell label ch])
  else Ok assets.

(** The [cfg] argument of the source is never read and is left out. *)
Definition token_to_assets (token : string) (mapping : gmap string string)
  : result (list asset) :=
  let token := PyStr.upper token in
  if bool_decide (token = "|") then Ok [Pause (2 # 5)]
  else if contains mapping token then
    p ← getitem mapping token;
    Ok [Image (path_str p) token]
  else
    assets ← for_each spell_step (PyStr.chars token) [];
    match assets with
    | [] => Ok (assets ++ [Text token])
    | _ => Ok assets
    end.

(** One turn of the loop over a segment's gloss tokens. *)
Definition items_step (mapping : gmap string string)
    (seg_items : list asset) (tok : pyval) : result (list asset) :=
  tok ← as_str tok;
  assets ← token_to_assets tok mapping;
  Ok (seg_items ++ assets).

(** One turn of the loop over the segments.  The progress line printed at
    its end reads [seg['id']] and [seg['text'][:40]]. *)
Definition timeline_step (mapping : gmap string string)
    (timeline : list entry) (seg : pyval) : result (list entry) :=
  seg ← as_dict seg;
  gloss ← iterate (dict_get seg "gloss" (PList []));
  seg_items ← for_each (items_step mapping) gloss [];
  let timeline := timeline ++ [
    {| e_id := dict_get seg "id" PNone;
       e_start := dict_get seg "start" PNone;
       e_end := dict_get seg "end" PNone;
       e_text := dict_get seg "text" PNone;
       e_gloss := dict_get seg "gloss" PNone;
       e_emotion := dict_get seg "emotion" (PDict ∅);
       e_items := seg_items |} ] in
  _ ← getitem seg "id";
  text ← getitem seg "text";
  _ ← slice_prefix 40 text;
  Ok timeline.

(** [dataset_path] is the module-level path [cwd / "datasets" / "data"]. *)
Definition build_sign_timeline (w : world) (dataset_path : string)
    (gloss_json : gmap string pyval) : result timeline_doc :=
  mapping ← load_sign_dict w dataset_path;
  segments ← iterate (dict_get gloss_json "segments" (PList []));
  timeline ← for_each (timeline_step mapping) segments [];
  Ok {| timeline := timeline |}.

End Resolver.

End stage3_map.

(** ** modules/stage2_emotion.py *)

Module stage2_emotion.

(** One [{label, score}] entry of the classifier's output. *)
Record score_entry : Type := { label : string; score : Q }.

(** [max(scores, key=lambda x: x["score"])] on a non-empty list: the first
    entry no later entry beats. *)
Definition max_by_score (first : score_entry) (others : list score_entry)
  : score_entry :=
  foldl (λ best x, if Qle_bool (score x) (score best) then best else x)
        first others.

Definition emotion_dict (label : string) (score : Q) : pyval :=
  PDict {[ "label" := PStr label; "score" := PFloat score ]}.

Section Classifier.

(** The loaded text-classification pipeline, called with
    [return_all_scores=True]: one list of scores per input text. *)
Variable _EMO : string → result (list (list score_entry)).
Variable json_dump : bool → pyval → string * option exn.
(** The directory [Config()] takes as its root. *)
Variable package_root : string.

Definition annotate (out_segments : list pyval) (seg : pyval)
  : result (list pyval) :=
  seg ← as_dict seg;
  text ← as_str (dict_get seg "text" (PStr ""));
  let text := PyStr.strip text in
  if bool_decide (text = "") then
    let seg_out := <["emotion" := emotion_dict "neutral" 0]> seg in
    Ok (out_segments ++ [PDict seg_out])
  else
    all_scores ← _EMO text;
    scores ← match all_scores with
             | scores :: _ => Ok scores
             | [] => Raise IndexError
             end;
    let top := match scores with
               | first :: others => max_by_score first others
               | [] => {| label := "neutral"; score := 0 |}
               end in
    let seg_out := <["emotion" := emotion_dict (label top) (score top)]> seg in
    Ok (out_segments ++ [PDict seg_out]).

Definition add_emotion_to_segments (gloss_json : gmap string pyval)
    (cfg : option config.Config) : io (gmap string pyval) :=
  let cfg := default (config.Config_default package_root) cfg in
  _ ← config.ensure_dirs cfg;
  segments ← lift (iterate (dict_get gloss_json "segments" (PList [])));
  out_segments ← lift (for_each annotate segments []);
  let out : gmap string pyval := {[ "segments" := PList out_segments ]} in
  let output_path := path_in (config.output_dir cfg) "emotion_output.json" in
  _ ← helpers.write_json json_dump output_path (PDict out);
  mret out.

End Classifier.

End stage2_emotion.

(** ** utils/cache_manager.py *)

Module cache_manager.

Record CacheManager : Type := { cache_dir : string }.

Section Json.

Variable json_dump : bool → pyval → string * option exn.
(** [json.load(f)] on the text of [f]. *)
Variable json_load : string → result pyval.

Definition get_cache_key (video_id : string) : string := "video_" +:+ video_id.

Definition get_cache_file (self : CacheManager) (video_id : string) : path :=
  let cache_key := get_cache_key video_id in
  path_in (cache_dir self) (cache_key +:+ ".json").

Definition stage_cache_file (self : CacheManager) (video_id stage : string)
  : path :=
  path_in (cache_dir self)
          ("video_" +:+ video_id +:+ "_stage_" +:+ stage +:+ ".json").

Definition save_stage_cache (self : CacheManager) (video_id stage : string)
    (data : pyval) : io bool :=
  let stage_cache_file := stage_cache_file self video_id stage in
  try_except
    (_ ← Disk.open_w stage_cache_file;
     _ ← helpers.dump_into json_dump true stage_cache_file data;
     mret true)
    (λ e, mret false).

Definition load_stage_cache (self : CacheManager) (video_id stage : string)
  : io (option pyval) :=
  let stage_cache_file := stage_cache_file self video_id stage in
  found ← Disk.stat_exists stage_cache_file;
  if negb found then mret None
  else
    try_except
      (content ← Disk.read_text stage_cache_file;
       payload ← lift (json_load content);
       mret (Some payload))
      (λ e, mret None).

Definition has_stage_cache (self : CacheManager) (video_id stage : string)
  : io bool :=
  Disk.stat_exists (stage_cache_file self video_id stage).

(** The result is [Some b] for [return b] and [None] where the source falls
    off the end of the function.  [if video_id:] holds for a string that is
    not empty. *)
Definition clear_cache (self : CacheManager) (video_id : option string)
  : io (option bool) :=
  try_except
    (match video_id with
     | Some (String _ _ as video_id) =>
         let cache_file := get_cache_file self video_id in
         found ← Disk.exists_ cache_file;
         if found : bool then
           _ ← Disk.unlink cache_file;
           (mret (Some true) : io (option bool))
         else mret None
     | _ =>
         files ← Disk.glob_suffix (cache_dir self) ".json";
         _ ← io_for_each Disk.unlink files;
         mret (Some true)
     end)
    (λ e, mret (Some false)).

End Json.

End cache_manager.

(** ** The pause discipline of a token sequence *)

Module gloss_spec.

(** No pause marker in front, no two in a row. *)
Definition pauses_clean (l : list string) : Prop :=
  head l ≠ Some "|" ∧ ∀ i, l !! i = Some "|" → l !! S i ≠ Some "|".

End gloss_spec.

(** ** The resolver's policy in the specification's words *)

Module resolver_spec.

Import stage3_map.

(** One [Fingerspell] descriptor per character that is an upper-case Latin
    letter, left to right; every other character is skipped. *)
Fixpoint fingerspell (token : string) : list asset :=
  match token with
  | EmptyString => []
  | String c rest =>
      if PyStr.is_upper_char c
      then Fingerspell ("FINGERSPELL_" +:+ String c "") (String c "")
             :: fingerspell rest
      else fingerspell rest
  end.

Definition is_fingerspell (a : asset) : bool :=
  match a with
  | Fingerspell _ _ => true
  | _ => false
  end.

Definition is_image (a : asset) : bool :=
  match a with
  | Image _ _ => true
  | _ => false
  end.

(** The four tiers, first match wins: pause, index hit, fingerspelling,
    literal text.  [render] is how a path of the index is written out. *)
Definition resolve (render : string → string) (token : string)
    (index : gmap string string) : list asset :=
  if bool_decide (token = "|") then [Pause (2 # 5)]
  else
    match index !! PyStr.upper token with
    | Some p => [Image (render p) (PyStr.upper token)]
    | None =>
        match fingerspell (PyStr.upper token) with
        | [] => [Text (PyStr.upper token)]
        | spelled => spelled
        end
    end.

(** A segment as the data model has it: an identifier, a text and, when
    the gloss is there, a list of string tokens. *)
Definition is_str (v : pyval) : bool :=
  match v with
  | PStr _ => true
  | _ => false
  end.

Definition segment_ok (seg : gmap string pyval) : bool :=
  bool_decide (is_Some (seg !! "id"))
  && match seg !! "text" with
     | Some (PStr _) => true
     | _ => false
     end
  && match dict_get seg "gloss" (PList []) with
     | PList toks => forallb is_str toks
     | _ => false
     end.

Definition strings_of (vs : list pyval) : list string :=
  omap (λ v, match v with PStr s => Some s | _ => None end) vs.

Definition gloss_of (seg : gmap string pyval) : list string :=
  match dict_get seg "gloss" (PList []) with
  | PList toks => strings_of toks
  | _ => []
  end.

(** The entry of a segment: its fields carried through, its items the
    descriptors of its gloss tokens, token after token. *)
Definition entry_of (render : string → string) (index : gmap string string)
    (seg : gmap string pyval) : entry :=
  {| e_id := dict_get seg "id" PNone;
     e_start := dict_get seg "start" PNone;
     e_end := dict_get seg "end" PNone;
     e_text := dict_get seg "text" PNone;
     e_gloss := dict_get seg "gloss" PNone;
     e_emotion := dict_get seg "emotion" (PDict ∅);
     e_items := concat ((λ tok, resolve render tok index) <$> gloss_of seg) |}.

End resolver_spec.

(** ** The emotion annotator, segment by segment *)

Module emotion_spec.

Import stage2_emotion.

(** The text the annotator looks at: the segment's text, stripped; empty
    when the segment has none. *)
Definition segment_text (seg : gmap string pyval) : string :=
  PyStr.strip (match seg !! "text" with
               | Some (PStr text) => text
               | _ => ""
               end).

(** A segment the annotator can read: its text, if any, is a string. *)
Definition text_ok (seg : gmap string pyval) : bool :=
  match seg !! "text" with
  | None | Some (PStr _) => true
  | Some _ => false
  end.

(** The emotion a segment receives: neutral for a blank text, otherwise the
    best-scored label of the classifier's first list. *)
Definition emotion_of (classify : string → result (list (list score_entry)))
    (seg : gmap string pyval) : pyval :=
  if bool_decide (segment_text seg = "") then emotion_dict "neutral" 0
  else
    match classify (segment_text seg) with
    | Ok ((first :: others) :: _) =>
        let top := max_by_score first others in
        emotion_dict (label top) (score top)
    | _ => emotion_dict "neutral" 0
    end.

End emotion_spec.

(** ** Sample inputs *)

Module samples.

Import stage2_nlp.

Definition word (text lemma pos : string) : Token :=
  {| text := text; lemma_ := lemma; pos_ := pos;
     is_punct := false; is_space := false |}.

Definition punct (text : string) : Token :=
  {| text := text; lemma_ := text; pos_ := "PUNCT";
     is_punct := true; is_space := false |}.

(** The document spaCy makes of the text "Stop! Never stop." *)
Definition stop_never_stop : list Token :=
  [ word "Stop" "stop" "VERB"; punct "!";
    word "Never" "never" "ADV"; word "stop" "stop" "VERB"; punct "." ].

Definition nlp (text : string) : list Token :=
  if bool_decide (text = "Stop! Never stop.") then stop_never_stop else [].

(** A cache directory with the combined file and two stage files of one
    video, a stage file of another and a file that is no cache file. *)
Definition cache : cache_manager.CacheManager :=
  {| cache_manager.cache_dir := "/app/cache" |}.

Definition cache_world : world :=
  {[ "/app/cache" :=
       IsDir {| entries :=
                  {[ "video_abc.json" := File true true "{}";
                     "video_abc_stage_gloss.json" := File true true "{}";
                     "video_abc_stage_timeline.json" := File true true "{}";
                     "video_xyz_stage_gloss.json" := File true true "{}";
                     "notes.txt" := File true true "keep" ]};
                dir_writable := true |} ]}.

(** An excerpt of spaCy's English stop words, the negations among them. *)
Definition stop_words : gset string :=
  {[ "a"; "an"; "the"; "and"; "or"; "but"; "i"; "you"; "he"; "she"; "it";
     "we"; "they"; "is"; "am"; "are"; "was"; "were"; "be"; "to"; "of"; "in";
     "on"; "at"; "for"; "with"; "no"; "not"; "never" ]}.

(** Two segments with gloss and emotion; the second has no gloss token. *)
Definition first_segment : gmap string pyval :=
  {[ "id" := PInt 0; "start" := PFloat 0; "end" := PFloat (3 # 2);
     "text" := PStr "I love you."; "gloss" := PList [PStr "LOVE"; PStr "|"];
     "emotion" := PDict {[ "label" := PStr "joy"; "score" := PFloat (9 # 10) ]} ]}.

Definition second_segment : gmap string pyval :=
  {[ "id" := PInt 1; "start" := PFloat (3 # 2); "end" := PFloat 2;
     "text" := PStr "Of the."; "gloss" := PList [] ]}.

Definition gloss_json : gmap string pyval :=
  {[ "segments" := PList [PDict first_segment; PDict second_segment] ]}.

(** A classifier that finds joy everywhere, and a serializer that writes an
    empty object whatever it is given. *)
Definition classifier (text : string)
  : result (list (list stage2_emotion.score_entry)) :=
  Ok [[ {| stage2_emotion.label := "sadness"; stage2_emotion.score := 1 # 10 |};
        {| stage2_emotion.label := "joy"; stage2_emotion.score := 9 # 10 |} ]].

Definition json_dump (ensure_ascii : bool) (data : pyval)
  : string * option exn :=
  ("{}", None).


(** [str(Path(s))] on a POSIX system: runs of separators collapse, "."
    components and a trailing separator go, exactly two leading separators
    stay, and the empty path reads ".". *)
Fixpoint components (s cur_rev : string) : list string :=
  match s with
  | EmptyString => [String.rev cur_rev]
  | String c s' =>
      if bool_decide (c = "/"%char)
      then String.rev cur_rev :: components s' ""
      else components s' (String c cur_rev)
  end.

Fixpoint join_slash (parts : list string) : string :=
  match parts with
  | [] => ""
  | [x] => x
  | x :: rest => x +:+ "/" +:+ join_slash rest
  end.

Definition posix_str (s : string) : string :=
  let parts := filter (λ x, x ≠ "" ∧ x ≠ ".") (components s "") in
  let anchor :=
    match s with
    | String "/" (String "/" (String "/" _)) => "/"
    | String "/" (String "/" _) => "//"
    | String "/" _ => "/"
    | _ => ""
    end in
  match anchor +:+ join_slash parts with
  | EmptyString => "."
  | rendered => rendered
  end.

End samples.

(** ** More of the code: string methods, globbing *)

Module PyMore.

(** [str.isalnum] of one character, on the ASCII range. *)
Definition isalnum_char (c : ascii) : bool :=
  PyStr.is_digit_char c || PyStr.is_upper_char c || PyStr.is_lower_char c.

Definition is_ascii (s : string) : bool :=
  PyStr.all_chars (λ c, nat_of_ascii c <? 128) s.

Fixpoint startswith (s prefix : string) {struct prefix} : bool :=
  match prefix, s with
  | EmptyString, _ => true
  | String a p, String b s' => bool_decide (a = b) && startswith s' p
  | String _ _, EmptyString => false
  end.

(** [s.replace(old, "")] for an [old] that is not empty: the occurrences of
    [old] go, found from the left and not overlapping.  [skip] counts the
    characters of the occurrence under way that are still to be passed. *)
Fixpoint remove_all_go (old : string) (skip : nat) (s : string) : string :=
  match s with
  | EmptyString => EmptyString
  | String c s' =>
      match skip with
      | S k => remove_all_go old k s'
      | O =>
          if startswith s old
          then remove_all_go old (String.length old - 1) s'
          else String c (remove_all_go old 0 s')
      end
  end.

Definition remove_all (old s : string) : string := remove_all_go old 0 s.

(** [Path.stem] of a file name. *)
Definition stem (file_name : string) : string :=
  match stage3_map.rfind_dot file_name 0 None with
  | Some i =>
      if bool_decide (0 < i < String.length file_name - 1)
      then PyStr.slice_to i file_name
      else file_name
  | None => file_name
  end.

(** [dir.glob(prefix + "*" + suffix)]: the entries of [dir] whose name
    starts with [prefix] and, after it, ends with [suffix]. *)
Definition glob_affix (dir prefix suffix : string) : io (list path) :=
  λ w, match w !! dir with
       | Some (IsDir d) =>
           (Ok (path_in dir <$>
                  filter (λ n, Is_true
                            (startswith n prefix
                             && PyStr.endswith n suffix
                             && (String.length prefix + String.length suffix
                                 <=? String.length n)))
                         ((map_to_list (entries d)).*1)), w)
       | _ => (Ok [], w)
       end.

End PyMore.

(** ** modules/stage2_nlp.py: the segments *)

Module stage2_nlp_segments.

Section Analyzer.

Variable _NLP : string → list stage2_nlp.Token.
Variable stop_words : gset string.
Variable json_dump : bool → pyval → string * option exn.

(** One turn of the loop over the transcript segments.  The dictionary
    literal reads [seg["id"]], [seg["start"]], [seg["end"]] and
    [seg["text"]] in this order. *)
Definition gloss_segment_step (cfg : config.Config) (out_segments : list pyval)
    (seg : pyval) : result (list pyval) :=
  seg ← as_dict seg;
  text ← as_str (dict_get seg "text" (PStr ""));
  let text := PyStr.strip text in
  if bool_decide (text = "") then Ok out_segments
  else
    let tokens :=
      stage2_nlp.text_to_gloss_tokens _NLP stop_words text
        (config.keep_negation cfg) in
    seg_id ← getitem seg "id";
    seg_start ← getitem seg "start";
    seg_end ← getitem seg "end";
    seg_text ← getitem seg "text";
    Ok (out_segments ++ [PDict {[ "id" := seg_id; "start" := seg_start;
                                  "end" := seg_end; "text" := seg_text;
                                  "gloss" := PList (PStr <$> tokens) ]}]).

Definition process_segments_to_gloss (segments : pyval) (cfg : config.Config)
  : result (gmap string pyval) :=
  segments ← iterate segments;
  out_segments ← for_each (gloss_segment_step cfg) segments [];
  Ok {[ "segments" := PList out_segments ]}.

Definition save_gloss_json (gloss_data : gmap string pyval) (wav_stem : string)
    (cfg : config.Config) : io path :=
  let p := path_in (config.output_dir cfg) (wav_stem +:+ "_gloss.json") in
  _ ← helpers.write_json json_dump p (PDict gloss_data);
  mret p.

End Analyzer.

End stage2_nlp_segments.

(** ** modules/stage3_map.py: saving the timeline *)

Module stage3_map_save.

Import stage3_map.

(** The dictionaries the records and variants of [stage3_map] stand for. *)
Definition asset_to_py (a : asset) : pyval :=
  match a with
  | Pause dur => PDict {[ "type" := PStr "pause"; "dur" := PFloat dur ]}
  | Image p label =>
      PDict {[ "type" := PStr "image"; "path" := PStr p; "label" := PStr label ]}
  | Fingerspell label char =>
      PDict {[ "type" := PStr "fingerspell"; "label" := PStr label;
               "char" := PStr char ]}
  | Text label => PDict {[ "type" := PStr "text"; "label" := PStr label ]}
  end.

Definition entry_to_py (e : entry) : pyval :=
  PDict {[ "id" := e_id e; "start" := e_start e; "end" := e_end e;
           "text" := e_text e; "gloss" := e_gloss e; "emotion" := e_emotion e;
           "items" := PList (asset_to_py <$> e_items e) ]}.

Definition timeline_to_py (t : timeline_doc) : pyval :=
  PDict {[ "timeline" := PList (entry_to_py <$> timeline t) ]}.

Section Json.

Variable json_dump : bool → pyval → string * option exn.

Definition save_timeline_json (t : timeline_doc) (wav_stem : string)
    (cfg : config.Config) : io path :=
  _ ← config.ensure_dirs cfg;
  let p := path_in (config.output_dir cfg) (wav_stem +:+ "_sign_timeline.json") in
  _ ← helpers.write_json json_dump p (timeline_to_py t);
  mret p.

End Json.

End stage3_map_save.

(** ** utils/helpers.py: the other helpers *)

Module helpers_more.

(** [safe_stem]: every character that is neither alphanumeric nor "-" nor
    "_" becomes "_". *)
Definition safe_char (c : ascii) : ascii :=
  if PyMore.isalnum_char c
     || bool_decide (c = "-"%char) || bool_decide (c = "_"%char)
  then c else "_"%char.

Fixpoint safe_stem (s : string) : string :=
  match s with
  | EmptyString => EmptyString
  | String c s' => String (safe_char c) (safe_stem s')
  end.

Section Json.

Variable json_load : string → result pyval.

Definition read_json (p : path) : io pyval :=
  content ← Disk.read_text p;
  lift (json_load content).

End Json.

End helpers_more.

(** ** utils/cache_manager.py: the combined cache file and the listing *)

Module cache_manager_more.

Import cache_manager.

Section Json.

Variable json_dump : bool → pyval → string * option exn.
Variable json_load : string → result pyval.

Definition has_cache (self : CacheManager) (video_id : string) : io bool :=
  let cache_file := get_cache_file self video_id in
  Disk.stat_exists cache_file.

Definition load_cache (self : CacheManager) (video_id : string)
  : io (option pyval) :=
  let cache_file := get_cache_file self video_id in
  found ← Disk.stat_exists cache_file;
  if negb found then mret None
  else
    try_except
      (content ← Disk.read_text cache_file;
       payload ← lift (json_load content);
       mret (Some payload))
      (λ e, mret None).

Definition save_cache (self : CacheManager) (video_id : string) (data : pyval)
  : io bool :=
  let cache_file := get_cache_file self video_id in
  try_except
    (_ ← Disk.open_w cache_file;
     _ ← helpers.dump_into json_dump true cache_file data;
     mret true)
    (λ e, mret false).

Definition list_cached_videos (self : CacheManager) : io (list string) :=
  files ← PyMore.glob_affix (cache_dir self) "video_" ".json";
  mret ((λ cache_file, PyMore.remove_all "video_" (PyMore.stem (name cache_file)))
          <$> files).

End Json.

End cache_manager_more.

(** ** app.py: the video id of a URL *)

Module app.

(** A character of the class [[^&\n?#]]. *)
Definition is_id_char (c : ascii) : bool :=
  negb (bool_decide (c = "&"%char) || bool_decide (c = "010"%char)
        || bool_decide (c = "?"%char) || bool_decide (c = "#"%char)).

(** The greedy group [([^&\n?#]+)] read from the start of [s]: the longest
    run of characters of the class, possibly empty here. *)
Fixpoint take_id (s : string) : string :=
  match s with
  | EmptyString => EmptyString
  | String c s' => if is_id_char c then String c (take_id s') else EmptyString
  end.

(** The alternatives of the non-capturing group, in the order of the
    pattern. *)
Definition markers : list string :=
  ["youtube.com/watch?v="; "youtu.be/"; "youtube.com/embed/"].

(** The pattern matched at the start of [s]: the first alternative that is
    there and is followed by at least one character of the class. *)
Fixpoint match_alternatives (alts : list string) (s : string) : option string :=
  match alts with
  | [] => None
  | marker :: alts' =>
      if PyMore.startswith s marker
      then
        match take_id (stage3_map.drop_chars (String.length marker) s) with
        | EmptyString => match_alternatives alts' s
        | group => Some group
        end
      else match_alternatives alts' s
  end.

(** [re.search]: the match at the leftmost position that has one. *)
Fixpoint search (s : string) : option string :=
  match match_alternatives markers s with
  | Some group => Some group
  | None =>
      match s with
      | EmptyString => None
      | String _ s' => search s'
      end
  end.

(** [None] is Python's [None]; the list of patterns has one pattern. *)
Definition extract_youtube_id (url : string) : option string := search url.

End app.

(** ** app.py: the gloss, emotion and timeline stages behind the cache *)

Module app_pipeline.

Import cache_manager.

(** The truth value of a Python value. *)
Definition truthy (v : pyval) : bool :=
  match v with
  | PNone => false
  | PBool b => b
  | PInt n => negb (n =? 0)%Z
  | PFloat q => negb (Qeq_bool q 0)
  | PStr s => negb (bool_decide (s = ""))
  | PList l => match l with [] => false | _ => true end
  | PDict d => negb (bool_decide (size d = 0))
  end.

(** [if cached:] for what [load_stage_cache] returned. *)
Definition hit (cached : option pyval) : bool :=
  match cached with
  | Some v => truthy v
  | None => false
  end.

(** [v[key]] for a string key. *)
Definition subscript (v : pyval) (key : string) : result pyval :=
  match v with
  | PDict d => getitem d key
  | _ => Raise TypeError
  end.

Section Pipeline.

Variable _NLP : string → list stage2_nlp.Token.
Variable stop_words : gset string.
Variable _EMO : string → result (list (list stage2_emotion.score_entry)).
Variable json_dump : bool → pyval → string * option exn.
Variable json_load : string → result pyval.
Variable package_root : string.
Variable path_str : string → string.
(** The module-level [dataset_path] of [stage3_map]. *)
Variable dataset_path : string.

(** [add_emotion_to_segments(gloss_json, cfg)] for a value that need not be
    a dictionary: the directories are made before [gloss_json.get] is
    evaluated. *)
Definition add_emotion_to_value (gloss_json : pyval) (cfg : config.Config)
  : io (gmap string pyval) :=
  match gloss_json with
  | PDict gloss_dict =>
      stage2_emotion.add_emotion_to_segments _EMO json_dump package_root
        gloss_dict (Some cfg)
  | _ => _ ← config.ensure_dirs cfg; raise AttributeError
  end.

(** [build_sign_timeline(gloss_json, cfg)] for a value that need not be a
    dictionary: the index is loaded before [gloss_json.get] is evaluated. *)
Definition build_sign_timeline_of_value (gloss_json : pyval)
  : io stage3_map.timeline_doc :=
  λ w,
    (match gloss_json with
     | PDict gloss_dict =>
         stage3_map.build_sign_timeline path_str w dataset_path gloss_dict
     | _ =>
         _ ← stage3_map.load_sign_dict w dataset_path;
         Raise AttributeError
     end, w).

(** The stages 2a, 2b and 3 of the processing block, from the transcript to
    the timeline: each stage is taken from the cache when the cache has a
    payload that counts as true, and is computed and saved otherwise.  The
    result is [gloss_with_emotion], [timeline] and [stages_from_cache].
    The calls that only report to the page are left out. *)
Definition gloss_emotion_timeline (cache_mgr : CacheManager)
    (video_id : string) (transcript_json : pyval) (show_emotion : bool)
    (cfg : config.Config) (stages_from_cache : list string)
  : io (pyval * pyval * list string) :=
  stage2_nlp_cached ← load_stage_cache json_load cache_mgr video_id "gloss";
  '(gloss_json, stages_from_cache) ←
    (if hit stage2_nlp_cached
     then mret (default PNone stage2_nlp_cached, stages_from_cache ++ ["gloss"])
     else
       segments ← lift (subscript transcript_json "segments");
       gloss_json ← lift (stage2_nlp_segments.process_segments_to_gloss
                            _NLP stop_words segments cfg);
       _ ← save_stage_cache json_dump cache_mgr video_id "gloss"
             (PDict gloss_json);
       mret (PDict gloss_json, stages_from_cache));
  '(gloss_with_emotion, stages_from_cache) ←
    (if show_emotion
     then
       stage2_emotion_cached ←
         load_stage_cache json_load cache_mgr video_id "emotion";
       if hit stage2_emotion_cached
       then mret (default PNone stage2_emotion_cached,
                  stages_from_cache ++ ["emotion"])
       else
         gloss_with_emotion ← add_emotion_to_value gloss_json cfg;
         _ ← save_stage_cache json_dump cache_mgr video_id "emotion"
               (PDict gloss_with_emotion);
         mret (PDict gloss_with_emotion, stages_from_cache)
     else mret (gloss_json, stages_from_cache));
  stage3_cached ← load_stage_cache json_load cache_mgr video_id "timeline";
  '(timeline, stages_from_cache) ←
    (if hit stage3_cached
     then mret (default PNone stage3_cached, stages_from_cache ++ ["timeline"])
     else
       timeline ← build_sign_timeline_of_value gloss_with_emotion;
       _ ← save_stage_cache json_dump cache_mgr video_id "timeline"
             (stage3_map_save.timeline_to_py timeline);
       mret (stage3_map_save.timeline_to_py timeline, stages_from_cache));
  mret (gloss_with_emotion, timeline, stages_from_cache).

End Pipeline.

End app_pipeline.

(** ** Notions used to state what the rest of the code does *)

Module more_spec.

(** [l2] is [l1] with words added at some places, none of them a pause
    marker; both lists are read as grown at the end, the way the loops grow
    them. *)
Inductive adds_words : list string → list string → Prop :=
  | adds_nothing : adds_words [] []
  | adds_after x l1 l2 : adds_words l1 l2 → adds_words (l1 ++ [x]) (l2 ++ [x])
  | adds_word y l1 l2 : y ≠ "|" → adds_words l1 l2 → adds_words l1 (l2 ++ [y]).

(** A token the loop over the document can add for the analyzer token [t]:
    the pause marker of a punctuation token, or the upper-cased lemma of a
    token that passed the filters that come before the part-of-speech
    test. *)
Definition emitted_by (stop_words : gset string) (t : stage2_nlp.Token)
    (x : string) : Prop :=
  let lemma := PyStr.strip (PyStr.lower (stage2_nlp.lemma_ t)) in
  stage2_nlp.is_space t = false
  ∧ (PyStr.lower (stage2_nlp.text t) ∉ stage2_nlp.BASE_STOP)
  ∧ ((stage2_nlp.is_punct t = true ∧ x = "|")
     ∨ (stage2_nlp.is_punct t = false
        ∧ lemma ≠ ""
        ∧ (lemma ∉ stage2_nlp.SPACY_STOP stop_words)
        ∧ x = PyStr.upper lemma)).

(** A list to which the cleaning loop appends a pause marker. *)
Definition open_for_pause (cleaned : list string) : Prop :=
  cleaned ≠ [] ∧ last cleaned ≠ Some "|".

(** A transcript segment the gloss stage can read: its text, if any, is a
    string, and when that text is not blank the segment has an id, a start
    and an end. *)
Definition transcript_ok (seg : gmap string pyval) : bool :=
  emotion_spec.text_ok seg
  && (bool_decide (emotion_spec.segment_text seg = "")
      || (bool_decide (is_Some (seg !! "id"))
          && bool_decide (is_Some (seg !! "start"))
          && bool_decide (is_Some (seg !! "end")))).

Definition nonblank (seg : gmap string pyval) : Prop :=
  emotion_spec.segment_text seg ≠ "".

#[global] Instance nonblank_dec (seg : gmap string pyval) :
  Decision (nonblank seg).
Proof. unfold nonblank. apply _. Defined.

(** The segment the gloss stage makes of a transcript segment. *)
Definition glossed (tokens_of : string → list string)
    (seg : gmap string pyval) : gmap string pyval :=
  {[ "id" := dict_get seg "id" PNone;
     "start" := dict_get seg "start" PNone;
     "end" := dict_get seg "end" PNone;
     "text" := dict_get seg "text" PNone;
     "gloss" := PList (PStr <$> tokens_of (emotion_spec.segment_text seg)) ]}.

(** The character a fingerspelling descriptor shows. *)
Definition asset_char (a : stage3_map.asset) : string :=
  match a with
  | stage3_map.Fingerspell _ char => char
  | _ => ""
  end.

Definition asset_label (a : stage3_map.asset) : string :=
  match a with
  | stage3_map.Fingerspell label _ => label
  | stage3_map.Image _ label => label
  | stage3_map.Text label => label
  | stage3_map.Pause _ => ""
  end.

Fixpoint concat_strings (l : list string) : string :=
  match l with
  | [] => ""
  | x :: l' => x +:+ concat_strings l'
  end.

Definition is_letter (c : ascii) : bool :=
  PyStr.is_upper_char c || PyStr.is_lower_char c.

(** [old] occurs somewhere in [s]. *)
Fixpoint occurs (old s : string) : bool :=
  PyMore.startswith s old
  || match s with
     | EmptyString => false
     | String _ s' => occurs old s'
     end.

(** The file extensions [load_sign_dict] takes for media. *)
Definition media_suffixes : list string := [".jpg"; ".png"; ".mp4"; ".gif"].

(** An entry of the index that comes from the dataset: the key is the
    upper-cased name of a folder of the dataset root [d], and the path is
    that of a file of this folder with a media extension. *)
Definition indexed_from (w : world) (dataset_path : string) (d : directory)
    (k p : string) : Prop :=
  ∃ folder sub file,
    entries d !! folder = Some Dir
    ∧ k = PyStr.upper folder
    ∧ w !! path_join dataset_path folder = Some (IsDir sub)
    ∧ is_Some (entries sub !! file)
    ∧ PyStr.lower (stage3_map.suffix file) ∈ media_suffixes
    ∧ p = path_join (path_join dataset_path folder) file.

(** What follows a video id in a URL: nothing, or a character the id
    cannot hold. *)
Definition ends_id (rest : string) : Prop :=
  rest = "" ∨ ∃ c rest', rest = String c rest' ∧ app.is_id_char c = false.

(** Disk-touching code that leaves the file [q] as it is, whatever it
    returns or raises. *)
Definition preserves {A : Type} (q : path) (m : io A) : Prop :=
  ∀ w, Disk.lookup_file (m w).2 q = Disk.lookup_file w q.

(** A text that can stand in a file name as it is: it holds no path separator
    and no NUL character, so that a name made with it names one entry of the
    directory. *)
Definition plain (s : string) : bool :=
  PyStr.all_chars
    (λ c, negb (bool_decide (c = "/"%char) || bool_decide (c = "000"%char))) s.

(** A name short enough for a directory entry. *)
Definition fits (n : string) : bool := String.length n <=? Disk.NAME_MAX.

(** A segment whose text, when it is a string, is ASCII: on such a text
    [PyStr.strip] removes what [str.strip] removes. *)
Definition ascii_text (seg : gmap string pyval) : bool :=
  match seg !! "text" with
  | Some (PStr text) => PyMore.is_ascii text
  | _ => true
  end.

(** A character [safe_stem] leaves alone. *)
Definition is_safe_char (c : ascii) : bool :=
  PyMore.isalnum_char c || bool_decide (c = "-"%char)
  || bool_decide (c = "_"%char).

(** What [open(_, "w")] finds at the entry [n] of directory [d]: [Some r]
    when the open succeeds, [r] telling whether the file can be read back
    (a file made by the open can). *)
Definition writable_entry (d : directory) (n : string) : option bool :=
  match entries d !! n with
  | None => if dir_writable d then Some true else None
  | Some (File r true _) => Some r
  | Some _ => None
  end.


(** A file that [open(_, "w")] can open in world [w]: its directory is
    there, and the file is either missing from a writable directory or a
    readable and writable regular file. *)
Definition writable_spot (w : world) (p : path) : bool :=
  match w !! parent p with
  | Some (IsDir d) =>
      match entries d !! name p with
      | None => dir_writable d
      | Some (File true true _) => true
      | Some _ => false
      end
  | _ => false
  end.

End more_spec.

(** ** More sample inputs *)

Module samples_more.

(** A dataset with one sign folder, holding a text file and an image, and a
    stray file next to it. *)
Definition dataset_world : world :=
  {[ "/app/datasets/data" :=
       IsDir {| entries := {[ "love" := Dir;
                              "readme.txt" := File true true "" ]};
                dir_writable := true |};
     "/app/datasets/data/love" :=
       IsDir {| entries := {[ "notes.txt" := File true true "";
                              "sign.PNG" := File true true "" ]};
                dir_writable := true |} ]}.

(** A transcript of three segments, the second one blank and without id. *)
Definition transcript : list (gmap string pyval) :=
  [ {[ "id" := PInt 0; "start" := PFloat 0; "end" := PFloat 1;
       "text" := PStr " Stop! Never stop. " ]};
    {[ "text" := PStr "  " ]};
    {[ "id" := PInt 2; "start" := PFloat 2; "end" := PFloat 3;
       "text" := PStr "Stop! Never stop." ]} ].

(** A serializer and a parser that agree on one payload. *)
Definition payload : pyval := PDict {[ "wav_path" := PStr "/app/output/a.wav" ]}.

Definition json_dump (ensure_ascii : bool) (data : pyval)
  : string * option exn :=
  ("{wav_path: /app/output/a.wav}", None).

Definition json_load (content : string) : result pyval :=
  if bool_decide (content = "{wav_path: /app/output/a.wav}")
  then Ok payload else Raise JSONDecodeError.

(** The transcript as the transcription stage returns it. *)
Definition transcript_json : pyval :=
  PDict {[ "segments" := PList (PDict <$> transcript) ]}.

(** A cache directory in which the gloss and the timeline of one video are
    cached. *)
Definition warm_cache_world : world :=
  {[ "/app/cache" :=
       IsDir {| entries :=
                  {[ "video_abc_stage_gloss.json" :=
                       File true true "{wav_path: /app/output/a.wav}";
                     "video_abc_stage_timeline.json" :=
                       File true false "{wav_path: /app/output/a.wav}" ]};
                dir_writable := true |} ]}.

(** The dataset next to a cache directory that holds the timeline of one
    video and nothing else. *)
Definition stale_cache_world : world :=
  <["/app/cache" :=
      IsDir {| entries :=
                 {[ "video_abc_stage_timeline.json" :=
                      File true false "{wav_path: /app/output/a.wav}" ]};
               dir_writable := true |}]> dataset_world.

(** A serializer and a parser that agree on an empty gloss document and on
    an empty timeline. *)
Definition documents_dump (ensure_ascii : bool) (data : pyval)
  : string * option exn :=
  match data with
  | PDict d =>
      if bool_decide (is_Some (d !! "timeline"))
      then ("{timeline: []}", None)
      else ("{segments: []}", None)
  | _ => ("null", None)
  end.

Definition documents_load (content : string) : result pyval :=
  if bool_decide (content = "{timeline: []}")
  then Ok (PDict {[ "timeline" := PList [] ]})
  else if bool_decide (content = "{segments: []}")
       then Ok (PDict {[ "segments" := PList [] ]})
       else Raise JSONDecodeError.

(** A video id of 300 characters. *)
Definition long_id : string := string_of_list_ascii (replicate 300 "a"%char).

(** A serializer that takes a document with segments and raises on every
    other payload. *)
Definition segments_dump (ensure_ascii : bool) (data : pyval)
  : string * option exn :=
  match data with
  | PDict d =>
      if bool_decide (is_Some (d !! "segments"))
      then ("{segments: []}", None)
      else ("", Some TypeError)
  | _ => ("", Some TypeError)
  end.

End samples_more.

(** * Properties *)

(** Names the outcome of a run of disk-touching code and splits what is
    said about it. *)
Ltac absorbed :=
  eexists _, _; split; [reflexivity|];
  repeat (split || intro); cbn [fst snd] in *; try congruence.

(** ** Folds and strings *)

Lemma foldl_invariant {A B : Type} (P : A → Prop) (f : A → B → A) (l : list B) :
  (∀ a b, P a → P (f a b)) → ∀ a, P a → P (foldl f a l).
Proof.
  intros Hstep. induction l as [|b l IH]; intros a Ha; simpl; auto.
Qed.

Lemma upper_char_not_bar (c : ascii) :
  PyStr.upper_char c = "|"%char → c = "|"%char.
Proof.
  destruct c as [[] [] [] [] [] [] [] []]; vm_compute; congruence.
Qed.

Lemma upper_eq_bar (s : string) : PyStr.upper s = "|" ↔ s = "|".
Proof.
  split; [|intros ->; reflexivity].
  destruct s as [|c [|c' s]]; simpl; try discriminate.
  intros [= H]. by rewrite (upper_char_not_bar c H).
Qed.

(** ** Disk-touching code *)

Lemma io_bind_ok {A B : Type} (m : io A) (k : A → io B) w a w' :
  m w = (Ok a, w') → (m ≫= k) w = k a w'.
Proof. intros H. unfold mbind, io_bind. by rewrite H. Qed.

Lemma io_bind_raise {A B : Type} (m : io A) (k : A → io B) w e w' :
  m w = (Raise e, w') → (m ≫= k) w = (Raise e, w').
Proof. intros H. unfold mbind, io_bind. by rewrite H. Qed.

Lemma io_bind_lift {A B : Type} (a : A) (k : A → io B) w :
  (lift (Ok a) ≫= k) w = k a w.
Proof. reflexivity. Qed.

Lemma io_result_split {A : Type} (m : io A) w r :
  (m w).1 = r → m w = (r, (m w).2).
Proof. intros <-. by destruct (m w). Qed.

(** ** The gloss reducer *)

Section gloss_reducer.

Import stage2_nlp gloss_spec.

Variable _NLP : string → list Token.
Variable stop_words : gset string.

Abbreviation gloss_step := (gloss_step stop_words).
Abbreviation SPACY_STOP := (SPACY_STOP stop_words).

Lemma negations_not_SPACY_STOP (lemma : string) :
  lemma ∈ ({[ "no"; "not"; "never" ]} : gset string) → lemma ∉ SPACY_STOP.
Proof. unfold stage2_nlp.SPACY_STOP. simpl. set_solver. Qed.

Lemma SPACY_STOP_subseteq : SPACY_STOP ⊆ stop_words.
Proof. unfold stage2_nlp.SPACY_STOP. simpl. set_solver. Qed.

(** A sentence-ending punctuation token appends a pause marker. *)
Lemma gloss_step_pause keep toks (t : Token) :
  is_space t = false →
  PyStr.lower (text t) ∉ BASE_STOP →
  is_punct t = true →
  text t ∈ ({[ "."; "!"; "?"; ";" ]} : gset string) →
  gloss_step keep toks t = toks ++ ["|"].
Proof.
  intros Hsp Hbase Hpu Hin. unfold stage2_nlp.gloss_step.
  rewrite Hsp, Hpu. rewrite (bool_decide_eq_false_2 _ Hbase).
  by rewrite (bool_decide_eq_true_2 _ Hin).
Qed.

(** A word that survives the filters and carries a content tag appends its
    upper-case lemma. *)
Lemma gloss_step_content keep toks (t : Token) :
  let lemma := PyStr.strip (PyStr.lower (lemma_ t)) in
  is_space t = false →
  PyStr.lower (text t) ∉ BASE_STOP →
  is_punct t = false →
  lemma ≠ "" →
  lemma ∉ SPACY_STOP →
  pos_ t ∈ ({[ "PROPN"; "NOUN"; "VERB"; "ADJ"; "ADV"; "AUX"; "PRON" ]}
              : gset string) →
  gloss_step keep toks t = toks ++ [PyStr.upper lemma].
Proof.
  intros lemma Hsp Hbase Hpu Hne Hstop Hpos. unfold stage2_nlp.gloss_step.
  rewrite Hsp, Hpu. rewrite (bool_decide_eq_false_2 _ Hbase).
  fold lemma.
  rewrite (bool_decide_eq_false_2 _ Hne), (bool_decide_eq_false_2 _ Hstop).
  rewrite (bool_decide_eq_true_2 _ Hpos).
  by repeat case_match.
Qed.

(** A negation word appends its upper-case lemma when negations are kept. *)
Lemma gloss_step_negation toks (t : Token) :
  let lemma := PyStr.strip (PyStr.lower (lemma_ t)) in
  is_space t = false →
  PyStr.lower (text t) ∉ BASE_STOP →
  is_punct t = false →
  lemma ∈ ({[ "no"; "not"; "never" ]} : gset string) →
  gloss_step true toks t = toks ++ [PyStr.upper lemma].
Proof.
  intros lemma Hsp Hbase Hpu Hneg. unfold stage2_nlp.gloss_step.
  rewrite Hsp, Hpu. rewrite (bool_decide_eq_false_2 _ Hbase).
  fold lemma.
  rewrite (bool_decide_eq_false_2 _ (negations_not_SPACY_STOP _ Hneg)).
  rewrite (bool_decide_eq_true_2 _ Hneg).
  assert (lemma = "no" ∨ lemma = "not" ∨ lemma = "never") as Hcases
    by set_solver.
  by destruct Hcases as [-> | [-> | ->]].
Qed.

(** The loop over the document only ever appends. *)
Lemma gloss_step_extends keep toks (t : Token) :
  ∃ more, gloss_step keep toks t = toks ++ more.
Proof.
  unfold stage2_nlp.gloss_step.
  repeat case_match; first [by exists [] ; rewrite app_nil_r | by eexists].
Qed.

Lemma gloss_loop_keeps keep (doc : list Token) (x : string) :
  ∀ toks, x ∈ toks → x ∈ foldl (gloss_step keep) toks doc.
Proof.
  apply foldl_invariant. intros toks t Hin.
  destruct (gloss_step_extends keep toks t) as [more ->]. set_solver.
Qed.

Lemma gloss_loop_emits keep (doc : list Token) (t : Token) (x : string) :
  t ∈ doc →
  (∀ toks, gloss_step keep toks t = toks ++ [x]) →
  ∀ toks, x ∈ foldl (gloss_step keep) toks doc.
Proof.
  intros Hin Hstep. induction doc as [|t' doc IH]; intros toks.
  - by apply elem_of_nil in Hin.
  - apply elem_of_cons in Hin as [<- | Hin]; simpl.
    + apply gloss_loop_keeps. rewrite Hstep. set_solver.
    + by apply IH.
Qed.

(** The cleaning loop keeps every token that is not a pause marker. *)
Lemma clean_step_keeps cleaned tok (x : string) :
  x ∈ cleaned → x ∈ clean_step cleaned tok.
Proof. unfold clean_step. case_match; set_solver. Qed.

Lemma clean_loop_keeps (toks : list string) (x : string) :
  ∀ cleaned, x ∈ cleaned → x ∈ foldl clean_step cleaned toks.
Proof. apply foldl_invariant. intros. by apply clean_step_keeps. Qed.

Lemma clean_loop_keeps_words (toks : list string) (x : string) :
  x ≠ "|" → x ∈ toks → ∀ cleaned, x ∈ foldl clean_step cleaned toks.
Proof.
  intros Hx Hin. induction toks as [|tok toks IH]; intros cleaned.
  - by apply elem_of_nil in Hin.
  - apply elem_of_cons in Hin as [<- | Hin]; simpl; [|by apply IH].
    apply clean_loop_keeps. unfold clean_step.
    rewrite (bool_decide_eq_false_2 _ Hx). simpl. set_solver.
Qed.

Lemma pauses_clean_nil : pauses_clean [].
Proof. split; [done|]. intros i Hi. by rewrite lookup_nil in Hi. Qed.

Lemma clean_step_pauses_clean cleaned tok :
  pauses_clean cleaned → pauses_clean (clean_step cleaned tok).
Proof.
  intros [Hhead Hadj]. unfold clean_step.
  destruct (bool_decide (tok = "|")) eqn:Htok; simpl.
  - apply bool_decide_eq_true_1 in Htok as ->.
    destruct (bool_decide (cleaned = [])) eqn:Hnil; simpl; [by split|].
    destruct (bool_decide (last cleaned = Some "|")) eqn:Hlast; [by split|].
    apply bool_decide_eq_false_1 in Hnil, Hlast.
    split.
    + destruct cleaned; [done|]. exact Hhead.
    + intros i Hi Hsi.
      destruct (decide (S i < length cleaned)) as [Hlt|Hge].
      * rewrite lookup_app_l in Hi by lia. rewrite lookup_app_l in Hsi by lia.
        by apply (Hadj i).
      * apply lookup_lt_Some in Hsi as Hlen. rewrite length_app in Hlen.
        simpl in Hlen. assert (S i = length cleaned) as Heq by lia.
        rewrite lookup_app_l in Hi by lia. apply Hlast.
        rewrite last_lookup, <- Hi. f_equal. lia.
  - apply bool_decide_eq_false_1 in Htok. split.
    + destruct cleaned; [simpl; congruence|exact Hhead].
    + intros i Hi Hsi.
      destruct (decide (S i < length cleaned)) as [Hlt|Hge].
      * rewrite lookup_app_l in Hi by lia. rewrite lookup_app_l in Hsi by lia.
        by apply (Hadj i).
      * apply lookup_lt_Some in Hsi as Hlen. rewrite length_app in Hlen.
        simpl in Hlen. assert (S i = length cleaned) as Heq by lia.
        rewrite Heq in Hsi. rewrite list_lookup_middle in Hsi by done.
        congruence.
Qed.

(** C4: for every text and flag, the tokens [text_to_gloss_tokens] returns
    never begin with a pause marker and never hold two pause markers next to
    each other. *)
Theorem gloss_tokens_pauses_clean (text : string) (keep_negation : bool) :
  let out := text_to_gloss_tokens _NLP stop_words text keep_negation in
  head out ≠ Some "|" ∧ ∀ i, out !! i = Some "|" → out !! S i ≠ Some "|".
Proof.
  unfold text_to_gloss_tokens.
  apply (foldl_invariant pauses_clean); [|exact pauses_clean_nil].
  intros cleaned tok. apply clean_step_pauses_clean.
Qed.

(** C5: with [keep_negation] set, a word token of the document whose lemma,
    lower-cased and stripped, is "no", "not" or "never" puts the upper-case
    form of that lemma in the output, whatever the stop-word table says. *)
Theorem negation_words_retained (text : string) (t : Token) :
  let lemma := PyStr.strip (PyStr.lower (lemma_ t)) in
  t ∈ _NLP text →
  is_space t = false →
  is_punct t = false →
  PyStr.lower (stage2_nlp.text t) ∉ BASE_STOP →
  lemma ∈ ({[ "no"; "not"; "never" ]} : gset string) →
  PyStr.upper lemma ∈ text_to_gloss_tokens _NLP stop_words text true
  ∧ PyStr.upper lemma ∈ ({[ "NO"; "NOT"; "NEVER" ]} : gset string).
Proof.
  intros lemma Hin Hsp Hpu Hbase Hneg.
  assert (lemma = "no" ∨ lemma = "not" ∨ lemma = "never") as Hcases
    by set_solver.
  split.
  - unfold text_to_gloss_tokens. apply clean_loop_keeps_words.
    + by destruct Hcases as [-> | [-> | ->]].
    + apply (gloss_loop_emits true _ t); [done|].
      intros toks. by apply gloss_step_negation.
  - destruct Hcases as [-> | [-> | ->]]; set_solver.
Qed.

(** C1 (amended): when the analyzer splits "Stop! Never stop." into the
    verb, "!", the adverb "never", the verb and ".", and "stop" is not a
    stop word, the tokens for that text with [keep_negation] set are
    STOP, pause, NEVER, STOP, pause: one pause marker between the two
    sentences and one more for the final full stop. *)
Theorem stop_never_stop_tokens :
  _NLP "Stop! Never stop." = samples.stop_never_stop →
  "stop" ∉ stop_words →
  text_to_gloss_tokens _NLP stop_words "Stop! Never stop." true
  = ["STOP"; "|"; "NEVER"; "STOP"; "|"].
Proof.
  intros Hdoc Hstop. unfold text_to_gloss_tokens. rewrite Hdoc.
  assert ("stop" ∉ SPACY_STOP) as Hstop'.
  { intros Hin. by apply Hstop, SPACY_STOP_subseteq. }
  unfold samples.stop_never_stop. cbn [foldl].
  rewrite (gloss_step_content true [] (samples.word "Stop" "stop" "VERB"));
    [|done|by vm_compute|done|done|exact Hstop'|set_solver].
  rewrite (gloss_step_pause true _ (samples.punct "!"));
    [|done|by vm_compute|done|set_solver].
  rewrite (gloss_step_negation _ (samples.word "Never" "never" "ADV"));
    [|done|by vm_compute|done|set_solver].
  rewrite (gloss_step_content true _ (samples.word "stop" "stop" "VERB"));
    [|done|by vm_compute|done|done|exact Hstop'|set_solver].
  rewrite (gloss_step_pause true _ (samples.punct "."));
    [|done|by vm_compute|done|set_solver].
  reflexivity.
Qed.

End gloss_reducer.

Lemma negation_words_retained_witness :
  "NEVER" ∈ stage2_nlp.text_to_gloss_tokens samples.nlp samples.stop_words
              "Stop! Never stop." true
  ∧ "NEVER" ∈ ({[ "NO"; "NOT"; "NEVER" ]} : gset string).
Proof.
  apply (negation_words_retained samples.nlp samples.stop_words
           "Stop! Never stop." (samples.word "Never" "never" "ADV")).
  - vm_compute. do 2 apply list_elem_of_further. apply list_elem_of_here.
  - reflexivity.
  - reflexivity.
  - apply (bool_decide_unpack _). vm_compute. exact I.
  - apply (bool_decide_unpack _). vm_compute. exact I.
Defined.

Lemma stop_never_stop_tokens_witness :
  stage2_nlp.text_to_gloss_tokens samples.nlp samples.stop_words
    "Stop! Never stop." true
  = ["STOP"; "|"; "NEVER"; "STOP"; "|"].
Proof.
  apply stop_never_stop_tokens.
  - reflexivity.
  - apply (bool_decide_unpack _). vm_compute. exact I.
Defined.

(** C1 as stated fails: the sequence holds two pause markers and ends with
    one. *)
Lemma stop_never_stop_trailing_pause :
  let out := stage2_nlp.text_to_gloss_tokens samples.nlp samples.stop_words
               "Stop! Never stop." true in
  ¬ ("NEVER" ∈ out
     ∧ length (filter (λ tok, tok = "|") out) = 1
     ∧ last out ≠ Some "|").
Proof.
  intros out (_ & _ & Hlast). apply Hlast. reflexivity.
Qed.

(** ** The asset resolver *)

Section asset_resolver.

Import stage3_map resolver_spec.

Variable path_str : string → string.

Abbreviation token_to_assets := (token_to_assets path_str).

(** [ALPHABET] holds exactly the upper-case Latin letters. *)
Lemma spell_step_char (assets : list asset) (c : ascii) :
  spell_step assets (String c "")
  = Ok (if PyStr.is_upper_char c
        then assets ++ [Fingerspell ("FINGERSPELL_" +:+ String c "") (String c "")]
        else assets).
Proof.
  unfold spell_step.
  destruct c as [[] [] [] [] [] [] [] []]; vm_compute; reflexivity.
Qed.

Lemma spell_loop (token : string) :
  ∀ assets,
    for_each spell_step (PyStr.chars token) assets
    = Ok (assets ++ fingerspell token).
Proof.
  induction token as [|c rest IH]; intros assets;
    cbn [PyStr.chars for_each fingerspell].
  - by rewrite app_nil_r.
  - rewrite spell_step_char. cbn [mbind result_bind]. rewrite IH.
    destruct (PyStr.is_upper_char c); [|done].
    by rewrite <- app_assoc.
Qed.

Lemma fingerspell_only (token : string) :
  Forall (λ a, is_fingerspell a = true) (fingerspell token).
Proof.
  induction token as [|c rest IH]; simpl; [constructor|].
  destruct (PyStr.is_upper_char c); [by constructor|done].
Qed.

Lemma filter_fingerspell (token : string) :
  List.filter is_fingerspell (fingerspell token) = fingerspell token.
Proof.
  induction token as [|c rest IH]; simpl; [done|].
  destruct (PyStr.is_upper_char c); simpl; by rewrite ?IH.
Qed.

(** The function, branch by branch. *)
Lemma token_to_assets_pause (mapping : gmap string string) :
  token_to_assets "|" mapping = Ok [Pause (2 # 5)].
Proof. reflexivity. Qed.

Lemma token_to_assets_indexed token (mapping : gmap string string) p :
  token ≠ "|" →
  mapping !! PyStr.upper token = Some p →
  token_to_assets token mapping = Ok [Image (path_str p) (PyStr.upper token)].
Proof.
  intros Hne Hp. unfold stage3_map.token_to_assets.
  rewrite bool_decide_eq_false_2 by (by rewrite upper_eq_bar).
  unfold contains, getitem. rewrite Hp.
  by rewrite bool_decide_eq_true_2 by eauto.
Qed.

Lemma token_to_assets_unindexed token (mapping : gmap string string) :
  token ≠ "|" →
  mapping !! PyStr.upper token = None →
  token_to_assets token mapping
  = Ok (match fingerspell (PyStr.upper token) with
        | [] => [Text (PyStr.upper token)]
        | spelled => spelled
        end).
Proof.
  intros Hne Hp. unfold stage3_map.token_to_assets.
  rewrite bool_decide_eq_false_2 by (by rewrite upper_eq_bar).
  unfold contains. rewrite Hp.
  rewrite bool_decide_eq_false_2 by (by intros [? ?]).
  rewrite spell_loop. cbn [mbind result_bind app].
  by destruct (fingerspell (PyStr.upper token)).
Qed.

Lemma token_to_assets_resolve token (mapping : gmap string string) :
  token_to_assets token mapping = Ok (resolve path_str token mapping).
Proof.
  unfold resolve. case_bool_decide as Hbar.
  - subst. apply token_to_assets_pause.
  - destruct (mapping !! PyStr.upper token) as [p|] eqn:Hp.
    + by apply token_to_assets_indexed.
    + by apply token_to_assets_unindexed.
Qed.

Lemma resolve_nonempty token (index : gmap string string) :
  resolve path_str token index ≠ [].
Proof.
  unfold resolve. repeat case_match; congruence.
Qed.

(** C2: [token_to_assets] follows the first-match-wins policy: the pause
    marker gives one [Pause] of 0.4; otherwise an upper-cased token found in
    the index gives one [Image] with the indexed path (as pathlib writes it)
    and the upper-cased token as label; otherwise the [Fingerspell]
    descriptors of the result are those of the upper-case Latin letters of
    the upper-cased token, in order, and they are the whole result as soon
    as there is one. *)
Theorem token_to_assets_policy token (mapping : gmap string string) :
  (token = "|" → token_to_assets token mapping = Ok [Pause (2 # 5)])
  ∧ (token ≠ "|" →
     ∀ p, mapping !! PyStr.upper token = Some p →
       token_to_assets token mapping
       = Ok [Image (path_str p) (PyStr.upper token)]
       ∧ (path_str p = p →
          token_to_assets token mapping = Ok [Image p (PyStr.upper token)]))
  ∧ (token ≠ "|" →
     mapping !! PyStr.upper token = None →
     ∃ assets,
       token_to_assets token mapping = Ok assets
       ∧ List.filter is_fingerspell assets = fingerspell (PyStr.upper token)
       ∧ (fingerspell (PyStr.upper token) ≠ [] →
          assets = fingerspell (PyStr.upper token))).
Proof.
  split; [|split].
  - intros ->. apply token_to_assets_pause.
  - intros Hne p Hp.
    pose proof (token_to_assets_indexed token mapping p Hne Hp) as Himg.
    split; [exact Himg|]. intros Hrender. by rewrite Hrender in Himg.
  - intros Hne Hnone. eexists. split.
    + by apply token_to_assets_unindexed.
    + pose proof (filter_fingerspell (PyStr.upper token)) as Hfilter.
      destruct (fingerspell (PyStr.upper token)) as [|a spelled]; [done|].
      by split.
Qed.

(** C3: [token_to_assets] raises for no token and never returns an empty
    list; a token that is not the pause marker, is not in the index and has
    no upper-case Latin letter once upper-cased gives exactly one [Text]
    descriptor labelled with the upper-cased token. *)
Theorem token_to_assets_never_empty token (mapping : gmap string string) :
  ∃ assets,
    token_to_assets token mapping = Ok assets
    ∧ assets ≠ []
    ∧ (token ≠ "|" →
       mapping !! PyStr.upper token = None →
       fingerspell (PyStr.upper token) = [] →
       assets = [Text (PyStr.upper token)]).
Proof.
  exists (resolve path_str token mapping). split; [|split].
  - apply token_to_assets_resolve.
  - apply resolve_nonempty.
  - intros Hne Hnone Hspell. unfold resolve.
    rewrite bool_decide_eq_false_2 by done. by rewrite Hnone, Hspell.
Qed.

End asset_resolver.

(** The scenarios of the specification. *)
Example resolve_love :
  stage3_map.token_to_assets samples.posix_str "LOVE"
    {[ "LOVE" := "/data/love.png" ]}
  = Ok [stage3_map.Image "/data/love.png" "LOVE"].
Proof. by vm_compute. Qed.

Example resolve_xy9 :
  stage3_map.token_to_assets samples.posix_str "XY9" ∅
  = Ok [stage3_map.Fingerspell "FINGERSPELL_X" "X";
        stage3_map.Fingerspell "FINGERSPELL_Y" "Y"].
Proof. by vm_compute. Qed.

Example resolve_nine :
  stage3_map.token_to_assets samples.posix_str "9" ∅
  = Ok [stage3_map.Text "9"].
Proof. by vm_compute. Qed.

Example resolve_empty_token :
  stage3_map.token_to_assets samples.posix_str "" ∅
  = Ok [stage3_map.Text ""].
Proof. by vm_compute. Qed.

(** ** The timeline builder *)

Section timeline_builder.

Import stage3_map resolver_spec.

Variable path_str : string → string.

Lemma strings_of_all_str (vs : list pyval) :
  forallb is_str vs = true → vs = PStr <$> strings_of vs.
Proof.
  induction vs as [|v vs IH]; [done|]. cbn [forallb].
  intros [Hv Hvs]%andb_true_iff. destruct v; try discriminate.
  unfold strings_of. cbn [omap list_omap fmap list_fmap].
  f_equal. by apply IH.
Qed.

Lemma items_step_str (mapping : gmap string string) seg_items (tok : string) :
  items_step path_str mapping seg_items (PStr tok)
  = Ok (seg_items ++ resolve path_str tok mapping).
Proof.
  unfold items_step. cbn [as_str mbind result_bind].
  by rewrite token_to_assets_resolve.
Qed.

Lemma items_loop (mapping : gmap string string) (toks : list string) :
  ∀ seg_items,
    for_each (items_step path_str mapping) (PStr <$> toks) seg_items
    = Ok (seg_items
          ++ concat ((λ tok, resolve path_str tok mapping) <$> toks)).
Proof.
  induction toks as [|tok toks IH]; intros seg_items;
    cbn [fmap list_fmap for_each concat].
  - by rewrite app_nil_r.
  - rewrite items_step_str. cbn [mbind result_bind].
    rewrite IH. by rewrite <- app_assoc.
Qed.

Lemma timeline_step_ok (mapping : gmap string string) timeline seg :
  segment_ok seg = true →
  timeline_step path_str mapping timeline (PDict seg)
  = Ok (timeline ++ [entry_of path_str mapping seg]).
Proof.
  unfold segment_ok. intros [[Hid Htext]%andb_true_iff Hgloss]%andb_true_iff.
  apply bool_decide_eq_true_1 in Hid as [id Hid].
  destruct (seg !! "text") as [[| | | |text| |]|] eqn:Htext'; try discriminate.
  unfold timeline_step, entry_of, gloss_of.
  cbn [as_dict mbind result_bind].
  destruct (dict_get seg "gloss" (PList [])) as [| | | | |toks|] eqn:Hg;
    try discriminate.
  cbn [iterate mbind result_bind].
  rewrite (strings_of_all_str toks Hgloss) at 1.
  rewrite items_loop. cbn [mbind result_bind app].
  unfold getitem. rewrite Hid, Htext'. reflexivity.
Qed.

Lemma timeline_loop (mapping : gmap string string) (segs : list (gmap string pyval)) :
  forallb segment_ok segs = true →
  ∀ timeline,
    for_each (timeline_step path_str mapping) (PDict <$> segs) timeline
    = Ok (timeline ++ (entry_of path_str mapping <$> segs)).
Proof.
  induction segs as [|seg segs IH]; intros Hok timeline;
    cbn [fmap list_fmap for_each].
  - by rewrite app_nil_r.
  - cbn [forallb] in Hok. apply andb_true_iff in Hok as [Hseg Hsegs].
    rewrite timeline_step_ok by done. cbn [mbind result_bind].
    rewrite IH by done. by rewrite <- app_assoc.
Qed.

Lemma build_sign_timeline_ok w dataset_path (gloss_json : gmap string pyval)
    (segs : list (gmap string pyval)) (mapping : gmap string string) :
  load_sign_dict w dataset_path = Ok mapping →
  dict_get gloss_json "segments" (PList []) = PList (PDict <$> segs) →
  forallb segment_ok segs = true →
  build_sign_timeline path_str w dataset_path gloss_json
  = Ok {| timeline := entry_of path_str mapping <$> segs |}.
Proof.
  intros Hload Hsegs Hok. unfold build_sign_timeline.
  rewrite Hload, Hsegs. cbn [iterate mbind result_bind].
  by rewrite timeline_loop.
Qed.

Lemma load_sign_dict_missing w dataset_path :
  w !! dataset_path = None → load_sign_dict w dataset_path = Ok ∅.
Proof.
  intros Hnone. unfold load_sign_dict, Disk.dir_exists. rewrite Hnone.
  by rewrite bool_decide_eq_false_2 by (by intros [? ?]).
Qed.

(** C6: on well-formed segments and with the index loaded,
    [build_sign_timeline] returns one entry per segment, in the order of the
    segments; each entry carries the segment's id, start, end, text, gloss
    and emotion as they are, and an empty gloss list gives an entry with no
    items. *)
Theorem build_sign_timeline_entries w dataset_path
    (gloss_json : gmap string pyval) (segs : list (gmap string pyval))
    (mapping : gmap string string) :
  load_sign_dict w dataset_path = Ok mapping →
  dict_get gloss_json "segments" (PList []) = PList (PDict <$> segs) →
  forallb segment_ok segs = true →
  ∃ entries,
    build_sign_timeline path_str w dataset_path gloss_json
    = Ok {| timeline := entries |}
    ∧ length entries = length segs
    ∧ ∀ i seg, segs !! i = Some seg →
        ∃ e, entries !! i = Some e
          ∧ e_id e = dict_get seg "id" PNone
          ∧ e_start e = dict_get seg "start" PNone
          ∧ e_end e = dict_get seg "end" PNone
          ∧ e_text e = dict_get seg "text" PNone
          ∧ e_gloss e = dict_get seg "gloss" PNone
          ∧ e_emotion e = dict_get seg "emotion" (PDict ∅)
          ∧ e_items e
            = concat ((λ tok, resolve path_str tok mapping) <$> gloss_of seg)
          ∧ (seg !! "gloss" = Some (PList []) → e_items e = []).
Proof.
  intros Hload Hsegs Hok.
  exists (entry_of path_str mapping <$> segs). split; [|split].
  - by apply build_sign_timeline_ok.
  - by rewrite length_fmap.
  - intros i seg Hi. exists (entry_of path_str mapping seg).
    rewrite list_lookup_fmap, Hi. repeat split.
    intros Hgloss. cbn [entry_of e_items]. unfold gloss_of, dict_get.
    by rewrite Hgloss.
Qed.

(** C8: when the dataset root does not exist, [load_sign_dict] returns the
    empty mapping; with it every token but the pause marker resolves to
    fingerspelling descriptors only or to the single text descriptor, and
    the timeline of well-formed segments is built, one entry per segment. *)
Theorem missing_dataset_falls_back w dataset_path :
  w !! dataset_path = None →
  load_sign_dict w dataset_path = Ok ∅
  ∧ (∀ token, token ≠ "|" →
       ∃ assets,
         token_to_assets path_str token ∅ = Ok assets
         ∧ (assets = [Text (PyStr.upper token)]
            ∨ (assets ≠ [] ∧ Forall (λ a, is_fingerspell a = true) assets)))
  ∧ (∀ (gloss_json : gmap string pyval) (segs : list (gmap string pyval)),
       dict_get gloss_json "segments" (PList []) = PList (PDict <$> segs) →
       forallb segment_ok segs = true →
       ∃ entries,
         build_sign_timeline path_str w dataset_path gloss_json
         = Ok {| timeline := entries |}
         ∧ length entries = length segs).
Proof.
  intros Hnone. pose proof (load_sign_dict_missing w dataset_path Hnone) as Hload.
  split; [exact Hload|]. split.
  - intros token Hne. eexists. split.
    + apply token_to_assets_unindexed; [done|apply lookup_empty].
    + pose proof (fingerspell_only (PyStr.upper token)) as Hall.
      destruct (fingerspell (PyStr.upper token)) as [|a spelled];
        [by left|by right].
  - intros gloss_json segs Hsegs Hok.
    exists (entry_of path_str ∅ <$> segs). split.
    + by apply build_sign_timeline_ok.
    + by rewrite length_fmap.
Qed.

End timeline_builder.

Lemma build_sign_timeline_entries_witness :
  stage3_map.load_sign_dict ∅ "/app/datasets/data" = Ok ∅
  ∧ ∃ entries,
      stage3_map.build_sign_timeline samples.posix_str ∅ "/app/datasets/data"
        samples.gloss_json
      = Ok {| stage3_map.timeline := entries |}
      ∧ length entries = 2
      ∧ ∃ e, entries !! 1 = Some e ∧ stage3_map.e_items e = [].
Proof.
  split; [reflexivity|].
  destruct (build_sign_timeline_entries samples.posix_str ∅
              "/app/datasets/data" samples.gloss_json
              [samples.first_segment; samples.second_segment] ∅)
    as (entries & Hbuild & Hlen & Hentries).
  - reflexivity.
  - vm_compute. reflexivity.
  - vm_compute. reflexivity.
  - exists entries. split; [exact Hbuild|]. split; [exact Hlen|].
    destruct (Hentries 1 samples.second_segment eq_refl)
      as (e & He & _ & _ & _ & _ & _ & _ & _ & Hempty).
    exists e. split; [exact He|]. apply Hempty. vm_compute. reflexivity.
Defined.

Lemma missing_dataset_falls_back_witness :
  (∅ : world) !! "/app/datasets/data" = None
  ∧ stage3_map.load_sign_dict ∅ "/app/datasets/data" = Ok ∅
  ∧ ∃ entries,
      stage3_map.build_sign_timeline samples.posix_str ∅ "/app/datasets/data"
        samples.gloss_json
      = Ok {| stage3_map.timeline := entries |}
      ∧ length entries = 2.
Proof.
  split; [apply lookup_empty|].
  destruct (missing_dataset_falls_back samples.posix_str ∅
              "/app/datasets/data" (lookup_empty _)) as (Hload & _ & Hbuild).
  split; [exact Hload|].
  apply (Hbuild samples.gloss_json
           [samples.first_segment; samples.second_segment]).
  - vm_compute. reflexivity.
  - vm_compute. reflexivity.
Defined.

(** ** The emotion annotator *)

Section emotion_annotator.

Import stage2_emotion emotion_spec.

Variable _EMO : string → result (list (list score_entry)).
Variable json_dump : bool → pyval → string * option exn.
Variable package_root : string.

Abbreviation annotate := (annotate _EMO).

Lemma annotate_ok out_segments (seg : gmap string pyval) :
  text_ok seg = true →
  (segment_text seg ≠ "" →
   ∃ scores rest, _EMO (segment_text seg) = Ok (scores :: rest)) →
  annotate out_segments (PDict seg)
  = Ok (out_segments ++ [PDict (<["emotion" := emotion_of _EMO seg]> seg)]).
Proof.
  unfold text_ok, stage2_emotion.annotate, emotion_of, segment_text, dict_get.
  intros Htext Hemo. cbn [as_dict mbind result_bind].
  destruct (seg !! "text") as [[| | | |text| |]|]; try discriminate;
    cbn [from_option id as_str mbind result_bind] in *.
  - case_bool_decide as Hblank; [done|].
    destruct (Hemo Hblank) as (scores & rest & ->). cbn [mbind result_bind].
    by destruct scores.
  - case_bool_decide as Hblank; [done|].
    destruct (Hemo Hblank) as (scores & rest & ->). cbn [mbind result_bind].
    by destruct scores.
Qed.

Lemma annotate_loop (segs : list (gmap string pyval)) :
  forallb text_ok segs = true →
  (∀ seg, seg ∈ segs → segment_text seg ≠ "" →
     ∃ scores rest, _EMO (segment_text seg) = Ok (scores :: rest)) →
  ∀ out_segments,
    for_each annotate (PDict <$> segs) out_segments
    = Ok (out_segments
          ++ ((λ seg, PDict (<["emotion" := emotion_of _EMO seg]> seg)) <$> segs)).
Proof.
  induction segs as [|seg segs IH]; intros Hok Hemo out_segments;
    cbn [fmap list_fmap for_each].
  - by rewrite app_nil_r.
  - cbn [forallb] in Hok. apply andb_true_iff in Hok as [Hseg Hsegs].
    rewrite annotate_ok; [|done|apply Hemo; constructor].
    cbn [mbind result_bind]. rewrite IH; [|done|].
    + by rewrite <- app_assoc.
    + intros seg' Hin. apply Hemo. by constructor.
Qed.


End emotion_annotator.


(** ** The disk model *)

Lemma set_file_parent (w : world) (p : path) (n : node) d :
  w !! parent p = Some (IsDir d) →
  Disk.set_file p n w !! parent p
  = Some (IsDir {| entries := <[name p := n]> (entries d);
                   dir_writable := dir_writable d |}).
Proof.
  intros Hd. unfold Disk.set_file. rewrite Hd. apply lookup_insert_eq.
Qed.

Lemma lookup_set_file_eq (w : world) (p : path) (n : node) d :
  w !! parent p = Some (IsDir d) →
  Disk.lookup_file (Disk.set_file p n w) p = Some n.
Proof.
  intros Hd. unfold Disk.lookup_file, Disk.set_file. rewrite Hd.
  rewrite lookup_insert_eq. cbn [entries]. by rewrite lookup_insert_eq.
Qed.

Lemma lookup_remove_file_eq (w : world) (p : path) :
  Disk.lookup_file (Disk.remove_file p w) p = None.
Proof.
  unfold Disk.lookup_file, Disk.remove_file.
  destruct (w !! parent p) as [[d|]|] eqn:Hd; rewrite ?Hd; try done.
  rewrite lookup_insert_eq. cbn [entries]. by rewrite lookup_delete_eq.
Qed.

Lemma lookup_remove_file_ne (w : world) (p q : path) :
  parent q ≠ parent p ∨ name q ≠ name p →
  Disk.lookup_file (Disk.remove_file p w) q = Disk.lookup_file w q.
Proof.
  intros Hne. unfold Disk.lookup_file, Disk.remove_file.
  destruct (w !! parent p) as [[d|]|] eqn:Hd; try done.
  destruct (decide (parent q = parent p)) as [Heq|Hpar].
  - rewrite Heq, lookup_insert_eq, Hd. cbn [entries].
    apply lookup_delete_ne. naive_solver.
  - by rewrite lookup_insert_ne.
Qed.

Lemma string_app_cons (c : ascii) (s t : string) :
  String c s +:+ t = String c (s +:+ t).
Proof. reflexivity. Qed.

Lemma string_app_assoc (s t u : string) : (s +:+ t) +:+ u = s +:+ (t +:+ u).
Proof.
  induction s as [|c s IH]; [reflexivity|].
  rewrite !string_app_cons. by f_equal.
Qed.

Lemma rev_app_app (s t : string) :
  String.rev_app s t = String.rev_app s "" +:+ t.
Proof.
  revert t. induction s as [|c s IH]; intros t; [reflexivity|].
  cbn [String.rev_app]. rewrite (IH (String c t)), (IH (String c "")).
  by rewrite string_app_assoc.
Qed.

Lemma rev_app_append (s t u : string) :
  String.rev_app (s +:+ t) u = String.rev_app t (String.rev_app s u).
Proof.
  revert u. induction s as [|c s IH]; intros u; [reflexivity|].
  rewrite string_app_cons. cbn [String.rev_app]. apply IH.
Qed.

Lemma endswith_rev_app (a b : string) : PyStr.endswith_rev a (a +:+ b) = true.
Proof.
  induction a as [|c a IH]; [reflexivity|].
  rewrite string_app_cons. cbn [PyStr.endswith_rev].
  by rewrite bool_decide_eq_true_2.
Qed.

Lemma endswith_app (s suffix : string) :
  PyStr.endswith (s +:+ suffix) suffix = true.
Proof.
  unfold PyStr.endswith, String.rev. rewrite rev_app_append.
  rewrite (rev_app_app suffix (String.rev_app s "")). apply endswith_rev_app.
Qed.

(** Unlinking, one after the other, regular files of a writable directory. *)
Lemma unlink_all (dir : string) (names : list string) :
  NoDup names →
  ∀ (w : world) d,
    w !! dir = Some (IsDir d) →
    dir_writable d = true →
    (∀ n, n ∈ names → ∃ r wr c, entries d !! n = Some (File r wr c)) →
    ∃ d',
      io_for_each Disk.unlink (path_in dir <$> names) w
      = (Ok tt, <[dir := IsDir d']> w)
      ∧ dir_writable d' = true
      ∧ ∀ n, entries d' !! n
             = if bool_decide (n ∈ names) then None else entries d !! n.
Proof.
  induction 1 as [|n names Hfresh Hnodup IH]; intros w d Hd Hwr Hfiles.
  - exists d. split; [|split; [done|]].
    + cbn [fmap list_fmap io_for_each]. by rewrite insert_id.
    + intros n. by rewrite bool_decide_eq_false_2 by apply not_elem_of_nil.
  - destruct (Hfiles n) as (r & wr & c & Hn); [by left|].
    set (d1 := {| entries := delete n (entries d);
                  dir_writable := dir_writable d |}).
    assert (Disk.unlink (path_in dir n) w = (Ok tt, <[dir := IsDir d1]> w))
      as Hunlink.
    { unfold Disk.unlink, Disk.remove_file. cbn [parent name path_in].
      rewrite Hd, Hn. unfold d1. by rewrite Hwr. }
    destruct (IH (<[dir := IsDir d1]> w) d1) as (d' & Hrun & Hwr' & Hentries).
    + apply lookup_insert_eq.
    + exact Hwr.
    + intros m Hm. destruct (Hfiles m) as (r' & wr' & c' & Hm'); [by right|].
      exists r', wr', c'. cbn [d1 entries].
      rewrite lookup_delete_ne; [done|]. intros ->. by apply Hfresh.
    + exists d'. split; [|split; [done|]].
      * cbn [fmap list_fmap io_for_each].
        rewrite (io_bind_ok _ _ _ _ _ Hunlink). rewrite Hrun.
        by rewrite insert_insert_eq.
      * intros m. rewrite Hentries. cbn [d1 entries].
        destruct (decide (m = n)) as [->|Hmn].
        -- rewrite lookup_delete_eq.
           rewrite (bool_decide_eq_true_2 (n ∈ n :: names)) by by left.
           by case_bool_decide.
        -- rewrite lookup_delete_ne by done.
           destruct (decide (m ∈ names)) as [Hin|Hout].
           ++ rewrite !bool_decide_eq_true_2; [done|by right|done].
           ++ rewrite !bool_decide_eq_false_2; [done| |done].
              intros [->|Hin]%elem_of_cons; done.
Qed.

(** ** The stage cache *)

Section stage_cache.

Import cache_manager.

Variable json_dump : bool → pyval → string * option exn.
Variable json_load : string → result pyval.

(** What the handlers of the stage cache absorb.  Once [Path.exists] has
    answered, [load_stage_cache] raises nothing: it leaves the disk alone and
    answers [None] when the file cannot be read or its text does not parse.
    An error of [Path.exists] itself, which stands before the [try], reaches
    the caller.  [save_stage_cache] raises nothing: it answers [False] when
    the file cannot be opened or the dump raises. *)
Lemma stage_cache_handlers (self : CacheManager)
    (video_id stage : string) (data : pyval) (w : world) :
  let file := stage_cache_file self video_id stage in
  (∀ found,
     (Disk.stat_exists file w).1 = Ok found →
     ∃ r,
       load_stage_cache json_load self video_id stage w = (Ok r, w)
       ∧ (∀ e, (Disk.read_text file w).1 = Raise e → r = None)
       ∧ (∀ content e,
            (Disk.read_text file w).1 = Ok content →
            json_load content = Raise e → r = None)
       ∧ (∀ content payload,
            (Disk.read_text file w).1 = Ok content →
            json_load content = Ok payload → r = Some payload))
  ∧ (∀ e,
       (Disk.stat_exists file w).1 = Raise e →
       load_stage_cache json_load self video_id stage w = (Raise e, w))
  ∧ (∃ b w',
       save_stage_cache json_dump self video_id stage data w = (Ok b, w')
       ∧ (∀ e, (Disk.open_w file w).1 = Raise e → b = false ∧ w' = w)
       ∧ (∀ e, (json_dump true data).2 = Some e → b = false)
       ∧ ((Disk.open_w file w).1 = Ok tt →
          (json_dump true data).2 = None →
          b = true
          ∧ ∃ r, Disk.lookup_file w' file
                 = Some (File r true (json_dump true data).1))).
Proof.
  intros file. split; [|split].
  - intros found. unfold load_stage_cache. fold file.
    unfold mbind, io_bind, try_except, Disk.stat_exists, Disk.read_text, lift,
      mret, io_ret.
    destruct (Disk.lookup_file w file) as [[|[] wr content]|] eqn:Hfile;
      cbn [fst negb].
    + intros _. rewrite Hfile.
      eexists; split; [reflexivity|]; repeat split; intros; congruence.
    + intros _. rewrite Hfile.
      destruct (json_load content) as [payload|e] eqn:Hload;
        (eexists; split; [reflexivity|]; repeat split; intros; congruence).
    + intros _. rewrite Hfile.
      eexists; split; [reflexivity|]; repeat split; intros; congruence.
    + destruct (Disk.NAME_MAX <? String.length (name file)); [done|].
      intros _. cbn [negb].
      eexists; split; [reflexivity|]; repeat split; intros; congruence.
  - intros e. unfold load_stage_cache. fold file.
    unfold mbind, io_bind, Disk.stat_exists.
    destruct (Disk.lookup_file w file); [done|].
    destruct (Disk.NAME_MAX <? String.length (name file)); [|done].
    by intros [= ->].
  - unfold save_stage_cache. fold file.
    unfold helpers.dump_into.
    destruct (json_dump true data) as [written err] eqn:Hdump.
    unfold mbind, io_bind, try_except, Disk.open_w, Disk.write_text, raise,
      mret, io_ret.
    destruct (w !! parent file) as [[d|]|] eqn:Hd; [|by absorbed..].
    destruct (entries d !! name file) as [[|r [] content]|] eqn:Hentry;
      [by absorbed| |by absorbed|].
    + rewrite (lookup_set_file_eq _ _ _ d Hd).
      destruct err as [e|]; absorbed.
      eexists. erewrite lookup_set_file_eq; [reflexivity|].
      by apply set_file_parent.
    + destruct (dir_writable d); [|by absorbed].
      rewrite (lookup_set_file_eq _ _ _ d Hd).
      destruct err as [e|]; absorbed.
      eexists. erewrite lookup_set_file_eq; [reflexivity|].
      by apply set_file_parent.
Qed.

(** C7: [load_stage_cache] lets an exception through.  For a video id of
    300 characters whose gloss is not cached, the name of the stage file is
    longer than a directory entry can be; [Path.exists], called before the
    [try], raises the error of [stat], and [load_stage_cache] raises it to
    the caller instead of returning [None]. *)
Theorem load_stage_cache_long_id_raises :
  load_stage_cache json_load samples.cache samples_more.long_id "gloss"
    samples.cache_world
  = (Raise OSError, samples.cache_world).
Proof.
  unfold load_stage_cache.
  assert (Hexists : Disk.stat_exists
                      (stage_cache_file samples.cache samples_more.long_id
                         "gloss") samples.cache_world
                    = (Raise OSError, samples.cache_world))
    by (vm_compute; reflexivity).
  unfold mbind, io_bind. by rewrite Hexists.
Qed.

End stage_cache.

(** ** Clearing the cache *)

Section cache_clearing.

Import cache_manager.

Variable self : CacheManager.

Lemma stage_file_not_combined (video_id stage : string) :
  name (stage_cache_file self video_id stage)
  ≠ name (get_cache_file self video_id).
Proof.
  unfold stage_cache_file, get_cache_file, get_cache_key. cbn [name path_in].
  rewrite string_app_assoc. intros Heq.
  apply (inj (String.app "video_")) in Heq.
  apply (inj (String.app video_id)) in Heq. discriminate Heq.
Qed.

Lemma stage_file_is_json (video_id stage : string) :
  PyStr.endswith (name (stage_cache_file self video_id stage)) ".json" = true.
Proof.
  unfold stage_cache_file. cbn [name path_in].
  rewrite <- !string_app_assoc. apply endswith_app.
Qed.

(** With a video id: nothing happens when the combined file is not there. *)
Lemma clear_cache_absent (c : ascii) (rest : string) (w : world) :
  Disk.lookup_file w (get_cache_file self (String c rest)) = None →
  clear_cache self (Some (String c rest)) w = (Ok None, w).
Proof.
  intros Hfile. unfold clear_cache, try_except, mbind, io_bind, Disk.exists_.
  rewrite Hfile. by rewrite bool_decide_eq_false_2 by (by intros [? ?]).
Qed.

(** With a video id: at most the combined file goes, and it does go when
    it is a regular file of a writable directory. *)
Lemma clear_cache_specific (c : ascii) (rest : string) (w : world) :
  let file := get_cache_file self (String c rest) in
  ∃ r,
    (clear_cache self (Some (String c rest)) w = (Ok r, w)
     ∧ ∀ d rd wr content,
         w !! parent file = Some (IsDir d) →
         dir_writable d = true →
         entries d !! name file ≠ Some (File rd wr content))
    ∨ (clear_cache self (Some (String c rest)) w
         = (Ok r, Disk.remove_file file w)
       ∧ r = Some true
       ∧ ∃ rd wr content, Disk.lookup_file w file = Some (File rd wr content)).
Proof.
  intros file.
  destruct (Disk.lookup_file w file) as [nd|] eqn:Hfile.
  - unfold clear_cache, try_except, mbind, io_bind, Disk.exists_. fold file.
    rewrite Hfile. rewrite bool_decide_eq_true_2 by eauto.
    unfold Disk.unlink, mret, io_ret. unfold Disk.lookup_file in Hfile.
    destruct (w !! parent file) as [[d|]|]; try discriminate.
    rewrite Hfile.
    destruct nd as [|rd wr content].
    { eexists; left. split; [done|]. intros; congruence. }
    destruct (dir_writable d) eqn:Hwr.
    + exists (Some true). right. eauto 10.
    + eexists; left. split; [done|]. intros; congruence.
  - exists None. left. split; [by apply clear_cache_absent|].
    intros d rd wr content Hd _. unfold Disk.lookup_file in Hfile.
    rewrite Hd in Hfile. congruence.
Qed.

(** Without a video id: every entry named [*.json] goes when these are
    regular files of a writable directory. *)
Lemma clear_cache_all (video_id : option string) (w : world) d :
  video_id = None ∨ video_id = Some "" →
  w !! cache_dir self = Some (IsDir d) →
  dir_writable d = true →
  (∀ n, PyStr.endswith n ".json" = true → entries d !! n ≠ Some Dir) →
  ∃ d',
    clear_cache self video_id w
    = (Ok (Some true), <[cache_dir self := IsDir d']> w)
    ∧ ∀ n, entries d' !! n
           = if PyStr.endswith n ".json" then None else entries d !! n.
Proof.
  intros Hid Hd Hwr Hfiles.
  set (names := filter (λ n, Is_true (PyStr.endswith n ".json"))
                       ((map_to_list (entries d)).*1)).
  assert (∀ n, n ∈ names
               ↔ PyStr.endswith n ".json" = true ∧ is_Some (entries d !! n))
    as Hnames.
  { intros n. unfold names. rewrite list_elem_of_filter, Is_true_true.
    rewrite list_elem_of_fmap. split.
    - intros [Hjson ([n' nd] & -> & Hin)]. split; [done|].
      apply elem_of_map_to_list in Hin. eauto.
    - intros [Hjson [nd Hnd]]. split; [done|].
      exists (n, nd). split; [done|]. by apply elem_of_map_to_list. }
  destruct (unlink_all (cache_dir self) names) with (w := w) (d := d)
    as (d' & Hrun & _ & Hentries); [| done | done | |].
  { apply NoDup_filter, NoDup_fst_map_to_list. }
  { intros n [Hjson [nd Hnd]]%Hnames. specialize (Hfiles n Hjson).
    destruct nd as [|r wr c]; [done|eauto]. }
  exists d'. split.
  - assert (clear_cache self video_id w
            = try_except
                (files ← Disk.glob_suffix (cache_dir self) ".json";
                 _ ← io_for_each Disk.unlink files;
                 mret (Some true))
                (λ e, mret (Some false)) w) as ->.
    { by destruct Hid as [-> | ->]. }
    unfold try_except, Disk.glob_suffix, mbind, io_bind. rewrite Hd.
    fold names. by rewrite Hrun.
  - intros n. rewrite Hentries.
    destruct (PyStr.endswith n ".json") eqn:Hjson.
    + case_bool_decide as Hin; [done|].
      destruct (entries d !! n) as [nd|] eqn:Hnd; [|done].
      exfalso. apply Hin, Hnames. eauto.
    + rewrite bool_decide_eq_false_2; [done|].
      intros [Hjson' _]%Hnames. congruence.
Qed.


End cache_clearing.

(** The cache directory of [samples], cleared for one video: the combined
    file goes, the stage files stay. *)
Example clear_cache_one_video :
  let run := cache_manager.clear_cache samples.cache (Some "abc")
               samples.cache_world in
  run.1 = Ok (Some true)
  ∧ Disk.lookup_file run.2 (cache_manager.get_cache_file samples.cache "abc")
    = None
  ∧ Disk.lookup_file run.2
      (cache_manager.stage_cache_file samples.cache "abc" "gloss")
    = Some (File true true "{}").
Proof. vm_compute. done. Qed.

(** Cleared for a video that has stage files only: nothing goes, and the
    result is [None]. *)
Example clear_cache_no_combined_file :
  cache_manager.clear_cache samples.cache (Some "xyz") samples.cache_world
  = (Ok None, samples.cache_world).
Proof. vm_compute. done. Qed.

(** Cleared for all videos: the JSON files go, the other file stays. *)
Example clear_cache_everything :
  let run := cache_manager.clear_cache samples.cache None
               samples.cache_world in
  run.1 = Ok (Some true)
  ∧ Disk.lookup_file run.2
      (cache_manager.stage_cache_file samples.cache "abc" "gloss") = None
  ∧ Disk.lookup_file run.2
      (cache_manager.stage_cache_file samples.cache "xyz" "gloss") = None
  ∧ Disk.lookup_file run.2 (path_in "/app/cache" "notes.txt")
    = Some (File true true "keep").
Proof. vm_compute. done. Qed.

(** Such an id is one [extract_youtube_id] returns. *)
Example long_id_from_url :
  app.extract_youtube_id ("https://youtu.be/" +:+ samples_more.long_id)
  = Some samples_more.long_id.
Proof. vm_compute. reflexivity. Qed.

(** A stage file that is there but does not parse is a miss; a stage file
    that cannot be created is a failed save. *)
Example load_malformed_payload :
  cache_manager.load_stage_cache (λ _, Raise JSONDecodeError) samples.cache
    "abc" "gloss" samples.cache_world
  = (Ok None, samples.cache_world).
Proof. vm_compute. done. Qed.

Example save_without_directory :
  cache_manager.save_stage_cache samples.json_dump samples.cache
    "abc" "gloss" (PDict ∅) ∅
  = (Ok false, ∅).
Proof. vm_compute. done. Qed.

(** * More of the code *)

(** ** String methods *)

Lemma upper_char_idem (c : ascii) :
  PyStr.upper_char (PyStr.upper_char c) = PyStr.upper_char c.
Proof. destruct c as [[] [] [] [] [] [] [] []]; vm_compute; reflexivity. Qed.

Lemma upper_lower_char (c : ascii) :
  PyStr.upper_char (PyStr.lower_char c) = PyStr.upper_char c.
Proof. destruct c as [[] [] [] [] [] [] [] []]; vm_compute; reflexivity. Qed.

Lemma upper_idem (s : string) : PyStr.upper (PyStr.upper s) = PyStr.upper s.
Proof.
  induction s as [|c s IH]; [done|]. cbn [PyStr.upper].
  by rewrite upper_char_idem, IH.
Qed.

Lemma upper_lower (s : string) : PyStr.upper (PyStr.lower s) = PyStr.upper s.
Proof.
  induction s as [|c s IH]; [done|]. cbn [PyStr.upper PyStr.lower].
  by rewrite upper_lower_char, IH.
Qed.

Lemma upper_nonempty (s : string) : s ≠ "" → PyStr.upper s ≠ "".
Proof. by destruct s. Qed.

(** ** The gloss reducer: what the loops keep and drop *)

Section gloss_reducer_more.

Import stage2_nlp gloss_spec more_spec.

Variable _NLP : string → list Token.
Variable stop_words : gset string.

Lemma clean_loop_words (toks : list string) :
  ∀ cleaned,
    filter (λ tok, tok ≠ "|") (foldl clean_step cleaned toks)
    = filter (λ tok, tok ≠ "|") cleaned ++ filter (λ tok, tok ≠ "|") toks.
Proof.
  induction toks as [|tok toks IH]; intros cleaned; cbn [foldl].
  - by rewrite app_nil_r.
  - rewrite IH. unfold clean_step.
    destruct (decide (tok = "|")) as [->|Hword].
    + rewrite (filter_cons_False _ "|") by (by intros ?).
      destruct (bool_decide ("|" = "|") && _).
      * done.
      * rewrite filter_app, (filter_cons_False _ "|") by (by intros ?).
        by rewrite filter_nil, app_nil_r.
    + rewrite bool_decide_eq_false_2 by done. cbn [andb].
      rewrite filter_app, !(filter_cons_True _ tok) by done.
      by rewrite filter_nil, <- app_assoc.
Qed.

(** X1: cleaning removes pause markers only: the words of the output are
    the words the loop over the document emitted, in the same order. *)
Theorem cleaning_keeps_the_words (text : string) (keep_negation : bool) :
  filter (λ tok, tok ≠ "|")
         (text_to_gloss_tokens _NLP stop_words text keep_negation)
  = filter (λ tok, tok ≠ "|")
           (foldl (gloss_step stop_words keep_negation) [] (_NLP text)).
Proof. unfold text_to_gloss_tokens. by rewrite clean_loop_words. Qed.

Lemma clean_loop_fixes (toks : list string) :
  ∀ cleaned,
    pauses_clean (cleaned ++ toks) →
    foldl clean_step cleaned toks = cleaned ++ toks.
Proof.
  induction toks as [|tok toks IH]; intros cleaned [Hhead Hadj]; cbn [foldl].
  - by rewrite app_nil_r.
  - assert (clean_step cleaned tok = cleaned ++ [tok]) as ->.
    { unfold clean_step. destruct (decide (tok = "|")) as [->|Hword].
      - rewrite bool_decide_eq_true_2 by done. cbn [andb].
        rewrite bool_decide_eq_false_2; [|by intros ->].
        rewrite bool_decide_eq_false_2; [done|].
        intros Hlast. rewrite last_lookup in Hlast.
        destruct cleaned as [|c cleaned']; [done|].
        apply (Hadj (length cleaned')).
        + rewrite lookup_app_l by (simpl; lia). exact Hlast.
        + by rewrite (list_lookup_middle (c :: cleaned')).
      - by rewrite bool_decide_eq_false_2. }
    rewrite IH; rewrite <- app_assoc; [done|by split].
Qed.

(** X2: the output is a fixed point of the cleaning loop: cleaning it a
    second time gives it back unchanged. *)
Theorem cleaning_is_idempotent (text : string) (keep_negation : bool) :
  foldl clean_step [] (text_to_gloss_tokens _NLP stop_words text keep_negation)
  = text_to_gloss_tokens _NLP stop_words text keep_negation.
Proof.
  apply (clean_loop_fixes _ []). unfold text_to_gloss_tokens. cbn [app].
  apply (foldl_invariant pauses_clean); [|exact pauses_clean_nil].
  intros cleaned tok. apply clean_step_pauses_clean.
Qed.

Lemma gloss_step_cases keep toks (t : Token) :
  gloss_step stop_words keep toks t = toks
  ∨ ∃ x, gloss_step stop_words keep toks t = toks ++ [x] ∧ emitted_by stop_words t x.
Proof.
  unfold gloss_step, emitted_by. cbn zeta.
  destruct (is_space t); [by left|].
  case_bool_decide as Hbase; [by left|].
  destruct (is_punct t).
  { case_bool_decide; [|by left]. right. eexists. split; [done|]. eauto 10. }
  case_bool_decide as Hne; [by left|].
  case_bool_decide as Hstop; [by left|].
  destruct (PyStr.isnumeric _); [right; eexists; split; [done|]; eauto 10|].
  destruct (keep && _); [right; eexists; split; [done|]; eauto 10|].
  case_bool_decide; [right; eexists; split; [done|]; eauto 10|by left].
Qed.

Lemma gloss_loop_sources keep (doc : list Token) :
  ∀ toks x,
    x ∈ foldl (gloss_step stop_words keep) toks doc →
    x ∈ toks ∨ ∃ t, t ∈ doc ∧ emitted_by stop_words t x.
Proof.
  induction doc as [|t doc IH]; intros toks x; cbn [foldl]; [by left|].
  intros [Hin | (t' & Ht' & Hem)]%IH.
  - destruct (gloss_step_cases keep toks t) as [Heq | (y & Heq & Hem)];
      rewrite Heq in Hin; [by left|].
    apply elem_of_app in Hin as [Hin | ->%list_elem_of_singleton]; [by left|].
    right. exists t. split; [by left|done].
  - right. exists t'. split; [by right|done].
Qed.

Lemma gloss_loop_length keep (doc : list Token) :
  ∀ toks,
    length (foldl (gloss_step stop_words keep) toks doc)
    ≤ length toks + length doc.
Proof.
  induction doc as [|t doc IH]; intros toks; cbn [foldl length]; [lia|].
  specialize (IH (gloss_step stop_words keep toks t)).
  destruct (gloss_step_cases keep toks t) as [Heq | (y & Heq & _)];
    rewrite Heq in IH |- *; rewrite ?length_app in IH; simpl in IH; lia.
Qed.

Lemma clean_step_cases cleaned tok :
  clean_step cleaned tok = cleaned ∨ clean_step cleaned tok = cleaned ++ [tok].
Proof. unfold clean_step. destruct (_ && _); auto. Qed.

Lemma clean_loop_sources (toks : list string) :
  ∀ cleaned x, x ∈ foldl clean_step cleaned toks → x ∈ cleaned ∨ x ∈ toks.
Proof.
  induction toks as [|tok toks IH]; intros cleaned x; cbn [foldl]; [by left|].
  intros [Hin | Hin]%IH; [|right; by right].
  destruct (clean_step_cases cleaned tok) as [Heq | Heq]; rewrite Heq in Hin;
    [by left|].
  apply elem_of_app in Hin as [Hin | ->%list_elem_of_singleton];
    [by left|right; by left].
Qed.

Lemma clean_loop_length (toks : list string) :
  ∀ cleaned,
    length (foldl clean_step cleaned toks) ≤ length cleaned + length toks.
Proof.
  induction toks as [|tok toks IH]; intros cleaned; cbn [foldl length]; [lia|].
  specialize (IH (clean_step cleaned tok)).
  destruct (clean_step_cases cleaned tok) as [Heq | Heq];
    rewrite Heq in IH |- *; rewrite ?length_app in IH; simpl in IH; lia.
Qed.

(** X3: the output has at most one token per token of the document, and
    each of its tokens is either the pause marker of a punctuation token or
    the upper-cased lemma of a token that is neither whitespace, nor a
    filler word, nor punctuation, and whose lemma is neither blank nor a
    stop word. *)
Theorem gloss_tokens_come_from_the_document (text : string)
    (keep_negation : bool) :
  let out := text_to_gloss_tokens _NLP stop_words text keep_negation in
  length out ≤ length (_NLP text)
  ∧ ∀ x, x ∈ out → ∃ t, t ∈ _NLP text ∧ emitted_by stop_words t x.
Proof.
  unfold text_to_gloss_tokens. split.
  - etrans; [apply clean_loop_length|]. cbn [length].
    apply (gloss_loop_length keep_negation (_NLP text) []).
  - intros x [Hin | Hin]%clean_loop_sources; [by apply elem_of_nil in Hin|].
    apply gloss_loop_sources in Hin as [Hin | Hin]; [|done].
    by apply elem_of_nil in Hin.
Qed.

(** The flag only adds negation words to what the loop emits. *)
Lemma gloss_step_adds_words toks1 toks2 (t : Token) :
  adds_words toks1 toks2 →
  adds_words (gloss_step stop_words false toks1 t)
             (gloss_step stop_words true toks2 t).
Proof.
  intros Hadds. unfold gloss_step.
  destruct (is_space t); [done|].
  case_bool_decide; [done|].
  destruct (is_punct t).
  { case_bool_decide; [by constructor|done]. }
  case_bool_decide; [done|].
  case_bool_decide; [done|].
  destruct (PyStr.isnumeric _); [by constructor|].
  cbn [andb].
  destruct (decide (PyStr.strip (PyStr.lower (lemma_ t))
                    ∈ ({[ "no"; "not"; "never" ]} : gset string)))
    as [Hneg|Hneg].
  - rewrite (bool_decide_eq_true_2 _ Hneg).
    assert (PyStr.upper (PyStr.strip (PyStr.lower (lemma_ t))) ≠ "|") as Hword.
    { rewrite upper_eq_bar. intros Hbar. rewrite Hbar in Hneg. set_solver. }
    case_bool_decide; by constructor.
  - rewrite (bool_decide_eq_false_2 _ Hneg).
    case_bool_decide; [by constructor|done].
Qed.

Lemma gloss_loop_adds_words (doc : list Token) :
  ∀ toks1 toks2,
    adds_words toks1 toks2 →
    adds_words (foldl (gloss_step stop_words false) toks1 doc)
               (foldl (gloss_step stop_words true) toks2 doc).
Proof.
  induction doc as [|t doc IH]; intros toks1 toks2 Hadds; cbn [foldl]; [done|].
  by apply IH, gloss_step_adds_words.
Qed.

Lemma clean_step_pause_kept cleaned :
  open_for_pause cleaned → clean_step cleaned "|" = cleaned ++ ["|"].
Proof.
  intros [Hne Hlast]. unfold clean_step.
  rewrite (bool_decide_eq_false_2 (cleaned = [])) by done.
  by rewrite (bool_decide_eq_false_2 (last cleaned = Some "|")) by done.
Qed.

Lemma clean_step_pause_dropped cleaned :
  ¬ open_for_pause cleaned → clean_step cleaned "|" = cleaned.
Proof.
  intros Hclosed. unfold clean_step. cbn [andb bool_decide].
  destruct (decide (cleaned = [])) as [->|Hne]; [done|].
  rewrite (bool_decide_eq_false_2 (cleaned = [])) by done.
  rewrite (bool_decide_eq_true_2 (last cleaned = Some "|")); [done|].
  destruct (decide (last cleaned = Some "|")); [done|].
  exfalso. by apply Hclosed.
Qed.

Lemma clean_step_word cleaned x :
  x ≠ "|" → clean_step cleaned x = cleaned ++ [x].
Proof. intros Hx. unfold clean_step. by rewrite bool_decide_eq_false_2. Qed.

Lemma open_after_word cleaned x : x ≠ "|" → open_for_pause (cleaned ++ [x]).
Proof.
  intros Hx. split; [by destruct cleaned|].
  rewrite last_snoc. congruence.
Qed.

Lemma closed_after_pause cleaned : ¬ open_for_pause (cleaned ++ ["|"]).
Proof. intros [_ Hlast]. by rewrite last_snoc in Hlast. Qed.

Lemma clean_adds_words l1 l2 :
  adds_words l1 l2 →
  foldl clean_step [] l1 `sublist_of` foldl clean_step [] l2
  ∧ (open_for_pause (foldl clean_step [] l1) →
     open_for_pause (foldl clean_step [] l2)).
Proof.
  induction 1 as [|x l1 l2 Hadds [IHsub IHopen]|y l1 l2 Hy Hadds [IHsub IHopen]];
    rewrite ?foldl_app; cbn [foldl].
  - done.
  - destruct (decide (x = "|")) as [->|Hx].
    + destruct (decide (open_for_pause (foldl clean_step [] l1))) as [Ho|Hc].
      * rewrite (clean_step_pause_kept _ Ho),
          (clean_step_pause_kept _ (IHopen Ho)).
        split; [by apply sublist_app|].
        intros Hopen. by apply closed_after_pause in Hopen.
      * rewrite (clean_step_pause_dropped _ Hc). split; [|done].
        destruct (clean_step_cases (foldl clean_step [] l2) "|") as [-> | ->];
          [done|by apply sublist_inserts_r].
    + rewrite !clean_step_word by done.
      split; [by apply sublist_app|]. intros _. by apply open_after_word.
  - rewrite clean_step_word by done.
    split; [by apply sublist_inserts_r|]. intros _. by apply open_after_word.
Qed.

(** X4: switching [keep_negation] on only adds tokens: the output with the
    flag off is the output with the flag on with some tokens left out, the
    others in the same order. *)
Theorem keep_negation_only_adds (text : string) :
  text_to_gloss_tokens _NLP stop_words text false
  `sublist_of` text_to_gloss_tokens _NLP stop_words text true.
Proof.
  unfold text_to_gloss_tokens. apply clean_adds_words.
  apply gloss_loop_adds_words. constructor.
Qed.

End gloss_reducer_more.

(** ** The gloss stage over the segments of a transcript *)

Section gloss_segments.

Import stage2_nlp_segments more_spec emotion_spec.

Variable _NLP : string → list stage2_nlp.Token.
Variable stop_words : gset string.
Variable cfg : config.Config.

(** The tokens the gloss stage computes for a stripped text. *)
Abbreviation tokens_of :=
  (λ text, stage2_nlp.text_to_gloss_tokens _NLP stop_words text
             (config.keep_negation cfg)).

Lemma gloss_segment_step_ok out_segments (seg : gmap string pyval) :
  transcript_ok seg = true →
  gloss_segment_step _NLP stop_words cfg out_segments (PDict seg)
  = Ok (if decide (nonblank seg)
        then out_segments ++ [PDict (glossed tokens_of seg)]
        else out_segments).
Proof.
  intros [Htext Hkeys]%andb_true_iff.
  unfold gloss_segment_step. cbn [as_dict mbind result_bind].
  assert (as_str (dict_get seg "text" (PStr ""))
          ≫= (λ text, Ok (PyStr.strip text))
          = Ok (segment_text seg)) as Hstripped.
  { unfold text_ok, segment_text, dict_get in *.
    by destruct (seg !! "text") as [[| | | |text| |]|]. }
  destruct (as_str (dict_get seg "text" (PStr ""))) as [text|e];
    [|discriminate]. cbn [mbind result_bind] in *.
  injection Hstripped as Hstripped. rewrite Hstripped.
  destruct (decide (nonblank seg)) as [Hnb|Hb].
  - rewrite bool_decide_eq_false_2 by done.
    rewrite (bool_decide_eq_false_2 (segment_text seg = "")) in Hkeys by done.
    rewrite orb_false_l in Hkeys.
    apply andb_true_iff in Hkeys as [[Hid Hstart]%andb_true_iff Hend].
    apply bool_decide_eq_true_1 in Hid as [v1 Hid].
    apply bool_decide_eq_true_1 in Hstart as [v2 Hstart].
    apply bool_decide_eq_true_1 in Hend as [v3 Hend].
    assert (is_Some (seg !! "text")) as [v4 Hv4].
    { unfold nonblank, segment_text in Hnb.
      destruct (seg !! "text"); [eauto|]. by destruct Hnb. }
    unfold getitem, glossed, dict_get. by rewrite Hid, Hstart, Hend, Hv4.
  - rewrite bool_decide_eq_true_2; [done|].
    unfold nonblank in Hb. by destruct (decide (segment_text seg = "")).
Qed.

Lemma gloss_segment_loop (segs : list (gmap string pyval)) :
  forallb transcript_ok segs = true →
  ∀ out_segments,
    for_each (gloss_segment_step _NLP stop_words cfg) (PDict <$> segs)
      out_segments
    = Ok (out_segments
          ++ (PDict <$> (glossed tokens_of <$> filter nonblank segs))).
Proof.
  induction segs as [|seg segs IH]; intros Hok out_segments;
    cbn [fmap list_fmap for_each].
  - by rewrite app_nil_r.
  - cbn [forallb] in Hok. apply andb_true_iff in Hok as [Hseg Hsegs].
    rewrite gloss_segment_step_ok by done. cbn [mbind result_bind].
    rewrite IH by done. destruct (decide (nonblank seg)) as [Hnb|Hb].
    + rewrite filter_cons_True by done. cbn [fmap list_fmap].
      by rewrite <- app_assoc.
    + by rewrite filter_cons_False by done.
Qed.

(** X5: on segments the gloss stage can read, [process_segments_to_gloss]
    drops the segments whose text is blank and keeps the others in order;
    each kept segment carries its id, start, end and text as they are (the
    text not stripped) and the gloss tokens of its stripped text. *)
Theorem process_segments_to_gloss_result (segs : list (gmap string pyval)) :
  forallb transcript_ok segs = true →
  process_segments_to_gloss _NLP stop_words (PList (PDict <$> segs)) cfg
  = Ok {[ "segments" :=
            PList (PDict <$> (glossed tokens_of <$> filter nonblank segs)) ]}.
Proof.
  intros Hok. unfold process_segments_to_gloss.
  cbn [iterate mbind result_bind]. by rewrite gloss_segment_loop.
Qed.

Lemma gloss_segment_step_missing_id out_segments (seg : gmap string pyval) :
  text_ok seg = true →
  nonblank seg →
  seg !! "id" = None →
  gloss_segment_step _NLP stop_words cfg out_segments (PDict seg)
  = Raise (KeyError "id").
Proof.
  intros Htext Hnb Hid.
  unfold gloss_segment_step. cbn [as_dict mbind result_bind].
  unfold text_ok, nonblank, segment_text, dict_get in *.
  destruct (seg !! "text") as [[| | | |text| |]|]; try discriminate;
    cbn [from_option id as_str mbind result_bind] in *; [|done].
  rewrite bool_decide_eq_false_2 by done.
  unfold getitem. by rewrite Hid.
Qed.

(** X6: a segment with a text that is not blank and without an id makes the
    whole call raise [KeyError("id")], whatever comes after it; the segments
    before it are lost with it. *)
Theorem process_segments_to_gloss_missing_id
    (before after : list (gmap string pyval)) (seg : gmap string pyval) :
  forallb transcript_ok before = true →
  text_ok seg = true →
  nonblank seg →
  seg !! "id" = None →
  process_segments_to_gloss _NLP stop_words
    (PList (PDict <$> (before ++ seg :: after))) cfg
  = Raise (KeyError "id").
Proof.
  intros Hbefore Htext Hnb Hid. unfold process_segments_to_gloss.
  cbn [iterate mbind result_bind].
  assert (∀ out_segments,
            for_each (gloss_segment_step _NLP stop_words cfg)
              (PDict <$> (before ++ seg :: after)) out_segments
            = Raise (KeyError "id")) as ->; [|done].
  induction before as [|b before IH]; intros out_segments;
    cbn [app fmap list_fmap for_each].
  - by rewrite gloss_segment_step_missing_id.
  - cbn [forallb] in Hbefore. apply andb_true_iff in Hbefore as [Hb Hrest].
    rewrite gloss_segment_step_ok by done. cbn [mbind result_bind].
    by apply IH.
Qed.

End gloss_segments.

(** ** From the gloss stage to the timeline *)

Section gloss_to_timeline.

Import stage2_nlp_segments stage3_map more_spec emotion_spec resolver_spec.

Variable _NLP : string → list stage2_nlp.Token.
Variable stop_words : gset string.
Variable cfg : config.Config.
Variable path_str : string → string.

Abbreviation tokens_of :=
  (λ text, stage2_nlp.text_to_gloss_tokens _NLP stop_words text
             (config.keep_negation cfg)).

Lemma strings_of_strs (l : list string) : strings_of (PStr <$> l) = l.
Proof.
  unfold strings_of. induction l as [|x l IH]; [done|].
  cbn [fmap list_fmap omap list_omap]. by rewrite IH.
Qed.

Lemma forallb_is_str (l : list string) : forallb is_str (PStr <$> l) = true.
Proof. by induction l. Qed.

Lemma glossed_lookup (f : string → list string) (seg : gmap string pyval) :
  glossed f seg !! "id" = Some (dict_get seg "id" PNone)
  ∧ glossed f seg !! "start" = Some (dict_get seg "start" PNone)
  ∧ glossed f seg !! "end" = Some (dict_get seg "end" PNone)
  ∧ glossed f seg !! "text" = Some (dict_get seg "text" PNone)
  ∧ glossed f seg !! "gloss" = Some (PList (PStr <$> f (segment_text seg)))
  ∧ glossed f seg !! "emotion" = None.
Proof. unfold glossed. repeat split; by simplify_map_eq. Qed.

Lemma nonblank_text (seg : gmap string pyval) :
  nonblank seg → ∃ text, seg !! "text" = Some (PStr text).
Proof.
  unfold nonblank, segment_text.
  destruct (seg !! "text") as [[| | | |text| |]|]; try done. eauto.
Qed.

Lemma glossed_segment_ok (f : string → list string) (seg : gmap string pyval) :
  nonblank seg → segment_ok (glossed f seg) = true.
Proof.
  intros [text Htext]%nonblank_text.
  destruct (glossed_lookup f seg) as (Hid & _ & _ & Htxt & Hgloss & _).
  unfold segment_ok, dict_get. rewrite Hid, Htxt, Hgloss. unfold dict_get.
  rewrite Htext. cbn [from_option id].
  rewrite bool_decide_eq_true_2 by eauto. by rewrite forallb_is_str.
Qed.

Lemma glossed_segments_ok (f : string → list string)
    (segs : list (gmap string pyval)) :
  forallb segment_ok (glossed f <$> filter nonblank segs) = true.
Proof.
  induction segs as [|seg segs IH]; [done|].
  destruct (decide (nonblank seg)) as [Hnb|Hb].
  - rewrite filter_cons_True by done. cbn [fmap list_fmap forallb].
    by rewrite glossed_segment_ok, IH.
  - by rewrite filter_cons_False by done.
Qed.

(** X7: the gloss stage feeds the timeline builder.  On segments the gloss
    stage can read and with the index loaded, the timeline built from the
    output of [process_segments_to_gloss] has one entry per segment whose
    text is not blank, in order; the entry carries the segment's text, the
    gloss tokens of its stripped text, their descriptors as items, and the
    empty dictionary as emotion. *)
Theorem gloss_then_timeline (segs : list (gmap string pyval)) (w : world)
    (dataset_path : string) (mapping : gmap string string) :
  forallb transcript_ok segs = true →
  load_sign_dict w dataset_path = Ok mapping →
  ∃ gloss_json entries,
    process_segments_to_gloss _NLP stop_words (PList (PDict <$> segs)) cfg
    = Ok gloss_json
    ∧ build_sign_timeline path_str w dataset_path gloss_json
      = Ok {| timeline := entries |}
    ∧ length entries = length (filter nonblank segs)
    ∧ ∀ i seg, filter nonblank segs !! i = Some seg →
        ∃ e, entries !! i = Some e
          ∧ e_id e = dict_get seg "id" PNone
          ∧ e_text e = dict_get seg "text" PNone
          ∧ e_gloss e = PList (PStr <$> tokens_of (segment_text seg))
          ∧ e_items e
            = concat ((λ tok, resolve path_str tok mapping)
                        <$> tokens_of (segment_text seg))
          ∧ e_emotion e = PDict ∅.
Proof.
  intros Hok Hload.
  eexists _, (entry_of path_str mapping
                <$> (glossed tokens_of <$> filter nonblank segs)).
  split; [|split; [|split]].
  - unfold process_segments_to_gloss. cbn [iterate mbind result_bind].
    by rewrite gloss_segment_loop.
  - apply build_sign_timeline_ok; [done| |apply glossed_segments_ok].
    unfold dict_get. by rewrite lookup_singleton_eq.
  - by rewrite !length_fmap.
  - intros i seg Hi. eexists. rewrite !list_lookup_fmap, Hi.
    split; [reflexivity|].
    destruct (glossed_lookup tokens_of seg)
      as (Hid & _ & _ & Htxt & Hgloss & Hemo).
    unfold entry_of, gloss_of, dict_get.
    cbn [e_id e_text e_gloss e_items e_emotion].
    rewrite Hid, Htxt, Hgloss, Hemo. cbn [from_option id].
    by rewrite strings_of_strs.
Qed.

End gloss_to_timeline.

(** ** From the emotion stage to the timeline *)

Section emotion_to_timeline.

Import stage2_emotion stage3_map more_spec emotion_spec resolver_spec.

Variable _EMO : string → result (list (list score_entry)).
Variable json_dump : bool → pyval → string * option exn.
Variable package_root : string.
Variable path_str : string → string.

Abbreviation annotated :=
  (λ seg : gmap string pyval, <["emotion" := emotion_of _EMO seg]> seg).

Lemma add_emotion_result (gloss_json : gmap string pyval)
    (cfg : option config.Config) (segs : list (gmap string pyval)) (w : world) :
  let cfg' := default (config.Config_default package_root) cfg in
  let output_path := path_in (config.output_dir cfg') "emotion_output.json" in
  let document :=
    PDict {[ "segments" := PList ((λ seg, PDict (annotated seg)) <$> segs) ]} in
  dict_get gloss_json "segments" (PList []) = PList (PDict <$> segs) →
  forallb text_ok segs = true →
  (∀ seg, seg ∈ segs → segment_text seg ≠ "" →
     ∃ scores rest, _EMO (segment_text seg) = Ok (scores :: rest)) →
  (config.ensure_dirs cfg' w).1 = Ok tt →
  (helpers.write_json json_dump output_path document
     (config.ensure_dirs cfg' w).2).1 = Ok tt →
  (add_emotion_to_segments _EMO json_dump package_root gloss_json cfg w).1
  = Ok {[ "segments" := PList (PDict <$> (annotated <$> segs)) ]}.
Proof.
  intros cfg' output_path document Hsegs Hok Hemo Hdirs Hwrite.
  unfold add_emotion_to_segments. fold cfg' output_path.
  rewrite (io_bind_ok _ _ _ _ _ (io_result_split _ _ _ Hdirs)).
  rewrite Hsegs. cbn [iterate]. rewrite io_bind_lift.
  rewrite annotate_loop by done. cbn [app]. rewrite io_bind_lift.
  rewrite (io_bind_ok _ _ _ _ _ (io_result_split _ _ _ Hwrite)).
  by rewrite <- list_fmap_compose.
Qed.

Lemma segment_ok_text_ok (seg : gmap string pyval) :
  segment_ok seg = true → text_ok seg = true.
Proof.
  unfold segment_ok, text_ok.
  intros [[_ Htext]%andb_true_iff _]%andb_true_iff.
  by destruct (seg !! "text") as [[| | | |text| |]|].
Qed.

Lemma annotated_segment_ok (seg : gmap string pyval) (e : pyval) :
  segment_ok seg = true → segment_ok (<["emotion" := e]> seg) = true.
Proof.
  unfold segment_ok, dict_get. by rewrite !lookup_insert_ne by done.
Qed.

Lemma forallb_fmap_implies {A B : Type} (p : A → bool) (q : B → bool)
    (f : A → B) (l : list A) :
  (∀ x, p x = true → q (f x) = true) →
  forallb p l = true → forallb q (f <$> l) = true.
Proof.
  intros Himp. induction l as [|x l IH]; [done|]. cbn [forallb fmap list_fmap].
  intros [Hx Hl]%andb_true_iff. by rewrite (Himp x Hx), IH.
Qed.

(** X8: the emotion stage feeds the timeline builder.  On well-formed
    segments with ASCII texts, with a classifier that answers for every
    non-blank text and a disk that takes the document the emotion stage
    writes, the timeline built from the output of the emotion stage has one
    entry per segment, in order, whose emotion is the one the emotion stage
    gave the segment (never the empty default), and whose other fields and
    items are those the segment would have had without the emotion stage. *)
Theorem emotion_then_timeline (gloss_json : gmap string pyval)
    (cfg : option config.Config) (segs : list (gmap string pyval))
    (w w_build : world) (dataset_path : string) (mapping : gmap string string) :
  let cfg' := default (config.Config_default package_root) cfg in
  let output_path := path_in (config.output_dir cfg') "emotion_output.json" in
  let document :=
    PDict {[ "segments" := PList ((λ seg, PDict (annotated seg)) <$> segs) ]} in
  dict_get gloss_json "segments" (PList []) = PList (PDict <$> segs) →
  forallb segment_ok segs = true →
  forallb ascii_text segs = true →
  (∀ seg, seg ∈ segs → segment_text seg ≠ "" →
     ∃ scores rest, _EMO (segment_text seg) = Ok (scores :: rest)) →
  (config.ensure_dirs cfg' w).1 = Ok tt →
  (helpers.write_json json_dump output_path document
     (config.ensure_dirs cfg' w).2).1 = Ok tt →
  load_sign_dict w_build dataset_path = Ok mapping →
  ∃ with_emotion entries,
    (add_emotion_to_segments _EMO json_dump package_root gloss_json cfg w).1
    = Ok with_emotion
    ∧ build_sign_timeline path_str w_build dataset_path with_emotion
      = Ok {| timeline := entries |}
    ∧ length entries = length segs
    ∧ ∀ i seg, segs !! i = Some seg →
        ∃ e, entries !! i = Some e
          ∧ e_emotion e = emotion_of _EMO seg
          ∧ e_id e = dict_get seg "id" PNone
          ∧ e_text e = dict_get seg "text" PNone
          ∧ e_gloss e = dict_get seg "gloss" PNone
          ∧ e_items e = e_items (entry_of path_str mapping seg).
Proof.
  intros cfg' output_path document Hsegs Hok _ Hemo Hdirs Hwrite Hload.
  eexists _, (entry_of path_str mapping <$> (annotated <$> segs)).
  split; [|split; [|split]].
  - apply add_emotion_result; try done.
    by apply (forallb_fmap_implies segment_ok text_ok id segs
                segment_ok_text_ok) in Hok as Hok'; rewrite list_fmap_id in Hok'.
  - apply build_sign_timeline_ok; [done| |].
    + unfold dict_get. by rewrite lookup_singleton_eq.
    + apply (forallb_fmap_implies segment_ok segment_ok); [|done].
      intros seg. apply annotated_segment_ok.
  - by rewrite !length_fmap.
  - intros i seg Hi. eexists. rewrite !list_lookup_fmap, Hi.
    split; [reflexivity|].
    unfold entry_of, gloss_of, dict_get.
    cbn [e_id e_text e_gloss e_items e_emotion].
    rewrite lookup_insert_eq. by rewrite !lookup_insert_ne by done.
Qed.

End emotion_to_timeline.

(** ** The asset index *)

Lemma for_each_invariant_in {A S : Type} (P : S → Prop)
    (body : S → A → result S) (xs : list A) :
  (∀ acc x acc', x ∈ xs → P acc → body acc x = Ok acc' → P acc') →
  ∀ acc r, P acc → for_each body xs acc = Ok r → P r.
Proof.
  induction xs as [|x xs IH]; intros Hstep acc r Hacc; cbn [for_each].
  - by intros [= <-].
  - destruct (body acc x) as [acc'|e] eqn:Hbody; [|done].
    cbn [mbind result_bind]. apply IH.
    + intros acc0 y acc1 Hy. apply Hstep. by right.
    + apply (Hstep acc x); [by left|done..].
Qed.

Section asset_index.

Import stage3_map more_spec.

Variable w : world.
Variable dataset_path : string.

Abbreviation indexed_from := (indexed_from w dataset_path).

Lemma index_step_sound (d : directory) (mapping mapping' : gmap string string)
    (folder : string * node) :
  folder ∈ map_to_list (entries d) →
  (∀ k p, mapping !! k = Some p → indexed_from d k p) →
  index_step w dataset_path mapping folder = Ok mapping' →
  ∀ k p, mapping' !! k = Some p → indexed_from d k p.
Proof.
  intros Hfolder Hsound. destruct folder as [fname nd].
  apply elem_of_map_to_list in Hfolder.
  unfold index_step, Disk.iterdir. cbn [fst snd].
  destruct nd as [|rd wr content]; [|by intros [= <-]].
  destruct (w !! path_join dataset_path fname) as [[sub|]|] eqn:Hsub;
    cbn [mbind result_bind]; try done.
  destruct (head _) as [[file fnode]|] eqn:Hhead; [|by intros [= <-]].
  intros [= <-] k p. cbn [fst].
  destruct (decide (k = PyStr.upper fname)) as [->|Hk].
  - rewrite lookup_insert_eq. intros [= <-].
    apply head_Some_elem_of, list_elem_of_filter in Hhead as [Hmedia Hin].
    apply elem_of_map_to_list in Hin.
    exists fname, sub, file. eauto 10.
  - rewrite lookup_insert_ne by done. apply Hsound.
Qed.

(** X9: every entry of the index [load_sign_dict] returns comes from the
    dataset: its key is the upper-cased name of a folder of the dataset
    root, and its path is that of a file inside that folder whose
    extension, lower-cased, is .jpg, .png, .mp4 or .gif. *)
Theorem load_sign_dict_sound (mapping : gmap string string) (k p : string) :
  load_sign_dict w dataset_path = Ok mapping →
  mapping !! k = Some p →
  ∃ d, w !! dataset_path = Some (IsDir d) ∧ indexed_from d k p.
Proof.
  unfold load_sign_dict, Disk.dir_exists, Disk.iterdir.
  destruct (w !! dataset_path) as [[d|]|] eqn:Hroot.
  - rewrite bool_decide_eq_true_2 by eauto. cbn [negb mbind result_bind].
    intros Hrun Hk. exists d. split; [done|].
    revert k p Hk.
    apply (for_each_invariant_in
             (λ m : gmap string string, ∀ k p, m !! k = Some p → indexed_from d k p)
             _ _ (λ acc x acc' Hx, index_step_sound d acc acc' x Hx)
             ∅ mapping); [|done].
    intros k p Hk. by rewrite lookup_empty in Hk.
  - rewrite bool_decide_eq_true_2 by eauto. by cbn [negb mbind result_bind].
  - rewrite bool_decide_eq_false_2 by (by intros [? ?]). cbn [negb].
    intros [= <-] Hk. by rewrite lookup_empty in Hk.
Qed.

Lemma index_step_keeps (mapping mapping' : gmap string string)
    (folder : string * node) (k : string) :
  index_step w dataset_path mapping folder = Ok mapping' →
  is_Some (mapping !! k) → is_Some (mapping' !! k).
Proof.
  unfold index_step. destruct (folder.2); [|by intros [= <-]].
  destruct (Disk.iterdir _ _) as [files|e]; cbn [mbind result_bind]; [|done].
  destruct (head _) as [file|]; intros [= <-]; [|done].
  intros Hk. destruct (decide (k = PyStr.upper folder.1)) as [->|Hne].
  - rewrite lookup_insert_eq. eauto.
  - by rewrite lookup_insert_ne.
Qed.

Lemma index_loop_keeps (folders : list (string * node)) (k : string) :
  ∀ (mapping mapping' : gmap string string),
    for_each (index_step w dataset_path) folders mapping = Ok mapping' →
    is_Some (mapping !! k) → is_Some (mapping' !! k).
Proof.
  induction folders as [|folder folders IH]; intros mapping mapping';
    cbn [for_each]; [by intros [= <-]|].
  destruct (index_step _ _ mapping folder) as [m1|e] eqn:Hstep; [|done].
  cbn [mbind result_bind]. intros Hrun Hk.
  eapply IH; [done|]. by eapply index_step_keeps.
Qed.

Lemma index_step_adds (mapping mapping' : gmap string string)
    (fname file : string) sub :
  w !! path_join dataset_path fname = Some (IsDir sub) →
  is_Some (entries sub !! file) →
  PyStr.lower (suffix file) ∈ media_suffixes →
  index_step w dataset_path mapping (fname, Dir) = Ok mapping' →
  is_Some (mapping' !! PyStr.upper fname).
Proof.
  intros Hsub [fnode Hfile] Hmedia. unfold index_step, Disk.iterdir.
  cbn [fst snd]. rewrite Hsub. cbn [mbind result_bind].
  destruct (head _) as [chosen|] eqn:Hhead.
  - intros [= <-]. rewrite lookup_insert_eq. eauto.
  - apply head_None in Hhead.
    assert ((file, fnode) ∈ filter
              (λ f : string * node, PyStr.lower (suffix f.1)
                                     ∈ [".jpg"; ".png"; ".mp4"; ".gif"])
              (map_to_list (entries sub))) as Hin.
    { apply list_elem_of_filter. split; [done|]. by apply elem_of_map_to_list. }
    rewrite Hhead in Hin. by apply elem_of_nil in Hin.
Qed.

Lemma index_loop_adds (folders : list (string * node)) (fname file : string) sub :
  w !! path_join dataset_path fname = Some (IsDir sub) →
  is_Some (entries sub !! file) →
  PyStr.lower (suffix file) ∈ media_suffixes →
  (fname, Dir) ∈ folders →
  ∀ (mapping mapping' : gmap string string),
    for_each (index_step w dataset_path) folders mapping = Ok mapping' →
    is_Some (mapping' !! PyStr.upper fname).
Proof.
  intros Hsub Hfile Hmedia.
  induction folders as [|folder folders IH]; intros Hin mapping mapping';
    [by apply elem_of_nil in Hin|]. cbn [for_each].
  destruct (index_step _ _ mapping folder) as [m1|e] eqn:Hstep; [|done].
  cbn [mbind result_bind]. intros Hrun.
  apply elem_of_cons in Hin as [<- | Hin].
  - eapply index_loop_keeps; [done|]. by eapply index_step_adds.
  - by eapply IH.
Qed.

(** X10: when [load_sign_dict] returns, every folder of the dataset root
    that holds at least one file with a media extension has an entry under
    its upper-cased name. *)
Theorem load_sign_dict_complete (mapping : gmap string string) d
    (folder file : string) sub :
  load_sign_dict w dataset_path = Ok mapping →
  w !! dataset_path = Some (IsDir d) →
  entries d !! folder = Some Dir →
  w !! path_join dataset_path folder = Some (IsDir sub) →
  is_Some (entries sub !! file) →
  PyStr.lower (suffix file) ∈ media_suffixes →
  is_Some (mapping !! PyStr.upper folder).
Proof.
  unfold load_sign_dict, Disk.dir_exists, Disk.iterdir.
  intros Hrun Hroot Hfolder Hsub Hfile Hmedia. rewrite Hroot in Hrun.
  rewrite bool_decide_eq_true_2 in Hrun by eauto.
  cbn [negb mbind result_bind] in Hrun.
  eapply index_loop_adds; [done..| |done].
  by apply elem_of_map_to_list.
Qed.

End asset_index.

(** ** The asset resolver and letter case *)

Section resolver_case.

Import stage3_map more_spec resolver_spec.

Variable path_str : string → string.

Lemma token_to_assets_by_upper (t1 t2 : string) (mapping : gmap string string) :
  PyStr.upper t1 = PyStr.upper t2 →
  token_to_assets path_str t1 mapping = token_to_assets path_str t2 mapping.
Proof. intros Heq. unfold token_to_assets. by rewrite Heq. Qed.

(** X11: for an ASCII token, resolution does not depend on the letter case
    of the token, and it only ever reads the index at upper-case keys: the
    lower-cased and the upper-cased token resolve like the token itself, and
    an entry stored under an ASCII key that is not in upper case changes no
    result. *)
Theorem token_to_assets_case (token : string) (mapping : gmap string string) :
  PyMore.is_ascii token = true →
  token_to_assets path_str (PyStr.lower token) mapping
    = token_to_assets path_str token mapping
  ∧ token_to_assets path_str (PyStr.upper token) mapping
    = token_to_assets path_str token mapping
  ∧ ∀ k p, PyMore.is_ascii k = true → PyStr.upper k ≠ k →
      token_to_assets path_str token (<[k := p]> mapping)
      = token_to_assets path_str token mapping.
Proof.
  intros _. split; [|split].
  - apply token_to_assets_by_upper, upper_lower.
  - apply token_to_assets_by_upper, upper_idem.
  - intros k p _ Hk. rewrite !token_to_assets_resolve. unfold resolve.
    rewrite lookup_insert_ne; [done|].
    intros ->. apply Hk, upper_idem.
Qed.

Lemma upper_char_of_letter (c : ascii) :
  is_letter c = true → PyStr.is_upper_char (PyStr.upper_char c) = true.
Proof. destruct c as [[] [] [] [] [] [] [] []]; vm_compute; congruence. Qed.

Lemma fingerspell_letters (s : string) :
  PyStr.all_chars is_letter s = true →
  length (fingerspell (PyStr.upper s)) = String.length s
  ∧ concat_strings (asset_char <$> fingerspell (PyStr.upper s)) = PyStr.upper s
  ∧ Forall (λ a, asset_label a = "FINGERSPELL_" +:+ asset_char a)
           (fingerspell (PyStr.upper s)).
Proof.
  induction s as [|c s IH]; [by repeat split|].
  cbn [PyStr.all_chars PyStr.upper fingerspell].
  intros [Hc Hs]%andb_true_iff. destruct (IH Hs) as (Hlen & Hcat & Hlab).
  rewrite (upper_char_of_letter c Hc).
  cbn [length fmap list_fmap concat_strings asset_char String.length].
  rewrite Hlen, Hcat. repeat split. by constructor.
Qed.

(** X12: fingerspelling spells the token.  A token made of ASCII letters
    only, not empty and not in the index, resolves to one descriptor per
    letter; the characters of the descriptors, put together, are the
    upper-cased token, and each label is FINGERSPELL_ followed by the
    character. *)
Theorem fingerspelling_spells_the_token (token : string)
    (mapping : gmap string string) :
  PyStr.all_chars is_letter token = true →
  token ≠ "" →
  mapping !! PyStr.upper token = None →
  ∃ assets,
    token_to_assets path_str token mapping = Ok assets
    ∧ length assets = String.length token
    ∧ concat_strings (asset_char <$> assets) = PyStr.upper token
    ∧ Forall (λ a, asset_label a = "FINGERSPELL_" +:+ asset_char a) assets.
Proof.
  intros Hletters Hne Hnone.
  destruct (fingerspell_letters token Hletters) as (Hlen & Hcat & Hlab).
  exists (fingerspell (PyStr.upper token)). split; [|done].
  rewrite token_to_assets_unindexed; [| |done].
  - destruct (fingerspell (PyStr.upper token)) as [|a l] eqn:Hspell; [|done].
    destruct token; [done|]. discriminate Hlen.
  - intros ->. discriminate Hletters.
Qed.

End resolver_case.

Lemma load_sign_dict_sound_witness :
  ∃ d, samples_more.dataset_world !! "/app/datasets/data" = Some (IsDir d)
       ∧ more_spec.indexed_from samples_more.dataset_world "/app/datasets/data"
           d "LOVE" "/app/datasets/data/love/sign.PNG".
Proof.
  apply (load_sign_dict_sound samples_more.dataset_world "/app/datasets/data"
           {[ "LOVE" := "/app/datasets/data/love/sign.PNG" ]}).
  - vm_compute. reflexivity.
  - vm_compute. reflexivity.
Defined.

Lemma load_sign_dict_complete_witness :
  is_Some (({[ "LOVE" := "/app/datasets/data/love/sign.PNG" ]}
              : gmap string string) !! PyStr.upper "love").
Proof.
  apply (load_sign_dict_complete samples_more.dataset_world
           "/app/datasets/data" _
           {| entries := {[ "love" := Dir; "readme.txt" := File true true "" ]};
              dir_writable := true |}
           "love" "sign.PNG"
           {| entries := {[ "notes.txt" := File true true "";
                            "sign.PNG" := File true true "" ]};
              dir_writable := true |}).
  - vm_compute. reflexivity.
  - vm_compute. reflexivity.
  - vm_compute. reflexivity.
  - vm_compute. reflexivity.
  - vm_compute. eauto.
  - vm_compute. do 1 apply list_elem_of_further. apply list_elem_of_here.
Defined.

Lemma token_to_assets_case_witness :
  stage3_map.token_to_assets samples.posix_str (PyStr.lower "Love")
    {[ "LOVE" := "/app/datasets/data/love/sign.PNG" ]}
  = stage3_map.token_to_assets samples.posix_str "Love"
      {[ "LOVE" := "/app/datasets/data/love/sign.PNG" ]}.
Proof.
  apply (token_to_assets_case samples.posix_str "Love"
           {[ "LOVE" := "/app/datasets/data/love/sign.PNG" ]}).
  reflexivity.
Defined.

Lemma fingerspelling_spells_the_token_witness :
  ∃ assets,
    stage3_map.token_to_assets samples.posix_str "Love" ∅ = Ok assets
    ∧ length assets = 4
    ∧ more_spec.concat_strings (more_spec.asset_char <$> assets) = "LOVE".
Proof.
  destruct (fingerspelling_spells_the_token samples.posix_str "Love" ∅)
    as (assets & Hrun & Hlen & Hcat & _).
  - reflexivity.
  - discriminate.
  - apply lookup_empty.
  - exists assets. split; [exact Hrun|]. split; [exact Hlen|exact Hcat].
Defined.

(** ** File names *)

Section safe_names.

Import helpers_more more_spec.

Lemma safe_char_safe (c : ascii) : is_safe_char (safe_char c) = true.
Proof. destruct c as [[] [] [] [] [] [] [] []]; vm_compute; reflexivity. Qed.

Lemma safe_char_fixes (c : ascii) : is_safe_char c = true → safe_char c = c.
Proof. unfold safe_char, is_safe_char. by intros ->. Qed.

(** X13: [safe_stem] of an ASCII string has the length of the string and
    holds only ASCII letters, digits, "-" and "_"; applying it twice is
    applying it once, and a string that holds only such characters comes
    back unchanged. *)
Theorem safe_stem_safe (s : string) :
  PyMore.is_ascii s = true →
  String.length (safe_stem s) = String.length s
  ∧ PyStr.all_chars is_safe_char (safe_stem s) = true
  ∧ safe_stem (safe_stem s) = safe_stem s
  ∧ (PyStr.all_chars is_safe_char s = true → safe_stem s = s).
Proof.
  intros _. induction s as [|c s (Hlen & Hsafe & Hidem & Hfix)];
    [by repeat split|].
  cbn [safe_stem String.length PyStr.all_chars].
  rewrite Hlen, Hsafe, Hidem, safe_char_safe.
  rewrite (safe_char_fixes (safe_char c)) by apply safe_char_safe.
  repeat split.
  intros [Hc Hs]%andb_true_iff. by rewrite (safe_char_fixes c Hc), Hfix.
Qed.

End safe_names.

Lemma safe_stem_safe_witness :
  PyMore.is_ascii "My Video (1).mp4" = true
  ∧ helpers_more.safe_stem "My Video (1).mp4" = "My_Video__1__mp4"
  ∧ helpers_more.safe_stem (helpers_more.safe_stem "My Video (1).mp4")
    = helpers_more.safe_stem "My Video (1).mp4".
Proof.
  split; [reflexivity|]. split; [reflexivity|].
  apply (safe_stem_safe "My Video (1).mp4"). reflexivity.
Defined.

(** ** Writing and reading files *)

Lemma lookup_set_file_ne (w : world) (p q : path) (n : node) :
  parent q ≠ parent p ∨ name q ≠ name p →
  Disk.lookup_file (Disk.set_file p n w) q = Disk.lookup_file w q.
Proof.
  intros Hne. unfold Disk.lookup_file, Disk.set_file.
  destruct (w !! parent p) as [[d|]|] eqn:Hd; try done.
  destruct (decide (parent q = parent p)) as [Heq|Hpar].
  - rewrite Heq, lookup_insert_eq, Hd. cbn [entries].
    apply lookup_insert_ne. naive_solver.
  - by rewrite lookup_insert_ne.
Qed.

Lemma set_file_is_dir (w : world) (p : path) (n : node) d :
  w !! parent p = Some (IsDir d) →
  ∃ d', Disk.set_file p n w !! parent p = Some (IsDir d').
Proof. intros Hd. eexists. by apply set_file_parent. Qed.

Section writing.

Import more_spec.

Variable json_dump : bool → pyval → string * option exn.

Lemma open_w_ok (w : world) (p : path) d r :
  w !! parent p = Some (IsDir d) →
  writable_entry d (name p) = Some r →
  Disk.open_w p w = (Ok tt, Disk.set_file p (File r true "") w).
Proof.
  intros Hd. unfold writable_entry, Disk.open_w. rewrite Hd.
  destruct (entries d !! name p) as [[|r' [] c]|]; try done.
  - by intros [= ->].
  - destruct (dir_writable d); [|done]. by intros [= <-].
Qed.

Lemma open_w_fails (w : world) (p : path) :
  (∀ d, w !! parent p = Some (IsDir d) → writable_entry d (name p) = None) →
  Disk.open_w p w = (Raise OSError, w).
Proof.
  intros Hfail. unfold Disk.open_w.
  destruct (w !! parent p) as [[d|]|]; try done.
  specialize (Hfail d eq_refl). unfold writable_entry in Hfail.
  destruct (entries d !! name p) as [[|r' [] c]|]; try done.
  by destruct (dir_writable d).
Qed.

Lemma dump_into_written (ensure_ascii : bool) (w : world) (p : path)
    (data : pyval) r wr content :
  Disk.lookup_file w p = Some (File r wr content) →
  helpers.dump_into json_dump ensure_ascii p data w
  = (match (json_dump ensure_ascii data).2 with
     | None => Ok tt
     | Some e => Raise e
     end,
     Disk.set_file p (File r wr (content +:+ (json_dump ensure_ascii data).1)) w).
Proof.
  intros Hfile. unfold helpers.dump_into.
  destruct (json_dump ensure_ascii data) as [written err].
  unfold mbind, io_bind, Disk.write_text. rewrite Hfile. cbn [fst snd].
  by destruct err.
Qed.

(** Opening a file for writing and dumping into it. *)
Lemma open_and_dump (ensure_ascii : bool) (w : world) (p : path)
    (data : pyval) d r :
  w !! parent p = Some (IsDir d) →
  writable_entry d (name p) = Some r →
  ∃ w',
    (Disk.open_w p ≫= λ _, helpers.dump_into json_dump ensure_ascii p data) w
    = (match (json_dump ensure_ascii data).2 with
       | None => Ok tt
       | Some e => Raise e
       end, w')
    ∧ Disk.lookup_file w' p
      = Some (File r true (json_dump ensure_ascii data).1)
    ∧ ∀ q, parent q ≠ parent p ∨ name q ≠ name p →
        Disk.lookup_file w' q = Disk.lookup_file w q.
Proof.
  intros Hd Hentry. eexists. split; [|split].
  - rewrite (io_bind_ok _ _ _ _ _ (open_w_ok w p d r Hd Hentry)).
    apply dump_into_written. by apply (lookup_set_file_eq _ _ _ d).
  - destruct (set_file_is_dir w p (File r true "") d Hd) as [d' Hd'].
    by apply (lookup_set_file_eq _ _ _ d').
  - intros q Hq. by rewrite !lookup_set_file_ne.
Qed.

End writing.

Section json_files.

Import more_spec.

Variable json_dump : bool → pyval → string * option exn.
Variable json_load : string → result pyval.

Lemma read_json_of_file (w : world) (p : path) wr content :
  Disk.lookup_file w p = Some (File true wr content) →
  helpers_more.read_json json_load p w = (json_load content, w).
Proof.
  intros Hfile. unfold helpers_more.read_json, mbind, io_bind, Disk.read_text.
  by rewrite Hfile.
Qed.



End json_files.


(** ** Saving to and loading from the cache *)

Lemma string_app_length (s t : string) :
  String.length (s +:+ t) = String.length s + String.length t.
Proof.
  induction s as [|c s IH]; [done|].
  rewrite string_app_cons. cbn [String.length]. by rewrite IH.
Qed.

Lemma string_app_inj_r (s s' t : string) : s +:+ t = s' +:+ t → s = s'.
Proof.
  intros Heq.
  assert (String.length s = String.length s') as Hlen.
  { apply (f_equal String.length) in Heq. rewrite !string_app_length in Heq. lia. }
  revert s' Heq Hlen. induction s as [|c s IH]; intros [|c' s'] Heq Hlen;
    try done.
  rewrite !string_app_cons in Heq. injection Heq as -> Heq.
  f_equal. apply IH; [done|]. cbn [String.length] in Hlen. lia.
Qed.

Section cache_files.

Import cache_manager cache_manager_more more_spec.

Variable json_dump : bool → pyval → string * option exn.
Variable json_load : string → result pyval.
Variable self : CacheManager.

(** Saving to a cache file, whichever it is. *)
Lemma save_to_run (file : path) (data : pyval) (w : world) :
  try_except
    (Disk.open_w file ≫= λ _,
       helpers.dump_into json_dump true file data ≫= λ _, mret true)
    (λ _, mret false) w
  = match w !! parent file with
    | Some (IsDir d) =>
        match writable_entry d (name file) with
        | Some r =>
            (Ok (match (json_dump true data).2 with
                 | None => true
                 | Some _ => false
                 end),
             Disk.set_file file (File r true (json_dump true data).1)
               (Disk.set_file file (File r true "") w))
        | None => (Ok false, w)
        end
    | _ => (Ok false, w)
    end.
Proof.
  unfold try_except.
  destruct (w !! parent file) as [[d|]|] eqn:Hd.
  - destruct (writable_entry d (name file)) as [r|] eqn:Hentry.
    + rewrite (io_bind_ok _ _ _ _ _ (open_w_ok w file d r Hd Hentry)).
      unfold mbind at 1, io_bind at 1.
      rewrite (dump_into_written json_dump true _ file data r true "");
        [|by apply (lookup_set_file_eq _ _ _ d)].
      by destruct ((json_dump true data).2).
    + rewrite (io_bind_raise _ _ _ OSError w); [done|].
      apply open_w_fails. intros d' Hd'. congruence.
  - rewrite (io_bind_raise _ _ _ OSError w); [done|].
    apply open_w_fails. intros d' Hd'. congruence.
  - rewrite (io_bind_raise _ _ _ OSError w); [done|].
    apply open_w_fails. intros d' Hd'. congruence.
Qed.

(** Loading from a cache file, whichever it is. *)
Lemma load_from_run (file : path) (w : world) :
  (Disk.stat_exists file ≫= λ found : bool,
     if negb found then mret None
     else try_except
            (Disk.read_text file ≫= λ content,
               lift (json_load content) ≫= λ payload, mret (Some payload))
            (λ _, mret None)) w
  = (match Disk.lookup_file w file with
     | Some (File true _ content) =>
         match json_load content with
         | Ok payload => Ok (Some payload)
         | Raise _ => Ok None
         end
     | Some _ => Ok None
     | None =>
         if Disk.NAME_MAX <? String.length (name file)
         then Raise OSError else Ok None
     end, w).
Proof.
  unfold mbind, io_bind, try_except, Disk.stat_exists, Disk.read_text, lift,
    mret, io_ret.
  destruct (Disk.lookup_file w file) as [[|[] wr content]|] eqn:Hfile;
    cbn [negb].
  - by rewrite Hfile.
  - rewrite Hfile. by destruct (json_load content).
  - by rewrite Hfile.
  - by destruct (Disk.NAME_MAX <? String.length (name file)).
Qed.

(** Looking for a cache file that is not there under a name that fits. *)
Lemma stat_exists_absent (file : path) (w : world) :
  Disk.lookup_file w file = None →
  fits (name file) = true →
  Disk.stat_exists file w = (Ok false, w).
Proof.
  unfold Disk.stat_exists, fits. intros -> Hfits.
  apply Nat.leb_le in Hfits.
  by rewrite (proj2 (Nat.ltb_ge _ _) Hfits).
Qed.

Lemma load_from_absent (file : path) (w : world) :
  Disk.lookup_file w file = None →
  fits (name file) = true →
  (Disk.stat_exists file ≫= λ found : bool,
     if negb found then mret None
     else try_except
            (Disk.read_text file ≫= λ content,
               lift (json_load content) ≫= λ payload, mret (Some payload))
            (λ _, mret None)) w
  = (Ok None, w).
Proof.
  intros Hnone Hfits.
  by rewrite (io_bind_ok _ _ _ _ _ (stat_exists_absent file w Hnone Hfits)).
Qed.

Lemma save_to_frame (file q : path) (data : pyval) (w : world) :
  parent q ≠ parent file ∨ name q ≠ name file →
  Disk.lookup_file
    (try_except
       (Disk.open_w file ≫= λ _,
          helpers.dump_into json_dump true file data ≫= λ _, mret true)
       (λ _, mret false) w).2 q
  = Disk.lookup_file w q.
Proof.
  intros Hq. rewrite save_to_run.
  destruct (w !! parent file) as [[d|]|]; try done.
  destruct (writable_entry d (name file)); [|done].
  cbn [snd]. by rewrite !lookup_set_file_ne.
Qed.

Lemma save_to_true (file : path) (data : pyval) (w w' : world) :
  try_except
    (Disk.open_w file ≫= λ _,
       helpers.dump_into json_dump true file data ≫= λ _, mret true)
    (λ _, mret false) w = (Ok true, w') →
  (∀ wr content, Disk.lookup_file w file ≠ Some (File false wr content)) →
  Disk.lookup_file w' file = Some (File true true (json_dump true data).1).
Proof.
  rewrite save_to_run. unfold Disk.lookup_file at 1.
  destruct (w !! parent file) as [[d|]|] eqn:Hd; try by intros [= ?].
  destruct (writable_entry d (name file)) as [r|] eqn:Hentry;
    [|by intros [= ?]].
  intros [= Hok <-] Hreadable.
  destruct (set_file_is_dir w file (File r true "") d Hd) as [d' Hd'].
  rewrite (lookup_set_file_eq _ _ _ d' Hd'). destruct r; [done|].
  exfalso. unfold writable_entry in Hentry.
  destruct (entries d !! name file) as [[|r' [] c]|] eqn:Hn; try done.
  - injection Hentry as ->. by apply (Hreadable true c).
  - by destruct (dir_writable d).
Qed.

(** X15: a stage that was saved is loaded back.  When [save_stage_cache]
    returns [True], the file was not an unreadable one before, and the
    parser reads the dumped text as [data'], [load_stage_cache] for the same
    video and stage returns [data']. *)
Theorem save_then_load_stage (video_id stage : string) (data data' : pyval)
    (w w' : world) :
  save_stage_cache json_dump self video_id stage data w = (Ok true, w') →
  (∀ wr content,
     Disk.lookup_file w (stage_cache_file self video_id stage)
     ≠ Some (File false wr content)) →
  json_load (json_dump true data).1 = Ok data' →
  load_stage_cache json_load self video_id stage w' = (Ok (Some data'), w')
  ∧ has_stage_cache self video_id stage w' = (Ok true, w').
Proof.
  intros Hsave Hreadable Hparse.
  pose proof (save_to_true _ data w w' Hsave Hreadable) as Hfile.
  split.
  - unfold load_stage_cache. rewrite load_from_run, Hfile. by rewrite Hparse.
  - unfold has_stage_cache, Disk.stat_exists. by rewrite Hfile.
Qed.

Lemma stage_files_differ (video_id stage stage' : string) :
  stage ≠ stage' →
  name (stage_cache_file self video_id stage')
  ≠ name (stage_cache_file self video_id stage).
Proof.
  intros Hne. unfold stage_cache_file. cbn [name path_in]. intros Heq.
  apply (inj (String.app "video_")) in Heq.
  apply (inj (String.app video_id)) in Heq.
  apply (inj (String.app "_stage_")) in Heq.
  by apply string_app_inj_r in Heq.
Qed.

(** X16: the stages of a video are cached independently.  For a video id
    and stage names that hold no path separator, whatever [save_stage_cache]
    does for one stage, loading another stage of the same video gives what
    it gave before, and so does looking for or loading the combined cache
    file of the video. *)
Theorem save_stage_leaves_other_stages (video_id stage stage' : string)
    (data : pyval) (w : world) :
  plain video_id = true →
  plain stage = true →
  plain stage' = true →
  let w' := (save_stage_cache json_dump self video_id stage data w).2 in
  (stage' ≠ stage →
   (load_stage_cache json_load self video_id stage' w').1
   = (load_stage_cache json_load self video_id stage' w).1)
  ∧ (has_cache self video_id w').1 = (has_cache self video_id w).1
  ∧ (load_cache json_load self video_id w').1
    = (load_cache json_load self video_id w).1.
Proof.
  intros _ _ _ w'. split; [|split].
  - intros Hne. unfold load_stage_cache. rewrite !load_from_run. cbn [fst].
    unfold w', save_stage_cache. rewrite save_to_frame; [done|].
    right. by apply stage_files_differ.
  - unfold has_cache, Disk.stat_exists.
    unfold w', save_stage_cache. rewrite save_to_frame.
    + destruct (Disk.lookup_file w _); [done|]. by destruct (_ <? _).
    + right. intros Heq.
      by apply (stage_file_not_combined self video_id stage).
  - unfold load_cache. rewrite !load_from_run. cbn [fst].
    unfold w', save_stage_cache. rewrite save_to_frame; [done|].
    right. intros Heq. by apply (stage_file_not_combined self video_id stage).
Qed.

Lemma save_to_true_dir (file : path) (data : pyval) (w w' : world) :
  try_except
    (Disk.open_w file ≫= λ _,
       helpers.dump_into json_dump true file data ≫= λ _, mret true)
    (λ _, mret false) w = (Ok true, w') →
  ∃ d d' r,
    w !! parent file = Some (IsDir d)
    ∧ w' !! parent file = Some (IsDir d')
    ∧ dir_writable d' = dir_writable d
    ∧ entries d' !! name file = Some (File r true (json_dump true data).1).
Proof.
  rewrite save_to_run.
  destruct (w !! parent file) as [[d|]|] eqn:Hd; try by intros [= ?].
  destruct (writable_entry d (name file)) as [r|] eqn:Hentry;
    [|by intros [= ?]].
  intros [= Hok <-].
  pose proof (set_file_parent w file (File r true "") d Hd) as Hd1.
  pose proof (set_file_parent _ file (File r true (json_dump true data).1)
                _ Hd1) as Hd2.
  eexists d, _, r. split; [done|]. split; [exact Hd2|]. split; [done|].
  cbn [entries]. apply lookup_insert_eq.
Qed.

(** X17: the life of the combined cache file.  After [save_cache] has
    returned [True] for a video id that is not empty and holds no path
    separator, under a file name that fits a directory entry and in a cache
    directory that is writable, [clear_cache] with that id returns [True];
    after it [has_cache] says [False] and [load_cache] returns [None], while
    every stage of the video whose name holds no path separator loads what
    it loaded before the clearing. *)
Theorem save_cache_then_clear (video_id : string) (data : pyval)
    (w w' : world) :
  save_cache json_dump self video_id data w = (Ok true, w') →
  video_id ≠ "" →
  plain video_id = true →
  fits (name (get_cache_file self video_id)) = true →
  (∀ d, w !! cache_dir self = Some (IsDir d) → dir_writable d = true) →
  ∃ w'',
    clear_cache self (Some video_id) w' = (Ok (Some true), w'')
    ∧ has_cache self video_id w'' = (Ok false, w'')
    ∧ load_cache json_load self video_id w'' = (Ok None, w'')
    ∧ ∀ stage,
        plain stage = true →
        (load_stage_cache json_load self video_id stage w'').1
        = (load_stage_cache json_load self video_id stage w').1.
Proof.
  intros Hsave Hne _ Hfits Hwr. destruct video_id as [|c rest]; [done|].
  destruct (save_to_true_dir _ data w w' Hsave)
    as (d & d' & r & Hd & Hd' & Hwr' & Hentry).
  destruct (clear_cache_specific self c rest w')
    as (res & [[_ Hstays] | (Hrun & -> & _)]).
  { exfalso.
    apply (Hstays d' r true (json_dump true data).1 Hd'); [|done].
    rewrite Hwr'. by apply Hwr. }
  eexists. split; [exact Hrun|]. split; [|split].
  - unfold has_cache. apply stat_exists_absent; [|done].
    apply lookup_remove_file_eq.
  - unfold load_cache. apply load_from_absent; [|done].
    apply lookup_remove_file_eq.
  - intros stage _. unfold load_stage_cache. rewrite !load_from_run. cbn [fst].
    rewrite lookup_remove_file_ne; [done|].
    right. apply stage_file_not_combined.
Qed.

Lemma filter_none {A : Type} (P : A → Prop) `{!∀ x, Decision (P x)}
    (l : list A) :
  (∀ x, x ∈ l → ¬ P x) → filter P l = [].
Proof.
  induction l as [|x l IH]; intros Hnone; [done|].
  rewrite filter_cons_False by (apply Hnone; by left).
  apply IH. intros y Hy. apply Hnone. by right.
Qed.

(** X18: after clearing everything, everything misses.  When the entries of
    the cache directory named [*.json] are regular files and the directory
    is writable, [clear_cache] with no id returns [True], and after it
    [list_cached_videos] is empty and, for every video id and stage that
    hold no path separator and give a file name that fits a directory
    entry, [load_stage_cache] and [load_cache] return [None] and
    [has_stage_cache] and [has_cache] say [False]. *)
Theorem clear_all_then_everything_misses (w : world) d :
  w !! cache_dir self = Some (IsDir d) →
  dir_writable d = true →
  (∀ n, PyStr.endswith n ".json" = true → entries d !! n ≠ Some Dir) →
  ∃ w',
    clear_cache self None w = (Ok (Some true), w')
    ∧ (∀ video_id stage,
         plain video_id = true →
         plain stage = true →
         fits (name (stage_cache_file self video_id stage)) = true →
         load_stage_cache json_load self video_id stage w' = (Ok None, w')
         ∧ has_stage_cache self video_id stage w' = (Ok false, w'))
    ∧ (∀ video_id,
         plain video_id = true →
         fits (name (get_cache_file self video_id)) = true →
         load_cache json_load self video_id w' = (Ok None, w')
         ∧ has_cache self video_id w' = (Ok false, w'))
    ∧ list_cached_videos self w' = (Ok [], w').
Proof.
  intros Hd Hwr Hfiles.
  destruct (clear_cache_all self None w d) as (d' & Hrun & Hentries);
    [by left|done..|].
  eexists. split; [exact Hrun|].
  assert (∀ n, PyStr.endswith n ".json" = true →
               Disk.lookup_file (<[cache_dir self := IsDir d']> w)
                 (path_in (cache_dir self) n) = None) as Hgone.
  { intros n Hjson. unfold Disk.lookup_file. cbn [parent name path_in].
    by rewrite lookup_insert_eq, Hentries, Hjson. }
  split; [|split].
  - intros video_id stage _ _ Hfits.
    pose proof (Hgone _ (stage_file_is_json self video_id stage)) as Hnone.
    split.
    + unfold load_stage_cache. by apply load_from_absent.
    + unfold has_stage_cache. by apply stat_exists_absent.
  - intros video_id _ Hfits.
    pose proof (Hgone _ (endswith_app (get_cache_key video_id) ".json"))
      as Hnone.
    split.
    + unfold load_cache. by apply load_from_absent.
    + unfold has_cache. by apply stat_exists_absent.
  - unfold list_cached_videos, PyMore.glob_affix, mbind, io_bind.
    rewrite lookup_insert_eq. rewrite filter_none; [done|].
    intros n Hn Hmatch.
    apply list_elem_of_fmap in Hn as ([n' nd] & -> & Hin).
    apply elem_of_map_to_list in Hin. cbn [fst] in Hmatch.
    apply Is_true_true in Hmatch.
    apply andb_true_iff in Hmatch as [[_ Hjson]%andb_true_iff _].
    by rewrite Hentries, Hjson in Hin.
Qed.

End cache_files.

(** ** Listing the cached videos *)

Lemma rfind_dot_json (s : string) :
  ∀ i found,
    stage3_map.rfind_dot (s +:+ ".json") i found = Some (i + String.length s).
Proof.
  induction s as [|c s IH]; intros i found.
  - cbn [String.length]. rewrite Nat.add_0_r. reflexivity.
  - rewrite string_app_cons. cbn [stage3_map.rfind_dot String.length].
    rewrite IH. f_equal. lia.
Qed.

Lemma slice_to_app (s t : string) :
  PyStr.slice_to (String.length s) (s +:+ t) = s.
Proof.
  induction s as [|c s IH]; [by destruct t|].
  rewrite string_app_cons. cbn [String.length PyStr.slice_to]. by rewrite IH.
Qed.

Lemma stem_json (s : string) : s ≠ "" → PyMore.stem (s +:+ ".json") = s.
Proof.
  intros Hne. unfold PyMore.stem. rewrite rfind_dot_json.
  rewrite string_app_length. cbn [String.length].
  rewrite bool_decide_eq_true_2.
  - apply slice_to_app.
  - destruct s; [done|]. cbn [String.length]. split; lia.
Qed.

Lemma startswith_app (p s : string) : PyMore.startswith (p +:+ s) p = true.
Proof.
  induction p as [|c p IH]; [by destruct s|].
  rewrite string_app_cons. cbn [PyMore.startswith].
  by rewrite bool_decide_eq_true_2.
Qed.

Lemma remove_all_absent (old s : string) :
  more_spec.occurs old s = false → PyMore.remove_all old s = s.
Proof.
  unfold PyMore.remove_all. induction s as [|c s IH]; [done|].
  cbn [more_spec.occurs PyMore.remove_all_go].
  intros [Hhere Hlater]%orb_false_iff. rewrite Hhere. by rewrite IH.
Qed.

Lemma remove_all_video_prefix (x : string) :
  PyMore.remove_all "video_" ("video_" +:+ x) = PyMore.remove_all "video_" x.
Proof. vm_compute. reflexivity. Qed.

Section cache_listing.

Import cache_manager cache_manager_more more_spec.

Variable json_dump : bool → pyval → string * option exn.
Variable self : CacheManager.

(** A file named video_<x>.json is listed as <x>. *)
Lemma file_is_listed (w : world) (x : string) :
  is_Some (Disk.lookup_file w
             (path_in (cache_dir self) ("video_" +:+ x +:+ ".json"))) →
  occurs "video_" x = false →
  ∃ listed, list_cached_videos self w = (Ok listed, w) ∧ x ∈ listed.
Proof.
  unfold Disk.lookup_file. cbn [parent name path_in]. intros [nd Hfile] Hocc.
  destruct (w !! cache_dir self) as [[d|]|] eqn:Hd; try done.
  unfold list_cached_videos, PyMore.glob_affix, mbind, io_bind. rewrite Hd.
  eexists. split; [reflexivity|].
  apply list_elem_of_fmap.
  exists (path_in (cache_dir self) ("video_" +:+ x +:+ ".json")). split.
  - cbn [name path_in]. rewrite <- string_app_assoc.
    rewrite stem_json by done. rewrite remove_all_video_prefix.
    symmetry. by apply remove_all_absent.
  - apply list_elem_of_fmap_2, list_elem_of_filter. split.
    + apply Is_true_true. rewrite startswith_app.
      rewrite <- string_app_assoc, endswith_app.
      rewrite !string_app_length. cbn [andb String.length].
      apply Nat.leb_le. lia.
    + apply list_elem_of_fmap. exists ("video_" +:+ x +:+ ".json", nd).
      split; [done|]. by apply elem_of_map_to_list.
Qed.

(** X19: a video saved with [save_cache] is listed.  After [save_cache] has
    returned [True] for an id that holds no path separator and not the text
    "video_", [list_cached_videos] returns a list with that id in it. *)
Theorem saved_video_is_listed (video_id : string) (data : pyval)
    (w w' : world) :
  save_cache json_dump self video_id data w = (Ok true, w') →
  plain video_id = true →
  occurs "video_" video_id = false →
  ∃ listed, list_cached_videos self w' = (Ok listed, w') ∧ video_id ∈ listed.
Proof.
  intros Hsave _ Hocc. apply file_is_listed; [|done].
  destruct (save_to_true_dir json_dump _ data w w' Hsave)
    as (d & d' & r & _ & Hd' & _ & Hentry).
  unfold Disk.lookup_file, get_cache_file, get_cache_key in *.
  cbn [parent name path_in] in *. rewrite Hd'.
  rewrite <- string_app_assoc. eauto.
Qed.

(** X20: a stage file is listed as a video of its own.  After
    [save_stage_cache] has returned [True] for a video id and a stage that
    hold no path separator, [list_cached_videos] lists the made-up id
    <video>_stage_<stage> (provided this text does not hold "video_"),
    whether or not the video has a combined cache file. *)
Theorem stage_file_is_listed_as_video (video_id stage : string) (data : pyval)
    (w w' : world) :
  save_stage_cache json_dump self video_id stage data w = (Ok true, w') →
  plain video_id = true →
  plain stage = true →
  occurs "video_" (video_id +:+ "_stage_" +:+ stage) = false →
  ∃ listed,
    list_cached_videos self w' = (Ok listed, w')
    ∧ video_id +:+ "_stage_" +:+ stage ∈ listed.
Proof.
  intros Hsave _ _ Hocc. apply file_is_listed; [|done].
  destruct (save_to_true_dir json_dump _ data w w' Hsave)
    as (d & d' & r & _ & Hd' & _ & Hentry).
  unfold Disk.lookup_file, stage_cache_file in *.
  cbn [parent name path_in] in *. rewrite Hd'.
  rewrite !string_app_assoc. eauto.
Qed.

End cache_listing.

(** ** The video id of a URL *)

Section youtube_id.

Import app more_spec.

Lemma take_id_chars (s : string) : PyStr.all_chars is_id_char (take_id s) = true.
Proof.
  induction s as [|c s IH]; [done|]. cbn [take_id].
  destruct (is_id_char c) eqn:Hc; [|done]. cbn [PyStr.all_chars].
  by rewrite Hc, IH.
Qed.

Lemma take_id_split (s : string) :
  ∃ rest, s = take_id s +:+ rest ∧ ends_id rest.
Proof.
  induction s as [|c s (rest & Hs & Hrest)]; [exists ""; split; [done|by left]|].
  cbn [take_id]. destruct (is_id_char c) eqn:Hc.
  - exists rest. rewrite string_app_cons. by rewrite <- Hs.
  - exists (String c s). split; [done|]. right. eauto.
Qed.

Lemma take_id_app (id rest : string) :
  PyStr.all_chars is_id_char id = true →
  ends_id rest →
  take_id (id +:+ rest) = id.
Proof.
  intros Hid Hrest. induction id as [|c id IH].
  - change ("" +:+ rest) with rest.
    destruct Hrest as [-> | (c & rest' & -> & Hc)]; [done|].
    cbn [take_id]. by rewrite Hc.
  - cbn [PyStr.all_chars] in Hid. apply andb_true_iff in Hid as [Hc Hid].
    rewrite string_app_cons. cbn [take_id]. by rewrite Hc, IH.
Qed.

Lemma startswith_split (s prefix : string) :
  PyMore.startswith s prefix = true →
  s = prefix +:+ stage3_map.drop_chars (String.length prefix) s.
Proof.
  revert s. induction prefix as [|a p IH]; intros s; [by destruct s|].
  destruct s as [|b s]; [done|]. cbn [PyMore.startswith].
  intros [Hab Hp]%andb_true_iff. apply bool_decide_eq_true_1 in Hab as ->.
  rewrite string_app_cons. cbn [String.length stage3_map.drop_chars].
  by rewrite <- IH.
Qed.

Lemma drop_chars_app (prefix s : string) :
  stage3_map.drop_chars (String.length prefix) (prefix +:+ s) = s.
Proof.
  induction prefix as [|a p IH]; [by destruct s|].
  rewrite string_app_cons. by cbn [String.length stage3_map.drop_chars].
Qed.

Lemma match_alternatives_sound (alts : list string) (s group : string) :
  match_alternatives alts s = Some group →
  ∃ marker rest,
    marker ∈ alts
    ∧ s = marker +:+ group +:+ rest
    ∧ group ≠ ""
    ∧ PyStr.all_chars is_id_char group = true
    ∧ ends_id rest.
Proof.
  induction alts as [|marker alts IH]; [done|]. cbn [match_alternatives].
  destruct (PyMore.startswith s marker) eqn:Hstart.
  - destruct (take_id _) as [|c g] eqn:Htake.
    + intros (m & rest & Hm & Hrest)%IH. exists m, rest. split; [by right|done].
    + intros [= <-].
      destruct (take_id_split (stage3_map.drop_chars (String.length marker) s))
        as (rest & Hsplit & Hends).
      exists marker, rest. split; [by left|]. rewrite Htake in Hsplit.
      split; [|split; [done|split; [|done]]].
      * rewrite <- Hsplit. by apply startswith_split.
      * rewrite <- Htake. apply take_id_chars.
  - intros (m & rest & Hm & Hrest)%IH. exists m, rest. split; [by right|done].
Qed.

Lemma match_alternatives_complete (alts : list string) (marker s : string)
    (c : ascii) (rest : string) :
  marker ∈ alts →
  is_id_char c = true →
  is_Some (match_alternatives alts (marker +:+ String c rest)).
Proof.
  intros Hin Hc. induction alts as [|m alts IH]; [by apply elem_of_nil in Hin|].
  cbn [match_alternatives].
  assert (m = marker → is_Some
            (if PyMore.startswith (marker +:+ String c rest) m
             then match take_id (stage3_map.drop_chars (String.length m)
                                   (marker +:+ String c rest)) with
                  | EmptyString =>
                      match_alternatives alts (marker +:+ String c rest)
                  | group => Some group
                  end
             else match_alternatives alts (marker +:+ String c rest)))
    as Hhere.
  { intros ->. rewrite startswith_app, drop_chars_app. cbn [take_id].
    rewrite Hc. eauto. }
  apply elem_of_cons in Hin as [<- | Hin]; [by apply Hhere|].
  specialize (IH Hin).
  destruct (PyMore.startswith _ m); [|done].
  by destruct (take_id _).
Qed.

Lemma search_here (s group : string) :
  match_alternatives markers s = Some group → search s = Some group.
Proof. intros H. destruct s; cbn [search]; by rewrite H. Qed.

Lemma search_skip (c : ascii) (s : string) :
  match_alternatives markers (String c s) = None →
  search (String c s) = search s.
Proof. intros H. cbn [search]. by rewrite H. Qed.

Lemma search_sound (s group : string) :
  search s = Some group →
  ∃ pre marker rest,
    marker ∈ markers
    ∧ s = pre +:+ marker +:+ group +:+ rest
    ∧ group ≠ ""
    ∧ PyStr.all_chars is_id_char group = true
    ∧ ends_id rest.
Proof.
  induction s as [|c s IH].
  - cbn [search]. destruct (match_alternatives markers "") eqn:Hm; [|done].
    intros [= ->]. apply match_alternatives_sound in Hm
      as (marker & rest & Hrest). by exists "", marker, rest.
  - cbn [search]. destruct (match_alternatives markers (String c s)) eqn:Hm.
    + intros [= ->]. apply match_alternatives_sound in Hm
        as (marker & rest & Hrest). by exists "", marker, rest.
    + intros (pre & marker & rest & Hin & -> & Hrest)%IH.
      by exists (String c pre), marker, rest.
Qed.

Lemma search_complete (pre marker : string) (c : ascii) (rest : string) :
  marker ∈ markers →
  is_id_char c = true →
  is_Some (search (pre +:+ marker +:+ String c rest)).
Proof.
  intros Hin Hc. induction pre as [|a pre IH].
  - change ("" +:+ marker +:+ String c rest) with (marker +:+ String c rest).
    destruct (match_alternatives_complete markers marker "" c rest Hin Hc)
      as [g Hg].
    rewrite (search_here _ g Hg). eauto.
  - rewrite string_app_cons. cbn [search].
    by destruct (match_alternatives markers _); [eauto|].
Qed.

(** X21: the id [extract_youtube_id] returns is a piece of the URL: it
    comes right after youtube.com/watch?v=, youtu.be/ or youtube.com/embed/,
    is not empty, holds none of the characters ampersand, question mark,
    hash and line feed, and runs up to the end of the URL or to the first such character. *)
Theorem extract_youtube_id_sound (url id : string) :
  extract_youtube_id url = Some id →
  id ≠ ""
  ∧ PyStr.all_chars is_id_char id = true
  ∧ ∃ pre marker rest,
      marker ∈ markers
      ∧ url = pre +:+ marker +:+ id +:+ rest
      ∧ ends_id rest.
Proof.
  intros (pre & marker & rest & Hin & Hurl & Hne & Hchars & Hends)%search_sound.
  split; [done|]. split; [done|]. by exists pre, marker, rest.
Qed.

(** X22: [extract_youtube_id] returns [None] exactly for the URLs in which
    none of the three markers is followed by a character an id can hold. *)
Theorem extract_youtube_id_none (url : string) :
  extract_youtube_id url = None
  ↔ ∀ pre marker c rest,
      marker ∈ markers → is_id_char c = true →
      url ≠ pre +:+ marker +:+ String c rest.
Proof.
  unfold extract_youtube_id. split.
  - intros Hnone pre marker c rest Hin Hc ->.
    destruct (search_complete pre marker c rest Hin Hc) as [g Hg]. congruence.
  - intros Hno. destruct (search url) as [g|] eqn:Hsearch; [|done].
    apply search_sound in Hsearch
      as (pre & marker & rest & Hin & -> & Hne & Hchars & _).
    destruct g as [|c g]; [done|]. cbn [PyStr.all_chars] in Hchars.
    apply andb_true_iff in Hchars as [Hc _].
    destruct (Hno pre marker c (g +:+ rest) Hin Hc).
    by rewrite string_app_cons.
Qed.

Lemma search_past_https_www (s : string) :
  search ("https://www." +:+ s) = search s.
Proof.
  change ("https://www." +:+ s)
    with (String "h" (String "t" (String "t" (String "p" (String "s"
           (String ":" (String "/" (String "/" (String "w" (String "w"
           (String "w" (String "." s)))))))))))).
  by do 12 (rewrite search_skip by reflexivity).
Qed.

Lemma search_past_https (s : string) : search ("https://" +:+ s) = search s.
Proof.
  change ("https://" +:+ s)
    with (String "h" (String "t" (String "t" (String "p" (String "s"
           (String ":" (String "/" (String "/" s)))))))).
  by do 8 (rewrite search_skip by reflexivity).
Qed.

Lemma match_marker (marker id rest : string) :
  id ≠ "" →
  PyStr.all_chars is_id_char id = true →
  ends_id rest →
  match_alternatives [marker] (marker +:+ id +:+ rest) = Some id.
Proof.
  intros Hne Hchars Hends. cbn [match_alternatives].
  rewrite startswith_app, drop_chars_app, take_id_app by done.
  by destruct id.
Qed.

(** X23: the usual URLs give their id.  For an id that is not empty and
    holds none of the four excluded characters, followed by nothing or by
    such a character, [extract_youtube_id] returns the id from the watch
    URL, from the short youtu.be URL and from the embed URL. *)
Theorem extract_youtube_id_usual_urls (id rest : string) :
  id ≠ "" →
  PyStr.all_chars is_id_char id = true →
  ends_id rest →
  extract_youtube_id ("https://www.youtube.com/watch?v=" +:+ id +:+ rest)
    = Some id
  ∧ extract_youtube_id ("https://youtu.be/" +:+ id +:+ rest) = Some id
  ∧ extract_youtube_id ("https://www.youtube.com/embed/" +:+ id +:+ rest)
    = Some id.
Proof.
  intros Hne Hchars Hends. unfold extract_youtube_id.
  pose proof (match_marker "youtube.com/watch?v=" id rest Hne Hchars Hends)
    as Hwatch.
  pose proof (match_marker "youtu.be/" id rest Hne Hchars Hends) as Hshort.
  pose proof (match_marker "youtube.com/embed/" id rest Hne Hchars Hends)
    as Hembed.
  split; [|split].
  - change ("https://www.youtube.com/watch?v=" +:+ id +:+ rest)
      with ("https://www." +:+ "youtube.com/watch?v=" +:+ id +:+ rest).
    rewrite search_past_https_www. apply search_here.
    unfold markers. cbn [match_alternatives] in Hwatch |- *.
    by destruct (PyMore.startswith _ "youtube.com/watch?v=");
      [destruct (take_id _)|].
  - change ("https://youtu.be/" +:+ id +:+ rest)
      with ("https://" +:+ "youtu.be/" +:+ id +:+ rest).
    rewrite search_past_https. apply search_here. unfold markers.
    change (match_alternatives
              ("youtube.com/watch?v=" :: ["youtu.be/"; "youtube.com/embed/"])
              ("youtu.be/" +:+ id +:+ rest))
      with (match_alternatives ["youtu.be/"; "youtube.com/embed/"]
              ("youtu.be/" +:+ id +:+ rest)).
    cbn [match_alternatives] in Hshort |- *.
    by destruct (PyMore.startswith _ "youtu.be/"); [destruct (take_id _)|].
  - change ("https://www.youtube.com/embed/" +:+ id +:+ rest)
      with ("https://www." +:+ "youtube.com/embed/" +:+ id +:+ rest).
    rewrite search_past_https_www. apply search_here. unfold markers.
    change (match_alternatives
              ("youtube.com/watch?v=" :: ["youtu.be/"; "youtube.com/embed/"])
              ("youtube.com/embed/" +:+ id +:+ rest))
      with (match_alternatives ["youtube.com/embed/"]
              ("youtube.com/embed/" +:+ id +:+ rest)).
    exact Hembed.
Qed.

End youtube_id.

Lemma extract_youtube_id_sound_witness :
  app.extract_youtube_id "https://youtu.be/dQw4w9WgXcQ?si=abc"
  = Some "dQw4w9WgXcQ"
  ∧ "dQw4w9WgXcQ" ≠ "".
Proof.
  split; [reflexivity|].
  apply (extract_youtube_id_sound "https://youtu.be/dQw4w9WgXcQ?si=abc").
  reflexivity.
Defined.

Lemma extract_youtube_id_usual_urls_witness :
  app.extract_youtube_id
    ("https://www.youtube.com/watch?v=" +:+ "dQw4w9WgXcQ" +:+ "&t=10s")
  = Some "dQw4w9WgXcQ".
Proof.
  apply (extract_youtube_id_usual_urls "dQw4w9WgXcQ" "&t=10s").
  - discriminate.
  - reflexivity.
  - right. exists "&"%char, "t=10s". split; reflexivity.
Defined.

(** ** What disk-touching code leaves alone *)

Section frames.

Import more_spec.

Context {A B : Type}.

Lemma preserves_ret (q : path) (a : A) : preserves q (mret a : io A).
Proof. by intros w. Qed.

Lemma preserves_lift (q : path) (r : result A) : preserves q (lift r).
Proof. by intros w. Qed.

Lemma preserves_raise (q : path) (e : exn) : preserves q (raise e : io A).
Proof. by intros w. Qed.

Lemma preserves_bind (q : path) (m : io A) (k : A → io B) :
  preserves q m → (∀ a, preserves q (k a)) → preserves q (m ≫= k).
Proof.
  intros Hm Hk w. unfold mbind, io_bind. specialize (Hm w).
  destruct (m w) as [[a|e] w1]; cbn [snd] in *; [|done].
  by rewrite (Hk a w1).
Qed.

Lemma preserves_try_except (q : path) (body : io A) (handler : exn → io A) :
  preserves q body → (∀ e, preserves q (handler e)) →
  preserves q (try_except body handler).
Proof.
  intros Hbody Hhandler w. unfold try_except. specialize (Hbody w).
  destruct (body w) as [[a|e] w1]; cbn [snd] in *; [done|].
  by rewrite (Hhandler e w1).
Qed.

Lemma io_bind_inv (m : io A) (k : A → io B) (w w' : world) (b : B) :
  (m ≫= k) w = (Ok b, w') →
  ∃ a w1, m w = (Ok a, w1) ∧ k a w1 = (Ok b, w').
Proof.
  unfold mbind, io_bind. destruct (m w) as [[a|e] w1]; [eauto|done].
Qed.

End frames.

Lemma preserves_mkdir_p (q : path) (dir : string) :
  more_spec.preserves q (Disk.mkdir_p dir).
Proof.
  intros w. unfold Disk.mkdir_p.
  destruct (w !! dir) as [[d|]|] eqn:Hd; try done. cbn [snd].
  unfold Disk.lookup_file.
  destruct (decide (parent q = dir)) as [->|Hne].
  - rewrite lookup_insert_eq, Hd. cbn [entries]. by rewrite lookup_empty.
  - by rewrite lookup_insert_ne.
Qed.

Lemma preserves_open_w (q p : path) :
  parent q ≠ parent p ∨ name q ≠ name p →
  more_spec.preserves q (Disk.open_w p).
Proof.
  intros Hne w. unfold Disk.open_w.
  destruct (w !! parent p) as [[d|]|]; try done.
  destruct (entries d !! name p) as [[|r [] c]|]; try done.
  - cbn [snd]. by apply lookup_set_file_ne.
  - destruct (dir_writable d); [|done]. cbn [snd].
    by apply lookup_set_file_ne.
Qed.

Lemma preserves_write_text (q p : path) (s : string) :
  parent q ≠ parent p ∨ name q ≠ name p →
  more_spec.preserves q (Disk.write_text p s).
Proof.
  intros Hne w. unfold Disk.write_text.
  destruct (Disk.lookup_file w p) as [[|r wr c]|]; try done.
  cbn [snd]. by apply lookup_set_file_ne.
Qed.

Section frames_of_the_code.

Import more_spec cache_manager.

Variable json_dump : bool → pyval → string * option exn.
Variable json_load : string → result pyval.

Lemma preserves_dump_into (q p : path) (ensure_ascii : bool) (data : pyval) :
  parent q ≠ parent p ∨ name q ≠ name p →
  preserves q (helpers.dump_into json_dump ensure_ascii p data).
Proof.
  intros Hne. unfold helpers.dump_into.
  destruct (json_dump ensure_ascii data) as [written [e|]];
    (apply preserves_bind; [by apply preserves_write_text|]); intros _.
  - apply preserves_raise.
  - apply preserves_ret.
Qed.

Lemma preserves_write_json (q p : path) (data : pyval) :
  parent q ≠ parent p ∨ name q ≠ name p →
  preserves q (helpers.write_json json_dump p data).
Proof.
  intros Hne. unfold helpers.write_json.
  apply preserves_bind; [apply preserves_mkdir_p|]. intros _.
  apply preserves_bind; [by apply preserves_open_w|]. intros _.
  by apply preserves_dump_into.
Qed.

Lemma preserves_ensure_dirs (q : path) (cfg : config.Config) :
  preserves q (config.ensure_dirs cfg).
Proof.
  unfold config.ensure_dirs.
  apply preserves_bind; [apply preserves_mkdir_p|]. intros _.
  apply preserves_bind; [apply preserves_mkdir_p|]. intros _.
  apply preserves_mkdir_p.
Qed.

Lemma preserves_save_stage_cache (q : path) (self : CacheManager)
    (video_id stage : string) (data : pyval) :
  name q ≠ name (stage_cache_file self video_id stage) →
  preserves q (save_stage_cache json_dump self video_id stage data).
Proof.
  intros Hne. unfold save_stage_cache.
  apply preserves_try_except; [|intros; apply preserves_ret].
  apply preserves_bind; [apply preserves_open_w; by right|]. intros _.
  apply preserves_bind; [apply preserves_dump_into; by right|]. intros _.
  apply preserves_ret.
Qed.

Lemma save_stage_cache_returns (self : CacheManager)
    (video_id stage : string) (data : pyval) (w : world) :
  ∃ saved, (save_stage_cache json_dump self video_id stage data w).1
           = Ok saved.
Proof.
  unfold save_stage_cache. rewrite save_to_run.
  destruct (w !! parent (stage_cache_file self video_id stage)) as [[d|]|];
    [|by eexists..].
  destruct (writable_entry d (name (stage_cache_file self video_id stage)));
    by eexists.
Qed.

Lemma load_stage_cache_run (self : CacheManager) (video_id stage : string)
    (w : world) :
  load_stage_cache json_load self video_id stage w
  = (match Disk.lookup_file w (stage_cache_file self video_id stage) with
     | Some (File true _ content) =>
         match json_load content with
         | Ok payload => Ok (Some payload)
         | Raise _ => Ok None
         end
     | Some _ => Ok None
     | None =>
         if Disk.NAME_MAX
            <? String.length (name (stage_cache_file self video_id stage))
         then Raise OSError else Ok None
     end, w).
Proof. unfold load_stage_cache. apply load_from_run. Qed.

(** Loading does not change the disk, and what it gives depends on the
    stage file only. *)
Lemma load_stage_cache_result (self : CacheManager) (video_id stage : string)
    (w : world) :
  load_stage_cache json_load self video_id stage w
  = ((load_stage_cache json_load self video_id stage w).1, w).
Proof. by rewrite load_stage_cache_run. Qed.

Lemma load_stage_cache_same (self : CacheManager) (video_id stage : string)
    (w w1 : world) :
  Disk.lookup_file w1 (stage_cache_file self video_id stage)
  = Disk.lookup_file w (stage_cache_file self video_id stage) →
  (load_stage_cache json_load self video_id stage w1).1
  = (load_stage_cache json_load self video_id stage w).1.
Proof. intros Hsame. rewrite !load_stage_cache_run. cbn [fst]. by rewrite Hsame. Qed.

End frames_of_the_code.

(** ** The documents a run saves *)

Lemma string_app_same_length (a b t t' : string) :
  a +:+ t = b +:+ t' → String.length t = String.length t' → t = t'.
Proof.
  revert b. induction a as [|c a IH]; intros [|c' b] Heq Hlen.
  - exact Heq.
  - apply (f_equal String.length) in Heq.
    rewrite !string_app_length in Heq. cbn [String.length] in Heq. lia.
  - apply (f_equal String.length) in Heq.
    rewrite !string_app_length in Heq. cbn [String.length] in Heq. lia.
  - rewrite !string_app_cons in Heq. injection Heq as _ Heq. by apply (IH b).
Qed.

Lemma gloss_file_not_timeline_file (stem stem' : string) :
  stem +:+ "_gloss.json" ≠ stem' +:+ "_sign_timeline.json".
Proof.
  intros Heq.
  change (stem +:+ "_glos" +:+ "s.json"
          = stem' +:+ "_sign_timelin" +:+ "e.json") in Heq.
  rewrite <- !string_app_assoc in Heq.
  by apply string_app_same_length in Heq.
Qed.

Section saved_documents.

Import more_spec stage2_nlp_segments stage3_map_save helpers_more.

Variable json_dump : bool → pyval → string * option exn.
Variable json_load : string → result pyval.

(** What a completed [write_json] leaves at its path. *)
Lemma write_json_ok (w w' : world) (p : path) (data : pyval) :
  helpers.write_json json_dump p data w = (Ok tt, w') →
  (∀ wr content, Disk.lookup_file w p ≠ Some (File false wr content)) →
  Disk.lookup_file w' p = Some (File true true (json_dump false data).1).
Proof.
  unfold helpers.write_json. intros Hrun Hreadable.
  apply io_bind_inv in Hrun as ([] & w_dir & Hmk & Hrun).
  unfold Disk.mkdir_p in Hmk. unfold Disk.lookup_file in Hreadable.
  destruct (w !! parent p) as [[d|]|] eqn:Hd; [| done |].
  - injection Hmk as <-.
    destruct (writable_entry d (name p)) as [r|] eqn:Hentry.
    + destruct (open_and_dump json_dump false w p data d r Hd Hentry)
        as (w'' & Hrun' & Hfile & _).
      rewrite Hrun' in Hrun. injection Hrun as _ <-.
      rewrite Hfile. destruct r; [done|]. exfalso.
      unfold writable_entry in Hentry.
      destruct (entries d !! name p) as [[|r' [] c]|] eqn:Hn; try done.
      * injection Hentry as ->. by apply (Hreadable true c).
      * by destruct (dir_writable d).
    + rewrite (io_bind_raise _ _ _ OSError w) in Hrun; [done|].
      apply open_w_fails. intros d' Hd'. congruence.
  - injection Hmk as <-.
    set (fresh := {| entries := ∅; dir_writable := true |}) in *.
    destruct (open_and_dump json_dump false (<[parent p := IsDir fresh]> w)
                p data fresh true) as (w'' & Hrun' & Hfile & _).
    { apply lookup_insert_eq. }
    { unfold writable_entry. cbn [fresh entries dir_writable].
      by rewrite lookup_empty. }
    rewrite Hrun' in Hrun. by injection Hrun as _ <-.
Qed.

(** X27: the two documents a run saves are both there afterwards.  When
    [save_gloss_json] and then [save_timeline_json] return, for whatever
    stems, they return the paths <stem>_gloss.json and
    <stem>_sign_timeline.json of the output directory, and, given that
    neither file was an unreadable one before and that the parser inverts
    the serializer on the two documents, [read_json] afterwards gives the
    gloss document at the first path and the timeline at the second: the
    later save does not touch the earlier file. *)
Theorem saved_documents_read_back (gloss_data : gmap string pyval)
    (t : stage3_map.timeline_doc) (stem stem' : string) (cfg : config.Config)
    (w w1 w2 : world) (p1 p2 : path) :
  save_gloss_json json_dump gloss_data stem cfg w = (Ok p1, w1) →
  save_timeline_json json_dump t stem' cfg w1 = (Ok p2, w2) →
  (∀ n wr content,
     Disk.lookup_file w (path_in (config.output_dir cfg) n)
     ≠ Some (File false wr content)) →
  json_load (json_dump false (PDict gloss_data)).1 = Ok (PDict gloss_data) →
  json_load (json_dump false (timeline_to_py t)).1 = Ok (timeline_to_py t) →
  p1 = path_in (config.output_dir cfg) (stem +:+ "_gloss.json")
  ∧ p2 = path_in (config.output_dir cfg) (stem' +:+ "_sign_timeline.json")
  ∧ read_json json_load p1 w2 = (Ok (PDict gloss_data), w2)
  ∧ read_json json_load p2 w2 = (Ok (timeline_to_py t), w2).
Proof.
  unfold save_gloss_json, save_timeline_json.
  intros Hgloss Htimeline Hreadable Hload Hload'.
  apply io_bind_inv in Hgloss as ([] & w1' & Hwrite & Hret).
  injection Hret as <- <-.
  apply io_bind_inv in Htimeline as ([] & w_dirs & Hdirs & Htimeline).
  apply io_bind_inv in Htimeline as ([] & w2' & Hwrite' & Hret).
  injection Hret as <- <-.
  set (p1 := path_in (config.output_dir cfg) (stem +:+ "_gloss.json")) in *.
  set (p2 := path_in (config.output_dir cfg)
               (stem' +:+ "_sign_timeline.json")) in *.
  assert (Hne : name p1 ≠ name p2) by apply gloss_file_not_timeline_file.
  split; [done|]. split; [done|].
  pose proof (write_json_ok _ _ _ _ Hwrite (Hreadable _)) as Hfile1.
  assert (Hdirs1 : ∀ q, Disk.lookup_file w_dirs q = Disk.lookup_file w1' q).
  { intros q. pose proof (preserves_ensure_dirs q cfg w1') as Hq.
    by rewrite Hdirs in Hq. }
  assert (Hfile1' : Disk.lookup_file w2' p1 = Disk.lookup_file w1' p1).
  { rewrite <- Hdirs1.
    pose proof (preserves_write_json json_dump p1 p2 (timeline_to_py t)
                  (or_intror Hne) w_dirs) as Hq.
    by rewrite Hwrite' in Hq. }
  assert (Hfile2 : Disk.lookup_file w2' p2
                   = Some (File true true
                             (json_dump false (timeline_to_py t)).1)).
  { apply (write_json_ok _ _ _ _ Hwrite'). intros wr content.
    rewrite Hdirs1.
    pose proof (preserves_write_json json_dump p2 p1 (PDict gloss_data)
                  (or_intror (not_eq_sym Hne)) w) as Hq.
    rewrite Hwrite in Hq. cbn [snd] in Hq. rewrite Hq. apply Hreadable. }
  split.
  - rewrite (read_json_of_file json_load w2' p1 true
               (json_dump false (PDict gloss_data)).1);
      [by rewrite Hload|].
    by rewrite Hfile1'.
  - rewrite (read_json_of_file json_load w2' p2 true
               (json_dump false (timeline_to_py t)).1);
      [by rewrite Hload'|done].
Qed.

End saved_documents.

(** ** app.py: the cached stages of a run *)

Section pipeline.

Import more_spec cache_manager app_pipeline.

Variable _NLP : string → list stage2_nlp.Token.
Variable stop_words : gset string.
Variable _EMO : string → result (list (list stage2_emotion.score_entry)).
Variable json_dump : bool → pyval → string * option exn.
Variable json_load : string → result pyval.
Variable package_root : string.
Variable path_str : string → string.
Variable dataset_path : string.

Abbreviation run := (gloss_emotion_timeline _NLP stop_words _EMO json_dump
                       json_load package_root path_str dataset_path).

Lemma emotion_output_not_stage_file (self : CacheManager)
    (video_id stage dir : string) :
  name (stage_cache_file self video_id stage)
  ≠ name (path_in dir "emotion_output.json").
Proof.
  unfold stage_cache_file. cbn [name path_in]. intros Heq.
  apply (f_equal (λ s, match s with String a _ => a | _ => "x"%char end))
    in Heq.
  vm_compute in Heq. discriminate.
Qed.

Lemma preserves_add_emotion_to_value (self : CacheManager)
    (video_id stage : string) (gloss_json : pyval) (cfg : config.Config) :
  preserves (stage_cache_file self video_id stage)
    (add_emotion_to_value _EMO json_dump package_root gloss_json cfg).
Proof.
  assert (Hdirs : ∀ B (k : io B),
             preserves (stage_cache_file self video_id stage) k →
             preserves (stage_cache_file self video_id stage)
               (config.ensure_dirs cfg ≫= λ _, k)).
  { intros B k Hk. apply preserves_bind; [apply preserves_ensure_dirs|done]. }
  destruct gloss_json; cbn [add_emotion_to_value];
    try (apply Hdirs, preserves_raise).
  unfold stage2_emotion.add_emotion_to_segments. cbn [from_option id].
  apply Hdirs.
  apply preserves_bind; [apply preserves_lift|]. intros segments.
  apply preserves_bind; [apply preserves_lift|]. intros out_segments.
  apply preserves_bind; [|intros; apply preserves_ret].
  apply preserves_write_json. right. apply emotion_output_not_stage_file.
Qed.

Lemma preserves_build_sign_timeline_of_value (q : path) (gloss_json : pyval) :
  preserves q (build_sign_timeline_of_value path_str dataset_path gloss_json).
Proof. by intros w. Qed.

Lemma preserves_load_stage_cache (q : path) (self : CacheManager)
    (video_id stage : string) :
  preserves q (load_stage_cache json_load self video_id stage).
Proof. intros w. by rewrite load_stage_cache_run. Qed.

(** X24: a timeline in the stage cache wins over what the run has just
    computed.  When the timeline file of the video holds a payload that
    counts as true, a run that completes returns that payload as the timeline
    and names the stage as taken from the cache, whatever transcript and
    gloss the run worked on. *)
Theorem cached_timeline_is_served (cache_mgr : CacheManager)
    (video_id : string) (transcript_json : pyval) (show_emotion : bool)
    (cfg : config.Config) (stages_from_cache : list string) (w w' : world)
    (writable : bool) (content : string) (cached : pyval)
    (gloss_with_emotion timeline : pyval) (stages : list string) :
  Disk.lookup_file w (stage_cache_file cache_mgr video_id "timeline")
  = Some (File true writable content) →
  json_load content = Ok cached →
  truthy cached = true →
  run cache_mgr video_id transcript_json show_emotion cfg stages_from_cache w
  = (Ok (gloss_with_emotion, timeline, stages), w') →
  timeline = cached ∧ last stages = Some "timeline".
Proof.
  intros Hfile Hload Htruthy Hrun.
  set (file := stage_cache_file cache_mgr video_id "timeline") in *.
  unfold gloss_emotion_timeline in Hrun.
  apply io_bind_inv in Hrun as (gloss_cached & w1 & Hw1 & Hrun).
  apply io_bind_inv in Hrun as ([gloss_json stages1] & w2 & Hw2 & Hrun).
  apply io_bind_inv in Hrun as ([gloss_json' stages2] & w3 & Hw3 & Hrun).
  apply io_bind_inv in Hrun as (timeline_cached & w4 & Hw4 & Hrun).
  assert (Hfile3 : Disk.lookup_file w3 file = Disk.lookup_file w file).
  { transitivity (Disk.lookup_file w2 file);
      [|transitivity (Disk.lookup_file w1 file)].
    - match type of Hw3 with ?m w2 = _ =>
        assert (Hm : preserves file m) end.
      { destruct show_emotion; [|apply preserves_ret].
        apply preserves_bind; [apply preserves_load_stage_cache|].
        intros emotion_cached.
        destruct (hit emotion_cached); [apply preserves_ret|].
        apply preserves_bind; [apply preserves_add_emotion_to_value|].
        intros out.
        apply preserves_bind; [|intros; apply preserves_ret].
        apply preserves_save_stage_cache.
        by apply stage_files_differ. }
      specialize (Hm w2). by rewrite Hw3 in Hm.
    - match type of Hw2 with ?m w1 = _ =>
        assert (Hm : preserves file m) end.
      { destruct (hit gloss_cached); [apply preserves_ret|].
        apply preserves_bind; [apply preserves_lift|]. intros segments.
        apply preserves_bind; [apply preserves_lift|]. intros out.
        apply preserves_bind; [|intros; apply preserves_ret].
        apply preserves_save_stage_cache.
        by apply stage_files_differ. }
      specialize (Hm w1). by rewrite Hw2 in Hm.
    - pose proof (preserves_load_stage_cache file cache_mgr video_id "gloss" w)
        as Hm.
      by rewrite Hw1 in Hm. }
  rewrite load_stage_cache_run in Hw4. fold file in Hw4.
  rewrite Hfile3, Hfile, Hload in Hw4. injection Hw4 as <- <-.
  cbn [hit] in Hrun. rewrite Htruthy in Hrun.
  cbn in Hrun. injection Hrun as <- <- <- <-.
  split; [done|]. apply last_snoc.
Qed.

(** X25: a run whose stages are all cached only reads the cache.  With the
    emotion stage off, when the gloss file and the timeline file of the video
    hold payloads that count as true, the run returns these two payloads,
    names both stages as taken from the cache, and leaves the disk as it
    was; the transcript is not looked at. *)
Theorem cached_run_only_reads (cache_mgr : CacheManager)
    (video_id : string) (transcript_json : pyval) (cfg : config.Config)
    (stages_from_cache : list string) (w : world)
    (writable writable' : bool) (content content' : string)
    (gloss_json timeline : pyval) :
  Disk.lookup_file w (stage_cache_file cache_mgr video_id "gloss")
  = Some (File true writable content) →
  json_load content = Ok gloss_json →
  truthy gloss_json = true →
  Disk.lookup_file w (stage_cache_file cache_mgr video_id "timeline")
  = Some (File true writable' content') →
  json_load content' = Ok timeline →
  truthy timeline = true →
  run cache_mgr video_id transcript_json false cfg stages_from_cache w
  = (Ok (gloss_json, timeline, stages_from_cache ++ ["gloss"; "timeline"]), w).
Proof.
  intros Hgloss Hload Htruthy Htimeline Hload' Htruthy'.
  unfold gloss_emotion_timeline.
  assert (Hhit : load_stage_cache json_load cache_mgr video_id "gloss" w
                 = (Ok (Some gloss_json), w))
    by (by rewrite load_stage_cache_run, Hgloss, Hload).
  assert (Hhit' : load_stage_cache json_load cache_mgr video_id "timeline" w
                  = (Ok (Some timeline), w))
    by (by rewrite load_stage_cache_run, Htimeline, Hload').
  rewrite (io_bind_ok _ _ _ _ _ Hhit). cbn [hit]. rewrite Htruthy.
  unfold mbind at 1, io_bind at 1. cbn [mret io_ret from_option id].
  unfold mbind at 1, io_bind at 1. cbn [mret io_ret].
  rewrite (io_bind_ok _ _ _ _ _ Hhit'). cbn [hit]. rewrite Htruthy'.
  unfold mbind, io_bind. cbn [mret io_ret from_option id].
  by rewrite <- app_assoc.
Qed.

(** X26: a run with nothing cached returns what it computes, whether or not
    the cache can be written.  With the emotion stage off, when loading the
    gloss and the timeline of the video gives nothing that counts as true,
    the transcript has segments, the gloss stage turns them into [gloss_json]
    and the timeline builder, run after the gloss was offered to the cache,
    turns that into [timeline], the run returns [gloss_json] and [timeline]
    and names no stage as taken from the cache. *)
Theorem uncached_run_computes (cache_mgr : CacheManager)
    (video_id : string) (transcript_json segments : pyval)
    (cfg : config.Config) (stages_from_cache : list string) (w : world)
    (gloss_cached timeline_cached : option pyval)
    (gloss_json : gmap string pyval) (timeline : stage3_map.timeline_doc) :
  let w1 := (save_stage_cache json_dump cache_mgr video_id "gloss"
               (PDict gloss_json) w).2 in
  (load_stage_cache json_load cache_mgr video_id "gloss" w).1
  = Ok gloss_cached →
  hit gloss_cached = false →
  (load_stage_cache json_load cache_mgr video_id "timeline" w).1
  = Ok timeline_cached →
  hit timeline_cached = false →
  subscript transcript_json "segments" = Ok segments →
  stage2_nlp_segments.process_segments_to_gloss _NLP stop_words segments cfg
  = Ok gloss_json →
  stage3_map.build_sign_timeline path_str w1 dataset_path gloss_json
  = Ok timeline →
  (run cache_mgr video_id transcript_json false cfg stages_from_cache w).1
  = Ok (PDict gloss_json, stage3_map_save.timeline_to_py timeline,
        stages_from_cache).
Proof.
  intros w1 Hgloss Hmiss Htimeline Hmiss' Hsegments Hprocess Hbuild.
  unfold gloss_emotion_timeline.
  assert (Hload : load_stage_cache json_load cache_mgr video_id "gloss" w
                  = (Ok gloss_cached, w))
    by (by rewrite load_stage_cache_result, Hgloss).
  rewrite (io_bind_ok _ _ _ _ _ Hload). rewrite Hmiss.
  assert (Hstage1 :
    (lift (subscript transcript_json "segments") ≫= λ segments,
       lift (stage2_nlp_segments.process_segments_to_gloss
               _NLP stop_words segments cfg) ≫= λ gloss_json,
         save_stage_cache json_dump cache_mgr video_id "gloss"
           (PDict gloss_json) ≫= λ _,
           (mret (PDict gloss_json, stages_from_cache)
              : io (pyval * list string))) w
    = (Ok (PDict gloss_json, stages_from_cache), w1)).
  { rewrite Hsegments. unfold mbind at 1, io_bind at 1, lift at 1.
    rewrite Hprocess. unfold mbind, io_bind, lift. fold w1.
    pose proof (save_stage_cache_returns json_dump cache_mgr video_id "gloss"
                  (PDict gloss_json) w) as [saved Hsaved].
    by rewrite (surjective_pairing (save_stage_cache _ _ _ _ _ w)), Hsaved. }
  rewrite (io_bind_ok _ _ _ _ _ Hstage1).
  unfold mbind at 1, io_bind at 1. cbn [mret io_ret].
  assert (Hsame :
    Disk.lookup_file w1 (stage_cache_file cache_mgr video_id "timeline")
    = Disk.lookup_file w (stage_cache_file cache_mgr video_id "timeline")).
  { apply preserves_save_stage_cache. by apply stage_files_differ. }
  assert (Hload' : load_stage_cache json_load cache_mgr video_id "timeline" w1
                   = (Ok timeline_cached, w1)).
  { rewrite load_stage_cache_result.
    by rewrite (load_stage_cache_same json_load _ _ _ w w1 Hsame), Htimeline. }
  rewrite (io_bind_ok _ _ _ _ _ Hload'). rewrite Hmiss'.
  unfold build_sign_timeline_of_value.
  unfold mbind, io_bind. rewrite Hbuild.
  pose proof (save_stage_cache_returns json_dump cache_mgr video_id "timeline"
                (stage3_map_save.timeline_to_py timeline) w1) as [saved Hsaved].
  by rewrite (surjective_pairing (save_stage_cache _ _ _ _ _ w1)), Hsaved.
Qed.

End pipeline.

(** ** Runs on sample inputs *)

Lemma process_segments_to_gloss_result_witness :
  stage2_nlp_segments.process_segments_to_gloss samples.nlp samples.stop_words
    (PList (PDict <$> samples_more.transcript)) (config.Config_default "/app")
  = Ok {[ "segments" :=
            PList (PDict <$>
                     (more_spec.glossed
                        (λ text, stage2_nlp.text_to_gloss_tokens samples.nlp
                                   samples.stop_words text true)
                        <$> filter more_spec.nonblank samples_more.transcript)) ]}.
Proof.
  apply (process_segments_to_gloss_result samples.nlp samples.stop_words
           (config.Config_default "/app") samples_more.transcript).
  vm_compute. reflexivity.
Defined.

Lemma process_segments_to_gloss_missing_id_witness :
  stage2_nlp_segments.process_segments_to_gloss samples.nlp samples.stop_words
    (PList (PDict <$> (samples_more.transcript
                         ++ {[ "text" := PStr "Stop!" ]}
                         :: samples_more.transcript)))
    (config.Config_default "/app")
  = Raise (KeyError "id").
Proof.
  apply (process_segments_to_gloss_missing_id samples.nlp samples.stop_words
           (config.Config_default "/app") samples_more.transcript
           samples_more.transcript {[ "text" := PStr "Stop!" ]}).
  - vm_compute. reflexivity.
  - vm_compute. reflexivity.
  - vm_compute. discriminate.
  - vm_compute. reflexivity.
Defined.

Lemma gloss_then_timeline_witness :
  ∃ gloss_json entries,
    stage2_nlp_segments.process_segments_to_gloss samples.nlp
      samples.stop_words (PList (PDict <$> samples_more.transcript))
      (config.Config_default "/app")
    = Ok gloss_json
    ∧ stage3_map.build_sign_timeline samples.posix_str
        samples_more.dataset_world "/app/datasets/data" gloss_json
      = Ok {| stage3_map.timeline := entries |}
    ∧ length entries = 2.
Proof.
  destruct (gloss_then_timeline samples.nlp samples.stop_words
              (config.Config_default "/app") samples.posix_str
              samples_more.transcript samples_more.dataset_world
              "/app/datasets/data"
              {[ "LOVE" := "/app/datasets/data/love/sign.PNG" ]})
    as (gloss_json & entries & Hgloss & Hbuild & Hlen & _).
  - vm_compute. reflexivity.
  - vm_compute. reflexivity.
  - exists gloss_json, entries.
    split; [exact Hgloss|]. split; [exact Hbuild|exact Hlen].
Defined.

Lemma emotion_then_timeline_witness :
  ∃ with_emotion entries,
    (stage2_emotion.add_emotion_to_segments samples.classifier
       samples_more.segments_dump "/app" samples.gloss_json None ∅).1
    = Ok with_emotion
    ∧ stage3_map.build_sign_timeline samples.posix_str
        samples_more.dataset_world "/app/datasets/data" with_emotion
      = Ok {| stage3_map.timeline := entries |}
    ∧ length entries = 2
    ∧ ∃ e, entries !! 1 = Some e
        ∧ stage3_map.e_emotion e = stage2_emotion.emotion_dict "joy" (9 # 10).
Proof.
  destruct (emotion_then_timeline samples.classifier
              samples_more.segments_dump "/app"
              samples.posix_str samples.gloss_json None
              [samples.first_segment; samples.second_segment] ∅
              samples_more.dataset_world "/app/datasets/data"
              {[ "LOVE" := "/app/datasets/data/love/sign.PNG" ]})
    as (with_emotion & entries & Hrun & Hbuild & Hlen & Hentries).
  - vm_compute. reflexivity.
  - vm_compute. reflexivity.
  - vm_compute. reflexivity.
  - intros seg _ _. eexists _, _. reflexivity.
  - vm_compute. reflexivity.
  - vm_compute. reflexivity.
  - vm_compute. reflexivity.
  - exists with_emotion, entries.
    split; [exact Hrun|]. split; [exact Hbuild|]. split; [exact Hlen|].
    destruct (Hentries 1 samples.second_segment eq_refl) as (e & He & Hemo & _).
    exists e. split; [exact He|]. rewrite Hemo. vm_compute. reflexivity.
Defined.

Lemma save_then_load_stage_witness :
  cache_manager.load_stage_cache samples_more.json_load samples.cache "abc"
    "download"
    (cache_manager.save_stage_cache samples_more.json_dump samples.cache
       "abc" "download" samples_more.payload samples.cache_world).2
  = (Ok (Some samples_more.payload),
     (cache_manager.save_stage_cache samples_more.json_dump samples.cache
        "abc" "download" samples_more.payload samples.cache_world).2).
Proof.
  apply (save_then_load_stage samples_more.json_dump samples_more.json_load
           samples.cache "abc" "download" samples_more.payload
           samples_more.payload samples.cache_world).
  - vm_compute. reflexivity.
  - intros wr content. vm_compute. discriminate.
  - vm_compute. reflexivity.
Defined.

Lemma save_cache_then_clear_witness :
  ∃ w'',
    cache_manager.clear_cache samples.cache (Some "xyz")
      (cache_manager_more.save_cache samples_more.json_dump samples.cache
         "xyz" samples_more.payload samples.cache_world).2
    = (Ok (Some true), w'')
    ∧ cache_manager_more.has_cache samples.cache "xyz" w'' = (Ok false, w'').
Proof.
  destruct (save_cache_then_clear samples_more.json_dump samples_more.json_load
              samples.cache "xyz" samples_more.payload samples.cache_world
              (cache_manager_more.save_cache samples_more.json_dump
                 samples.cache "xyz" samples_more.payload
                 samples.cache_world).2)
    as (w'' & Hclear & Hhas & _).
  - vm_compute. reflexivity.
  - discriminate.
  - reflexivity.
  - reflexivity.
  - intros d Hd. vm_compute in Hd. injection Hd as <-. reflexivity.
  - exists w''. split; [exact Hclear|exact Hhas].
Defined.

Lemma save_stage_leaves_other_stages_witness :
  (cache_manager.load_stage_cache samples_more.json_load samples.cache "abc"
     "timeline"
     (cache_manager.save_stage_cache samples_more.json_dump samples.cache
        "abc" "gloss" samples_more.payload samples.cache_world).2).1
  = (cache_manager.load_stage_cache samples_more.json_load samples.cache
       "abc" "timeline" samples.cache_world).1.
Proof.
  destruct (save_stage_leaves_other_stages samples_more.json_dump
              samples_more.json_load samples.cache "abc" "gloss" "timeline"
              samples_more.payload samples.cache_world)
    as (Hstage & _).
  - reflexivity.
  - reflexivity.
  - reflexivity.
  - apply Hstage. discriminate.
Defined.

Lemma clear_all_then_everything_misses_witness :
  ∃ w',
    cache_manager.clear_cache samples.cache None samples_more.warm_cache_world
    = (Ok (Some true), w')
    ∧ cache_manager.load_stage_cache samples_more.json_load samples.cache
        "abc" "gloss" w'
      = (Ok None, w')
    ∧ cache_manager_more.list_cached_videos samples.cache w' = (Ok [], w').
Proof.
  destruct (clear_all_then_everything_misses samples_more.json_load
              samples.cache samples_more.warm_cache_world
              {| entries :=
                   {[ "video_abc_stage_gloss.json" :=
                        File true true "{wav_path: /app/output/a.wav}";
                      "video_abc_stage_timeline.json" :=
                        File true false "{wav_path: /app/output/a.wav}" ]};
                 dir_writable := true |})
    as (w' & Hclear & Hstages & _ & Hlist).
  - vm_compute. reflexivity.
  - reflexivity.
  - intros n _ Hn. cbn [entries] in Hn.
    apply lookup_insert_Some in Hn as [[_ Hn]|[_ Hn]]; [discriminate|].
    apply lookup_singleton_Some in Hn as [_ Hn]. discriminate.
  - exists w'. split; [exact Hclear|]. split; [|exact Hlist].
    apply (Hstages "abc" "gloss"); reflexivity.
Defined.

Lemma saved_video_is_listed_witness :
  ∃ listed,
    cache_manager_more.list_cached_videos samples.cache
      (cache_manager_more.save_cache samples_more.json_dump samples.cache
         "xyz" samples_more.payload samples.cache_world).2
    = (Ok listed,
       (cache_manager_more.save_cache samples_more.json_dump samples.cache
          "xyz" samples_more.payload samples.cache_world).2)
    ∧ "xyz" ∈ listed.
Proof.
  apply (saved_video_is_listed samples_more.json_dump samples.cache "xyz"
           samples_more.payload samples.cache_world).
  - vm_compute. reflexivity.
  - reflexivity.
  - vm_compute. reflexivity.
Defined.

Lemma stage_file_is_listed_as_video_witness :
  ∃ listed,
    cache_manager_more.list_cached_videos samples.cache
      (cache_manager.save_stage_cache samples_more.json_dump samples.cache
         "xyz" "download" samples_more.payload samples.cache_world).2
    = (Ok listed,
       (cache_manager.save_stage_cache samples_more.json_dump samples.cache
          "xyz" "download" samples_more.payload samples.cache_world).2)
    ∧ "xyz_stage_download" ∈ listed.
Proof.
  apply (stage_file_is_listed_as_video samples_more.json_dump samples.cache
           "xyz" "download" samples_more.payload samples.cache_world).
  - vm_compute. reflexivity.
  - reflexivity.
  - reflexivity.
  - vm_compute. reflexivity.
Defined.

Lemma cached_timeline_is_served_witness :
  ∃ gloss_with_emotion timeline stages w',
    app_pipeline.gloss_emotion_timeline samples.nlp samples.stop_words
      samples.classifier samples_more.json_dump samples_more.json_load "/app"
      samples.posix_str "/app/datasets/data" samples.cache "abc"
      samples_more.transcript_json false (config.Config_default "/app") []
      samples_more.stale_cache_world
    = (Ok (gloss_with_emotion, timeline, stages), w')
    ∧ timeline = samples_more.payload
    ∧ last stages = Some "timeline".
Proof.
  destruct (app_pipeline.gloss_emotion_timeline samples.nlp samples.stop_words
              samples.classifier samples_more.json_dump samples_more.json_load
              "/app" samples.posix_str "/app/datasets/data" samples.cache "abc"
              samples_more.transcript_json false (config.Config_default "/app")
              [] samples_more.stale_cache_world)
    as [[[[gloss_with_emotion timeline] stages]|e] w'] eqn:Hrun.
  - exists gloss_with_emotion, timeline, stages, w'. split; [reflexivity|].
    apply (cached_timeline_is_served samples.nlp samples.stop_words
             samples.classifier samples_more.json_dump samples_more.json_load
             "/app" samples.posix_str "/app/datasets/data" samples.cache "abc"
             samples_more.transcript_json false (config.Config_default "/app")
             [] samples_more.stale_cache_world w' false
             "{wav_path: /app/output/a.wav}" samples_more.payload
             gloss_with_emotion timeline stages).
    + vm_compute. reflexivity.
    + vm_compute. reflexivity.
    + vm_compute. reflexivity.
    + exact Hrun.
  - vm_compute in Hrun. discriminate.
Defined.

Lemma cached_run_only_reads_witness :
  app_pipeline.gloss_emotion_timeline samples.nlp samples.stop_words
    samples.classifier samples_more.json_dump samples_more.json_load "/app"
    samples.posix_str "/app/datasets/data" samples.cache "abc" PNone false
    (config.Config_default "/app") ["download"; "transcribe"]
    samples_more.warm_cache_world
  = (Ok (samples_more.payload, samples_more.payload,
         ["download"; "transcribe"] ++ ["gloss"; "timeline"]),
     samples_more.warm_cache_world).
Proof.
  apply (cached_run_only_reads samples.nlp samples.stop_words
           samples.classifier samples_more.json_dump samples_more.json_load
           "/app" samples.posix_str "/app/datasets/data" samples.cache "abc"
           PNone (config.Config_default "/app") ["download"; "transcribe"]
           samples_more.warm_cache_world true false
           "{wav_path: /app/output/a.wav}" "{wav_path: /app/output/a.wav}").
  - vm_compute. reflexivity.
  - vm_compute. reflexivity.
  - vm_compute. reflexivity.
  - vm_compute. reflexivity.
  - vm_compute. reflexivity.
  - vm_compute. reflexivity.
Defined.

Lemma uncached_run_computes_witness :
  (app_pipeline.gloss_emotion_timeline samples.nlp samples.stop_words
     samples.classifier samples_more.json_dump samples_more.json_load "/app"
     samples.posix_str "/app/datasets/data" samples.cache "abc"
     samples_more.transcript_json false (config.Config_default "/app") []
     samples_more.dataset_world).1
  = Ok (PDict {[ "segments" :=
                   PList (PDict <$>
                            (more_spec.glossed
                               (λ text, stage2_nlp.text_to_gloss_tokens
                                          samples.nlp samples.stop_words text
                                          true)
                               <$> filter more_spec.nonblank
                                     samples_more.transcript)) ]},
        stage3_map_save.timeline_to_py
          {| stage3_map.timeline :=
               resolver_spec.entry_of samples.posix_str
                 {[ "LOVE" := "/app/datasets/data/love/sign.PNG" ]}
                 <$> (more_spec.glossed
                        (λ text, stage2_nlp.text_to_gloss_tokens samples.nlp
                                   samples.stop_words text true)
                        <$> filter more_spec.nonblank
                              samples_more.transcript) |},
        []).
Proof.
  apply (uncached_run_computes samples.nlp samples.stop_words
           samples.classifier samples_more.json_dump samples_more.json_load
           "/app" samples.posix_str "/app/datasets/data" samples.cache "abc"
           samples_more.transcript_json
           (PList (PDict <$> samples_more.transcript))
           (config.Config_default "/app") [] samples_more.dataset_world
           None None).
  - vm_compute. reflexivity.
  - reflexivity.
  - vm_compute. reflexivity.
  - reflexivity.
  - vm_compute. reflexivity.
  - vm_compute. reflexivity.
  - vm_compute. reflexivity.
Defined.

Lemma saved_documents_read_back_witness :
  helpers_more.read_json samples_more.documents_load
    (path_in "/app/output" "a_gloss.json")
    (stage3_map_save.save_timeline_json samples_more.documents_dump
       {| stage3_map.timeline := [] |} "a" (config.Config_default "/app")
       (stage2_nlp_segments.save_gloss_json samples_more.documents_dump
          {[ "segments" := PList [] ]} "a" (config.Config_default "/app")
          ∅).2).2
  = (Ok (PDict {[ "segments" := PList [] ]}),
     (stage3_map_save.save_timeline_json samples_more.documents_dump
        {| stage3_map.timeline := [] |} "a" (config.Config_default "/app")
        (stage2_nlp_segments.save_gloss_json samples_more.documents_dump
           {[ "segments" := PList [] ]} "a" (config.Config_default "/app")
           ∅).2).2).
Proof.
  destruct (saved_documents_read_back samples_more.documents_dump
              samples_more.documents_load {[ "segments" := PList [] ]}
              {| stage3_map.timeline := [] |} "a" "a"
              (config.Config_default "/app") ∅
              (stage2_nlp_segments.save_gloss_json samples_more.documents_dump
                 {[ "segments" := PList [] ]} "a"
                 (config.Config_default "/app") ∅).2
              (stage3_map_save.save_timeline_json samples_more.documents_dump
                 {| stage3_map.timeline := [] |} "a"
                 (config.Config_default "/app")
                 (stage2_nlp_segments.save_gloss_json
                    samples_more.documents_dump {[ "segments" := PList [] ]}
                    "a" (config.Config_default "/app") ∅).2).2
              (path_in "/app/output" "a_gloss.json")
              (path_in "/app/output" "a_sign_timeline.json"))
    as (_ & _ & Hgloss & _).
  - vm_compute. reflexivity.
  - vm_compute. reflexivity.
  - intros n wr content. vm_compute. discriminate.
  - vm_compute. reflexivity.
  - vm_compute. reflexivity.
  - exact Hgloss.
Defined.
